(** * hcipy: Fourier-domain operators and the angular spectrum propagator

    A shallow embedding of [hcipy/fourier/fourier_operations.py]
    (FourierFilter, FourierShift, FourierShear, FourierRotation) and of
    [hcipy/propagation/angular_spectrum.py] (AngularSpectrumPropagator).

    Conventions of the embedding.
    - numpy arrays are a shape, a dtype and the row-major list of their
      elements.  The element type [C] (complex floating point numbers) is
      a parameter: only its zero, product, sum and conjugate are used.
    - [numpy.fft.fftn] and [numpy.fft.ifftn] (or their [mkl_fft]
      counterparts) are parameters; every call to them is recorded in a
      trace, also the calls that evaluating a transfer function makes, so
      that "no Fourier transform is performed" is a statement about the
      trace.
    - real-valued physical parameters (grid spacing, wavelength, distance,
      shift, shear, angle) are rationals, as every double is.  Where the
      code branches on a comparison of computed doubles (the test of
      [AngularSpectrumPropagator.make_instance]), every operation is
      followed by the rounding [fround], a parameter that is monotone and
      keeps zero; infinities arise only from the division by a zero
      extent, and overflow is not modelled.
    - Python exceptions are the [Raise] results of the [Py] monad; the
      attributes of [self] that a method assigns are threaded explicitly. *)

From Stdlib Require Import List ZArith QArith Qround Qcanon Bool Lia Lqa Arith Ring.
From Stdlib Require FinFun.
Import ListNotations.

Set Implicit Arguments.
Close Scope Qc_scope.

(** ** Python results: exceptions and the trace of FFT calls *)

Inductive PyExc : Type :=
| ValueError
| AttributeError
| IndexError
| ZeroDivisionError.

Inductive Result (A : Type) : Type :=
| Ok (a : A)
| Raise (e : PyExc).

Arguments Ok {A} a.
Arguments Raise {A} e.

(** One entry per call into the FFT module ([_fft_module] of
    fourier_operations.py, and the transform that [FastFourierTransform]
    runs): the [axes] argument as the code passes it and the shape of the
    transformed array. *)
Inductive FFTCall : Type :=
| Call_fftn (axes : list Z) (shape : list nat)
| Call_ifftn (axes : list Z) (shape : list nat).

Definition Py (A : Type) : Type := (Result A * list FFTCall)%type.

Definition ret {A} (a : A) : Py A := (Ok a, []).

Definition raise {A} (e : PyExc) : Py A := (Raise e, []).

Definition bind {A B} (m : Py A) (k : A -> Py B) : Py B :=
  match m with
  | (Ok a, t) => let (r, t') := k a in (r, t ++ t')
  | (Raise e, t) => (Raise e, t)
  end.

Declare Scope py_scope.
Delimit Scope py_scope with py.
Notation "x <- m ;; k" := (bind m (fun x => k))
  (at level 61, m at next level, right associativity) : py_scope.
Notation "' p <- m ;; k" := (bind m (fun p => k))
  (at level 61, p pattern, m at next level, right associativity) : py_scope.

Definition result {A} (m : Py A) : Result A := fst m.

Definition is_ok {A} (r : Result A) : bool :=
  match r with
  | Ok _ => true
  | Raise _ => false
  end.
Definition fft_calls {A} (m : Py A) : list FFTCall := snd m.

(** ** dtypes *)

Inductive Dtype : Type := float32 | float64 | complex64 | complex128.

Definition dtype_eqb (a b : Dtype) : bool :=
  match a, b with
  | float32, float32 | float64, float64
  | complex64, complex64 | complex128, complex128 => true
  | _, _ => false
  end.

(** ** Shapes and row-major indexing *)

Definition shape_size (shape : list nat) : nat := fold_right Nat.mul 1%nat shape.

(** The multi-index of flat position [k] in an array of shape [shape]. *)
Fixpoint unravel (shape : list nat) (k : nat) : list nat :=
  match shape with
  | [] => []
  | n :: rest => ((k / shape_size rest) mod n)%nat :: unravel rest k
  end.

Fixpoint ravel (shape idx : list nat) : nat :=
  match shape, idx with
  | _ :: rest, i :: idx' => (i * shape_size rest + ravel rest idx')%nat
  | _, _ => 0%nat
  end.

(** [shape[:-n]] and [shape[-n:]] for [0 < n]; for [n = 0] Python's
    [shape[:-0]] is the empty tuple. *)
Definition drop_last (n : nat) (shape : list nat) : list nat :=
  match n with
  | O => []
  | _ => firstn (length shape - n) shape
  end.

(** numpy's normalisation of an axis number against [ndim]. *)
Definition normalize_axis (ndim : nat) (a : Z) : Z :=
  if (a <? 0)%Z then (a + Z.of_nat ndim)%Z else a.

(** [tuple(range(-n, 0))] *)
Definition last_axes (n : nat) : list Z :=
  map (fun i => (Z.of_nat i - Z.of_nat n)%Z) (seq 0 n).

(** A slice [start:stop] with both ends given, or [slice(None)]. *)
Inductive slice : Type :=
| SliceAll
| Slice (start stop : nat).

Definition slice_bounds (n : nat) (s : slice) : nat * nat :=
  match s with
  | SliceAll => (0, n)%nat
  | Slice a b => (Nat.min a n, Nat.min b n)
  end.

Definition slice_len (n : nat) (s : slice) : nat :=
  let (a, b) := slice_bounds n s in (b - a)%nat.

(** Shape of [a[c]] for basic slicing; axes beyond [c] are taken whole. *)
Fixpoint region_shape (shape : list nat) (c : list slice) : list nat :=
  match shape, c with
  | n :: rest, s :: c' => slice_len n s :: region_shape rest c'
  | _, _ => shape
  end.

(** Flat positions of [a[c]] inside [a], in the order of [a[c]]. *)
Fixpoint region_indices (shape : list nat) (c : list slice) : list nat :=
  match shape with
  | [] => [0%nat]
  | n :: rest =>
      let (s, c') := match c with [] => (SliceAll, []) | s :: c' => (s, c') end in
      let (a, b) := slice_bounds n s in
      flat_map (fun i => map (fun j => (i * shape_size rest + j)%nat)
                             (region_indices rest c'))
               (seq a (b - a))
  end.

(** numpy broadcasting of a shape to a target shape, aligned at the
    trailing axes. *)
Fixpoint broadcastable_rev (src tgt : list nat) : bool :=
  match src, tgt with
  | [], _ => true
  | s :: src', t :: tgt' =>
      ((s =? t)%nat || (s =? 1)%nat) && broadcastable_rev src' tgt'
  | _ :: _, [] => false
  end.

Definition broadcastable (src tgt : list nat) : bool :=
  broadcastable_rev (rev src) (rev tgt).

(** Index into the source of a broadcast, from a multi-index of the target
    (both reversed, trailing axis first). *)
Fixpoint broadcast_index_rev (src idx : list nat) : list nat :=
  match src, idx with
  | s :: src', i :: idx' =>
      (if (s =? 1)%nat then 0%nat else i) :: broadcast_index_rev src' idx'
  | _, _ => []
  end.

Definition broadcast_pos (src tgt : list nat) (k : nat) : nat :=
  ravel src (rev (broadcast_index_rev (rev src) (rev (unravel tgt k)))).

(** The shape of the value of an assignment after numpy has dropped its
    leading axes of length 1, as long as it has more axes than the target
    ([excess] counts them). *)
Fixpoint strip_leading_ones (excess : nat) (s : list nat) : list nat :=
  match excess, s with
  | S e, 1%nat :: s' => strip_leading_ones e s'
  | _, _ => s
  end.

Fixpoint list_set {A} (l : list A) (i : nat) (x : A) : list A :=
  match l, i with
  | [], _ => []
  | _ :: l', O => x :: l'
  | y :: l', S i' => y :: list_set l' i' x
  end.

Definition scatter {A} (l : list A) (idx : list nat) (vals : list A) : list A :=
  fold_left (fun acc iv => list_set acc (fst iv) (snd iv)) (combine idx vals) l.

(** ** Grids

    Modelled from the spec: the grid abstraction is external ("Grid:
    ordered Cartesian or polar sample set; attributes: dimensionality
    [ndim], per-axis sample counts [dims], per-axis spacing [delta],
    per-axis origin offset [zero], a flag [is_regular]").  [shape] lists
    the sample counts with the last grid axis first, as the axes of a
    shaped field are ordered. *)

Record Grid : Type := {
  ndim : nat;
  dims : list nat;
  delta : list Q;
  zero : list Q;
  is_regular : bool;
  is_cartesian : bool
}.

Definition grid_shape (g : Grid) : list nat := rev (dims g).
Definition grid_size (g : Grid) : nat := shape_size (dims g).

Definition Qlist_eqb (a b : list Q) : bool :=
  (length a =? length b)%nat && forallb (fun p => Qeq_bool (fst p) (snd p)) (combine a b).

Definition natlist_eqb (a b : list nat) : bool :=
  (length a =? length b)%nat && forallb (fun p => (fst p =? snd p)%nat) (combine a b).

Definition grid_eqb (g h : Grid) : bool :=
  (ndim g =? ndim h)%nat && natlist_eqb (dims g) (dims h)
  && Qlist_eqb (delta g) (delta h) && Qlist_eqb (zero g) (zero h)
  && Bool.eqb (is_regular g) (is_regular h)
  && Bool.eqb (is_cartesian g) (is_cartesian h).

(** Modelled from the spec: the coordinate accessors of a grid are
    external; on a regular grid the coordinates along grid axis [i] are
    [zero + k * delta]. *)
Definition separated_coords (g : Grid) (i : nat) : option (list Q) :=
  match nth_error (dims g) i, nth_error (delta g) i, nth_error (zero g) i with
  | Some n, Some d, Some z =>
      Some (map (fun k => (z + inject_Z (Z.of_nat k) * d)%Q) (seq 0 n))
  | _, _, _ => None
  end.

(** ** Arrays and fields *)

(** A numpy array: shape, dtype and elements in row-major order. *)
Record ndarray (C : Type) : Type := {
  shape : list nat;
  dtype : Dtype;
  data : list C
}.

(** Modelled from the spec: the field container is external ("Field:
    tensor-valued sample array over a Grid; a flat view (one axis per
    tensor rank plus one flattened spatial axis) and a shaped view (tensor
    ranks plus one axis per spatial dimension)").  [arr] is the flat
    view. *)
Record Field (C : Type) : Type := {
  arr : ndarray C;
  grid : Grid
}.

(** A Python value that reaches an operator: a field, or a tuple. *)
#[warnings="-register-all"]
Inductive PyVal (C : Type) : Type :=
| VField (f : Field C)
| VTuple (l : list (PyVal C)).

Arguments VField {C} f.
Arguments VTuple {C} l.

(** The numbers and the functions of other modules that the operators
    call: complex arithmetic, numpy's element conversion, the FFT module,
    and the parts of hcipy that are not among the files embedded here. *)
Class Env : Type := {
  C : Type;
  C0 : C;
  Cadd : C -> C -> C;
  Cmul : C -> C -> C;
  Cconj : C -> C;
  (** conversion of one element to a dtype ([ndarray.astype]) *)
  cast : Dtype -> C -> C;
  (** [exp(1j * t)] for a real [t] *)
  expi : Q -> C;
  np_tan : Q -> Q;
  np_sin : Q -> Q;
  (** Rounding to the nearest double: an arithmetic operation on doubles
      returns the rounded exact result.  Rounding is monotone and keeps
      zero; values beyond the range of doubles are not modelled. *)
  fround : Q -> Q;
  fround_monotone : forall a b : Q, a <= b -> fround a <= fround b;
  fround_0 : fround 0 == 0;
  (** [_fft_module.fftn(a, axes)] and [_fft_module.ifftn(a, axes)] *)
  fftn : list Z -> ndarray C -> ndarray C;
  ifftn : list Z -> ndarray C -> ndarray C;
  (** [make_fft_grid(input_grid, q, fov)] *)
  make_fft_grid : Grid -> Q -> Q -> Result Grid;
  (** [_numexpr_grid_shift(shift, grid)] *)
  _numexpr_grid_shift : list Q -> Grid -> ndarray C;
  (** [FastFourierTransform(input_grid, q)]: its [output_grid] and its
      [cutout_input] ([None] when there is no padding) *)
  FastFourierTransform : Grid -> Q -> Grid * option (list slice);
  (** The values of the two transfer functions that
      [AngularSpectrumPropagator.make_instance] defines, from the
      wavelength, the refractive index, the distance, [num_oversampling]
      and the Fourier grid: the transformed, supersampled impulse response
      (lines 53-66), with the calls into the FFT module that
      [fft_upscale.forward] makes to transform it, and the supersampled
      [exp(1j * k_z * distance)] (lines 68-75), which is computed without
      a transform. *)
  impulse_response_transfer_function :
    Q -> Q -> Q -> nat -> Grid -> Field C * list FFTCall;
  native_transfer_function : Q -> Q -> Q -> nat -> Grid -> Field C
}.

Module np.
Section Arrays.
Context {env : Env}.

Definition array_ndim (a : ndarray C) : nat := length (shape a).

Definition reshape (a : ndarray C) (s : list nat) : ndarray C :=
  {| shape := s; dtype := dtype a; data := data a |}.

(** [a.astype(d, copy=False)] *)
Definition astype (d : Dtype) (a : ndarray C) : ndarray C :=
  if dtype_eqb (dtype a) d then a
  else {| shape := shape a; dtype := d; data := map (cast d) (data a) |}.

Definition zeros (s : list nat) (d : Dtype) : ndarray C :=
  {| shape := s; dtype := d; data := repeat C0 (shape_size s) |}.

(** [a[:] = 0] *)
Definition fill_zero (a : ndarray C) : ndarray C :=
  {| shape := shape a; dtype := dtype a; data := map (fun _ => C0) (data a) |}.

Definition conj (a : ndarray C) : ndarray C :=
  {| shape := shape a; dtype := dtype a; data := map Cconj (data a) |}.

(** The part of [a] that the slices [c] select. *)
Definition region (a : ndarray C) (c : list slice) : ndarray C :=
  {| shape := region_shape (shape a) c;
     dtype := dtype a;
     data := map (fun i => nth i (data a) C0) (region_indices (shape a) c) |}.

(** [a[c]]: an index of more slices than [a] has axes raises. *)
Definition getitem (a : ndarray C) (c : list slice) : Result (ndarray C) :=
  if (length (shape a) <? length c)%nat then Raise IndexError
  else Ok (region a c).

(** The elements of [v] broadcast to shape [tgt]. *)
Definition broadcast_data (v : ndarray C) (tgt : list nat) : list C :=
  map (fun k => nth (broadcast_pos (shape v) tgt k) (data v) C0)
      (seq 0 (shape_size tgt)).

(** [a[c] = v]: an index of more slices than [a] has axes raises;
    [v], without the leading axes of length 1 that it has beyond those of
    [a[c]], is broadcast to the shape of [a[c]] and converted to the dtype
    of [a]; shapes that do not broadcast raise. *)
Definition setitem (a : ndarray C) (c : list slice) (v : ndarray C)
  : Result (ndarray C) :=
  if (length (shape a) <? length c)%nat then Raise IndexError
  else
    let tgt := region_shape (shape a) c in
    let src := strip_leading_ones (length (shape v) - length tgt) (shape v) in
    if broadcastable src tgt then
      let vals := broadcast_data (reshape v src) tgt in
      let vals := if dtype_eqb (dtype v) (dtype a) then vals
                  else map (cast (dtype a)) vals in
      Ok {| shape := shape a; dtype := dtype a;
            data := scatter (data a) (region_indices (shape a) c) vals |}
    else Raise ValueError.

(** [f *= g] *)
Definition imul (f g : ndarray C) : Result (ndarray C) :=
  if broadcastable (shape g) (shape f) then
    Ok {| shape := shape f; dtype := dtype f;
          data := map (fun p => Cmul (fst p) (snd p))
                      (combine (data f) (broadcast_data g (shape f))) |}
  else Raise ValueError.

Definition ifftshift_index (axes : list Z) (s idx : list nat) : list nat :=
  let ax := map (normalize_axis (length s)) axes in
  map (fun p =>
         let '(j, (n, i)) := p in
         if existsb (Z.eqb (Z.of_nat j)) ax then ((i + n / 2) mod n)%nat else i)
      (combine (seq 0 (length s)) (combine s idx)).

(** [np.fft.ifftshift(a, axes)]: element [i] of the result along a
    shifted axis of length [n] is element [(i + n // 2) % n] of [a]. *)
Definition ifftshift (axes : list Z) (a : ndarray C) : ndarray C :=
  {| shape := shape a; dtype := dtype a;
     data := map (fun k => nth (ravel (shape a)
                                  (ifftshift_index axes (shape a) (unravel (shape a) k)))
                               (data a) C0)
                 (seq 0 (shape_size (shape a))) |}.

Definition call_fftn (a : ndarray C) (axes : list Z) : Py (ndarray C) :=
  (Ok (fftn axes a), [Call_fftn axes (shape a)]).

Definition call_ifftn (a : ndarray C) (axes : list Z) : Py (ndarray C) :=
  (Ok (ifftn axes a), [Call_ifftn axes (shape a)]).

Definition lift {A} (r : Result A) : Py A := (r, []).

(** [np.flatnonzero(x)] *)
Definition flatnonzero (x : list Q) : list nat :=
  map fst (filter (fun p => negb (Qeq_bool (snd p) 0))
                  (combine (seq 0 (length x)) x)).

(** [x[mask]] for a boolean mask of the length of [x]. *)
Definition mask_select {A} (x : list A) (mask : list bool) : Result (list A) :=
  if (length x =? length mask)%nat
  then Ok (map fst (filter snd (combine x mask)))
  else Raise IndexError.

End Arrays.
End np.

(** Modelled from the spec: the attributes of the external field
    container, from its flat view: the tensor axes come first and the
    samples last, and the shaped view has one axis per grid axis in place
    of the last one. *)

Section Fields.
Context {env : Env}.

Definition tensor_order (f : Field C) : nat := (np.array_ndim (arr f) - 1)%nat.

Definition tensor_shape (f : Field C) : list nat := removelast (shape (arr f)).

Definition field_dtype (f : Field C) : Dtype := dtype (arr f).

Definition shaped (f : Field C) : ndarray C :=
  np.reshape (arr f) (tensor_shape f ++ grid_shape (grid f)).

(** [field.astype(d)] *)
Definition field_astype (d : Dtype) (f : Field C) : Field C :=
  {| arr := if dtype_eqb (field_dtype f) d then arr f
            else {| shape := shape (arr f); dtype := d;
                    data := map (cast d) (data (arr f)) |};
     grid := grid f |}.

(** Reading a field attribute of a Python value; a tuple has none. *)
Definition as_field (v : PyVal C) : Result (Field C) :=
  match v with
  | VField f => Ok f
  | VTuple _ => Raise AttributeError
  end.

(** [grid.zeros(tensor_shape, dtype)] *)
Definition grid_zeros (g : Grid) (ts : list nat) (d : Dtype) : Field C :=
  {| arr := np.zeros (ts ++ [grid_size g]) d; grid := g |}.

End Fields.

(** [a.reshape(prefix + (-1,))]: the last axis takes what remains. *)
Definition reshape_m1 {env : Env} (a : ndarray C) (prefix : list nat)
  : Result (ndarray C) :=
  if (shape_size prefix =? 0)%nat then Raise ValueError
  else Ok (np.reshape a (prefix ++ [(shape_size (shape a) / shape_size prefix)%nat])).

(** ** FourierShift *)

Module FourierShift.
Section Def.
Context {env : Env}.
Local Open Scope py_scope.

Record t : Type := {
  input_grid : Grid;
  output_grid : Grid;
  _shift : list Q;
  _ft_axes : list Z;
  _shift_filter : option (ndarray C)
}.

(** [shift_filter[broadcasting_slice]]: a [slice(None)] keeps the next
    axis of the filter, an [np.newaxis] inserts an axis of length 1. *)
Fixpoint broadcasting_shape (bslice : list bool) (s : list nat) : list nat :=
  match bslice with
  | [] => s
  | true :: b' =>
      match s with
      | n :: s' => n :: broadcasting_shape b' s'
      | [] => broadcasting_shape b' []
      end
  | false :: b' => 1%nat :: broadcasting_shape b' s
  end.

(** The setter of the [shift] property. *)
Definition set_shift (self : t) (shift : list Q) : Py t :=
  (* Find out which axes to Fourier transform. *)
  let mask := map (fun x => negb (Qeq_bool x 0)) shift in
  let ft_axes := map (fun i => (Z.of_nat i - 1)%Z) (np.flatnonzero shift) in
  match ft_axes with
  | [] =>
      (* All shifts are zero. We can exit out early. *)
      ret {| input_grid := input_grid self; output_grid := output_grid self;
             _shift := shift; _ft_axes := ft_axes; _shift_filter := None |}
  | _ :: _ =>
      let broadcasting_slice := rev mask in
      (* Compute the Fourier transform grid for these axes. *)
      fft_grid <- np.lift (make_fft_grid (input_grid self) 1 1) ;;
      d <- np.lift (np.mask_select (delta fft_grid) mask) ;;
      n <- np.lift (np.mask_select (dims fft_grid) mask) ;;
      z <- np.lift (np.mask_select (zero fft_grid) mask) ;;
      let fft_grid := {| ndim := length n; dims := n; delta := d; zero := z;
                         is_regular := true; is_cartesian := true |} in
      (* Compute the shift filter on this grid and broadcast to the
         original field shape. *)
      let shift_filter :=
        np.reshape (_numexpr_grid_shift (map Qopp shift) fft_grid)
                   (grid_shape fft_grid) in
      let shift_filter :=
        np.ifftshift (last_axes (np.array_ndim shift_filter)) shift_filter in
      let shift_filter :=
        np.reshape shift_filter
                   (broadcasting_shape broadcasting_slice (shape shift_filter)) in
      ret {| input_grid := input_grid self; output_grid := output_grid self;
             _shift := shift; _ft_axes := ft_axes;
             _shift_filter := Some shift_filter |}
  end.

Definition __init__ (input_grid : Grid) (shift : list Q) : Py t :=
  set_shift {| input_grid := input_grid; output_grid := input_grid;
               _shift := []; _ft_axes := []; _shift_filter := None |} shift.

Definition _operation (self : t) (field : Field C) (adjoint : bool)
  : Py (Field C) :=
  match _shift_filter self with
  | None => ret (field_astype complex128 field)
  | Some shift_filter =>
      (* Never overwrite the input, so don't use kwargs here. *)
      f <- np.call_fftn (shaped field) (_ft_axes self) ;;
      f <- np.lift (np.imul f (if adjoint then np.conj shift_filter
                               else shift_filter)) ;;
      f <- np.call_ifftn f (_ft_axes self) ;;
      let s := drop_last (ndim (grid field)) (shape f) in
      res <- np.lift (reshape_m1 f s) ;;
      ret {| arr := res; grid := grid field |}
  end.

Definition forward (self : t) (field : Field C) : Py (Field C) :=
  _operation self field false.

Definition backward (self : t) (field : Field C) : Py (Field C) :=
  _operation self field true.

End Def.
End FourierShift.

(** ** FourierShear *)

(** [np.fft.ifftshift] of a one-dimensional coordinate array. *)
Definition ifftshift_coords (x : list Q) : list Q :=
  let n := length x in
  map (fun i => nth ((i + n / 2) mod n)%nat x 0%Q) (seq 0 n).

Module FourierShear.
Section Def.
Context {env : Env}.
Local Open Scope py_scope.

Record t : Type := {
  _input_grid : Grid;
  _shear_dim : nat;
  _filter : option (ndarray C);
  _shear : Q
}.

Definition input_grid (self : t) : Grid := _input_grid self.

Definition shear_dim (self : t) : nat := _shear_dim self.

Definition fourier_dim (self : t) : nat :=
  if (shear_dim self =? 0)%nat then 1%nat else 0%nat.

Definition coords_of (g : Grid) (i : nat) : Py (list Q) :=
  match separated_coords g i with
  | Some x => ret x
  | None => raise IndexError
  end.

(** [np.exp(-1j * shear * np.outer(y, fx))] *)
Definition outer_filter (shear : Q) (y fx : list Q) : ndarray C :=
  {| shape := [length y; length fx];
     dtype := complex128;
     data := flat_map (fun yi => map (fun fj => expi (- (shear * (yi * fj)))%Q) fx) y |}.

(** [a.T] of a two-dimensional array, laid out contiguously. *)
Definition transpose2 (a : ndarray C) : ndarray C :=
  match shape a with
  | [r; c] =>
      {| shape := [c; r]; dtype := dtype a;
         data := flat_map (fun j => map (fun i => nth (i * c + j)%nat (data a) C0)
                                        (seq 0 r))
                          (seq 0 c) |}
  | _ => a
  end.

(** The setter of the [shear] property. *)
Definition set_shear (self : t) (shear : Q) : Py t :=
  fft_grid <- np.lift (make_fft_grid (input_grid self) 1 1) ;;
  fx <- coords_of fft_grid (shear_dim self) ;;
  let fx := ifftshift_coords fx in
  y <- coords_of (input_grid self) (fourier_dim self) ;;
  let filter := outer_filter shear y fx in
  let filter := if (shear_dim self =? 1)%nat then transpose2 filter else filter in
  ret {| _input_grid := _input_grid self; _shear_dim := _shear_dim self;
         _filter := Some filter; _shear := shear |}.

Definition __init__ (input_grid : Grid) (shear : Q) (shear_dim : nat) : Py t :=
  if negb (is_regular input_grid) || negb (ndim input_grid =? 2)%nat then
    raise ValueError
  else
    set_shear {| _input_grid := input_grid; _shear_dim := shear_dim;
                 _filter := None; _shear := 0 |} shear.

Definition _operation (self : t) (field : PyVal C) (adjoint : bool)
  : Py (PyVal C) :=
  let axis := (- Z.of_nat (shear_dim self) - 1)%Z in
  (* [field.shaped]; [fft(a, axis=k)] is [fftn(a, axes=(k,))] *)
  fld <- np.lift (as_field field) ;;
  f <- np.call_fftn (shaped fld) [axis] ;;
  filter <- match _filter self with
            | Some x => ret x
            | None => raise AttributeError
            end ;;
  f <- np.lift (np.imul f (if adjoint then np.conj filter else filter)) ;;
  f <- np.call_ifftn f [axis] ;;
  let s := drop_last (ndim (grid fld)) (shape f) in
  res <- np.lift (reshape_m1 f s) ;;
  ret (VField {| arr := res; grid := grid fld |}).

Definition forward (self : t) (field : PyVal C) : Py (PyVal C) :=
  _operation self field false.

Definition backward (self : t) (field : PyVal C) : Py (PyVal C) :=
  _operation self field true.

End Def.
End FourierShear.

(** ** FourierRotation *)

Module FourierRotation.
Section Def.
Context {env : Env}.
Local Open Scope py_scope.

Record t : Type := {
  _input_grid : Grid;
  _shear_x : FourierShear.t;
  _shear_y : FourierShear.t;
  _angle : Q
}.

(** The setter of the [angle] property. *)
Definition set_angle (self : t) (angle : Q) : Py t :=
  sx <- FourierShear.set_shear (_shear_x self) (np_tan (angle / 2)) ;;
  sy <- FourierShear.set_shear (_shear_y self) (- np_sin angle)%Q ;;
  ret {| _input_grid := _input_grid self; _shear_x := sx; _shear_y := sy;
         _angle := angle |}.

Definition __init__ (input_grid : Grid) (angle : Q) : Py t :=
  if negb (is_regular input_grid) || negb (ndim input_grid =? 2)%nat then
    raise ValueError
  else
    sx <- FourierShear.__init__ input_grid 0 0 ;;
    sy <- FourierShear.__init__ input_grid 0 1 ;;
    set_angle {| _input_grid := input_grid; _shear_x := sx; _shear_y := sy;
                 _angle := 0 |} angle.

Definition _operation (self : t) (field : PyVal C) (adjoint : bool)
  : Py (PyVal C) :=
  f1 <- FourierShear._operation (_shear_x self) field adjoint ;;
  f2 <- FourierShear._operation (_shear_y self) f1 adjoint ;;
  f3 <- FourierShear._operation (_shear_x self) f2 adjoint ;;
  ret (VTuple [f1; f2; f3]).

Definition forward (self : t) (field : PyVal C) : Py (PyVal C) :=
  _operation self field false.

Definition backward (self : t) (field : PyVal C) : Py (PyVal C) :=
  _operation self field true.

End Def.
End FourierRotation.

(** ** Tensor fields: per-sample matrix products

    Modelled from the spec: [field_dot] and [field_conjugate_transpose]
    belong to the external field module ("perform, per frequency sample, a
    matrix-vector product, using the conjugate transpose of the matrix when
    adjoint is set").  A matrix field of tensor shape [(m, n)] over [N]
    samples stores entry [(i, j)] of sample [x] at [(i * n + j) * N + x]. *)

Section TensorFields.
Context {env : Env}.

Definition Csum (l : list C) : C := fold_right Cadd C0 l.

Definition field_conjugate_transpose (a : Field C) : Result (Field C) :=
  match shape (arr a) with
  | [m; n; N] =>
      Ok {| arr := {| shape := [n; m; N]; dtype := dtype (arr a);
                      data := flat_map (fun j =>
                                flat_map (fun i =>
                                  map (fun x => Cconj (nth ((i * n + j) * N + x)%nat
                                                           (data (arr a)) C0))
                                      (seq 0 N))
                                  (seq 0 m))
                                (seq 0 n) |};
            grid := grid a |}
  | _ => Raise ValueError
  end.

(** [field_dot(a, b)] for a matrix field [a] of tensor shape [(m, n)] and
    a field [b] whose first tensor axis has length [n]. *)
Definition field_dot (a b : Field C) : Result (Field C) :=
  match shape (arr a), shape (arr b) with
  | [m; n; N], n' :: rest =>
      let R := shape_size (removelast rest) in
      if (n =? n')%nat && negb (length rest =? 0)%nat && (last rest 0 =? N)%nat then
        Ok {| arr := {| shape := m :: rest; dtype := dtype (arr b);
                        data := flat_map (fun i =>
                                  flat_map (fun r =>
                                    map (fun x =>
                                      Csum (map (fun j =>
                                        Cmul (nth ((i * n + j) * N + x)%nat (data (arr a)) C0)
                                             (nth ((j * R + r) * N + x)%nat (data (arr b)) C0))
                                        (seq 0 n)))
                                      (seq 0 N))
                                    (seq 0 R))
                                  (seq 0 m) |};
              grid := grid b |}
      else Raise ValueError
  | _, _ => Raise ValueError
  end.

End TensorFields.

(** ** FourierFilter *)

Module FourierFilter.
Section Def.
Context {env : Env}.
Local Open Scope py_scope.

(** The [transfer_function] argument: a Field generator or a Field.  A
    generator is a callable: called with a grid it returns a field, and it
    may call into the FFT module to compute it. *)
Inductive transfer_fn : Type :=
| Generator (g : Grid -> Field C * list FFTCall)
| Given (tf : Field C).

Record t : Type := {
  input_grid : Grid;
  internal_grid : Grid;
  cutout : option (list slice);
  shape_in : list nat;
  transfer_function : transfer_fn;
  _transfer_function : option (ndarray C);
  internal_array : option (ndarray C)
}.

Definition __init__ (input_grid : Grid) (transfer_function : transfer_fn) (q : Q) : t :=
  let fft := FastFourierTransform input_grid q in
  {| input_grid := input_grid;
     internal_grid := fst fft;
     cutout := snd fft;
     shape_in := grid_shape input_grid;
     transfer_function := transfer_function;
     _transfer_function := None;
     internal_array := None |}.

(** Assignment to the attribute [transfer_function]; the class defines
    no property for it. *)
Definition set_transfer_function (self : t) (transfer_function : transfer_fn) : t :=
  {| input_grid := input_grid self;
     internal_grid := internal_grid self;
     cutout := cutout self;
     shape_in := shape_in self;
     transfer_function := transfer_function;
     _transfer_function := _transfer_function self;
     internal_array := internal_array self |}.

(** The test of line 47: the cached transfer function is absent or of
    another dtype than the field. *)
Definition recompute_transfer_function (self : t) (field : Field C) : bool :=
  match _transfer_function self with
  | None => true
  | Some tf => negb (dtype_eqb (dtype tf) (field_dtype field))
  end.

(** The calls into the FFT module during [_compute_functions]: those of
    the generator, when line 49 calls it. *)
Definition _compute_functions_calls (self : t) (field : Field C) : list FFTCall :=
  if recompute_transfer_function self field then
    match transfer_function self with
    | Generator g => snd (g (internal_grid self))
    | Given _ => []
    end
  else [].

(** The value of [recompute_internal_array] after lines 56-59. *)
Definition recompute_internal_array (self : t) (field : Field C) : bool :=
  match internal_array self with
  | None => true
  | Some a =>
      negb (np.array_ndim a =? ndim (grid field) + tensor_order field)%nat
      || negb (dtype_eqb (dtype a) (field_dtype field))
      || natlist_eqb (firstn (tensor_order field) (shape a)) (tensor_shape field)
  end.

Definition _compute_functions (self : t) (field : Field C) : t :=
  let tf' :=
    if recompute_transfer_function self field then
      let tf := match transfer_function self with
                | Generator g => fst (g (internal_grid self))
                | Given tf => tf
                end in
      let tf := np.ifftshift (last_axes (ndim (input_grid self))) (shaped tf) in
      Some (np.astype (field_dtype field) tf)
    else _transfer_function self in
  let ia' :=
    if recompute_internal_array self field then
      Some (shaped (grid_zeros (internal_grid self) (tensor_shape field)
                               (field_dtype field)))
    else internal_array self in
  {| input_grid := input_grid self;
     internal_grid := internal_grid self;
     cutout := cutout self;
     shape_in := shape_in self;
     transfer_function := transfer_function self;
     _transfer_function := tf';
     internal_array := ia' |}.

Definition with_internal_array (self : t) (a : ndarray C) : t :=
  {| input_grid := input_grid self;
     internal_grid := internal_grid self;
     cutout := cutout self;
     shape_in := shape_in self;
     transfer_function := transfer_function self;
     _transfer_function := _transfer_function self;
     internal_array := Some a |}.

Definition attr {A} (o : option A) : Py A :=
  match o with
  | Some x => ret x
  | None => raise AttributeError
  end.

(** The product with the transfer function, lines 126-145. *)
Definition apply_transfer_function (self : t) (tf f : ndarray C) (adjoint : bool)
  : Py (ndarray C) :=
  let n := ndim (internal_grid self) in
  if (Z.of_nat (np.array_ndim tf) - Z.of_nat n =? 2)%Z then
    (* The transfer function is a matrix field. *)
    let s1 := drop_last n (shape f) ++ [grid_size (internal_grid self)] in
    let ff := {| arr := np.reshape f s1; grid := internal_grid self |} in
    let s2 := drop_last n (shape tf) ++ [grid_size (internal_grid self)] in
    let tff := {| arr := np.reshape tf s2; grid := internal_grid self |} in
    tff <- (if adjoint then np.lift (field_conjugate_transpose tff) else ret tff) ;;
    r <- np.lift (field_dot tff ff) ;;
    ret (shaped r)
  else
    (* The transfer function is a scalar field. *)
    np.lift (np.imul f (if adjoint then np.conj tf else tf)).

Definition _operation (self : t) (field : Field C) (adjoint : bool)
  : Py (Field C * t) :=
  _ <- (Ok tt, _compute_functions_calls self field) ;;
  let self := _compute_functions self field in
  let axes := last_axes (ndim (input_grid self)) in
  ' (f, c, self) <-
    match cutout self with
    | None => ret (shaped field, [], self)
    | Some co =>
        f <- attr (internal_array self) ;;
        let f := np.fill_zero f in
        let c := repeat SliceAll (tensor_order field) ++ co in
        f <- np.lift (np.setitem f c (shaped field)) ;;
        ret (f, c, with_internal_array self f)
    end ;;
  f <- np.call_fftn f axes ;;
  tf <- attr (_transfer_function self) ;;
  f <- apply_transfer_function self tf f adjoint ;;
  f <- np.call_ifftn f axes ;;
  let s := drop_last (ndim (internal_grid self)) (shape f) in
  res <- match cutout self with
         | None => np.lift (reshape_m1 f s)
         | Some _ => g <- np.lift (np.getitem f c) ;; np.lift (reshape_m1 g s)
         end ;;
  ret ({| arr := res; grid := input_grid self |}, self).

Definition forward (self : t) (field : Field C) : Py (Field C * t) :=
  _operation self field false.

Definition backward (self : t) (field : Field C) : Py (Field C * t) :=
  _operation self field true.

End Def.
End FourierFilter.

(** ** AngularSpectrumPropagator *)

(** Modelled from the spec: the wavefront is external ("Wavefront:
    [electric_field] (a Field), [wavelength], [input_stokes_vector]"). *)
Record Wavefront (C : Type) : Type := {
  electric_field : Field C;
  wavelength : Q;
  input_stokes_vector : option (list Q)
}.

Definition Qltb (x y : Q) : bool := negb (Qle_bool y x).

(** [x < num / den] as numpy evaluates it on doubles: the quotient is
    rounded; a zero denominator gives an infinity of the sign of [num], or
    nan, and no exception. *)
Definition lt_quotient {env : Env} (x num den : Q) : bool :=
  if Qeq_bool den 0 then Qltb 0 num else Qltb x (fround (num / den)).

Definition Qmaxb (a b : Q) : Q := if Qle_bool a b then b else a.

(** [np.max(x)]; an empty array has no maximum. *)
Definition np_max (x : list Q) : Result Q :=
  match x with
  | [] => Raise ValueError
  | a :: x' => Ok (fold_left Qmaxb x' a)
  end.

Module AngularSpectrumPropagator.
Section Def.
Context {env : Env}.
Local Open Scope py_scope.

(** A parameter of an agnostic optical element: a value, or a function
    of the wavelength. *)
Inductive parameter : Type :=
| Constant (v : Q)
| OfWavelength (f : Q -> Q).

(** The two functions named [transfer_function] that [make_instance]
    defines, with the variables they capture. *)
Inductive closure : Type :=
| transfer_function_impulse_response
    (wavelength refractive_index distance : Q) (num_oversampling : nat)
| transfer_function_native
    (wavelength refractive_index distance : Q) (num_oversampling : nat).

(** A call of one of them: the field it returns and the calls into the
    FFT module that it makes. *)
Definition call (f : closure) (fourier_grid : Grid) : Field C * list FFTCall :=
  match f with
  | transfer_function_impulse_response w n d os =>
      impulse_response_transfer_function w n d os fourier_grid
  | transfer_function_native w n d os =>
      (native_transfer_function w n d os fourier_grid, [])
  end.

Record instance_data : Type := {
  fourier_filter : FourierFilter.t
}.

(** Modelled from the spec: [AgnosticOpticalElement] is external ("the
    operator maintains a set of cached instances keyed by
    [(input_grid, wavelength)]"); [instances] is that cache. *)
Record t : Type := {
  _distance : Q;
  _num_oversampling : nat;
  _refractive_index : parameter;
  instances : list ((Grid * Q) * instance_data)
}.

Definition distance (self : t) : Q := _distance self.
Definition num_oversampling (self : t) : nat := _num_oversampling self.
Definition refractive_index (self : t) : parameter := _refractive_index self.

Definition __init__ (input_grid : Grid) (distance : Q) (num_oversampling : nat)
           (refractive_index : parameter) : t :=
  {| _distance := distance;
     _num_oversampling := num_oversampling;
     _refractive_index := refractive_index;
     instances := [] |}.

Definition evaluate_parameter (p : parameter) (input_grid output_grid : Grid)
           (wavelength : Q) : Q :=
  match p with
  | Constant v => v
  | OfWavelength f => f wavelength
  end.

(** [np.max(input_grid.dims * input_grid.delta)]; the products are
    rounded. *)
Definition L_max (input_grid : Grid) : Result Q :=
  np_max (map (fun p => fround (inject_Z (Z.of_nat (fst p)) * snd p)%Q)
              (combine (dims input_grid) (delta input_grid))).

(** The test of line 52:
    [np.any(input_grid.delta < wavelength * self.distance / L_max)]; the
    product and the quotient are rounded. *)
Definition uses_impulse_response (self : t) (input_grid : Grid) (wavelength L : Q)
  : bool :=
  existsb (fun d => lt_quotient d (fround (wavelength * distance self)) L)
          (delta input_grid).

(** Lines 46-75 of [make_instance]: the transfer function handed to the
    filter. *)
Definition select_transfer_function (self : t) (input_grid output_grid : Grid)
           (wavelength : Q) : Result closure :=
  if negb (is_regular input_grid) || negb (is_cartesian input_grid) then
    Raise ValueError
  else if Qeq_bool wavelength 0 then
    (* line 49: [2 * np.pi / wavelength] *)
    Raise ZeroDivisionError
  else
    let n := evaluate_parameter (refractive_index self) input_grid output_grid
                                wavelength in
    match L_max input_grid with
    | Raise e => Raise e
    | Ok L =>
        if uses_impulse_response self input_grid wavelength L then
          Ok (transfer_function_impulse_response
                wavelength n (distance self) (num_oversampling self))
        else
          Ok (transfer_function_native
                wavelength n (distance self) (num_oversampling self))
    end.

Definition make_instance (self : t) (input_grid output_grid : Grid) (wavelength : Q)
  : Result instance_data :=
  match select_transfer_function self input_grid output_grid wavelength with
  | Raise e => Raise e
  | Ok transfer_function =>
      Ok {| fourier_filter :=
              FourierFilter.__init__ input_grid
                (FourierFilter.Generator (call transfer_function)) 2 |}
  end.

Definition clear_cache (self : t) : t :=
  {| _distance := _distance self;
     _num_oversampling := _num_oversampling self;
     _refractive_index := _refractive_index self;
     instances := [] |}.

Definition set_distance (self : t) (distance : Q) : t :=
  clear_cache {| _distance := distance;
                 _num_oversampling := _num_oversampling self;
                 _refractive_index := _refractive_index self;
                 instances := instances self |}.

Definition set_num_oversampling (self : t) (num_oversampling : nat) : t :=
  clear_cache {| _distance := _distance self;
                 _num_oversampling := num_oversampling;
                 _refractive_index := _refractive_index self;
                 instances := instances self |}.

Definition set_refractive_index (self : t) (refractive_index : parameter) : t :=
  clear_cache {| _distance := _distance self;
                 _num_oversampling := _num_oversampling self;
                 _refractive_index := refractive_index;
                 instances := instances self |}.

Definition get_input_grid (self : t) (output_grid : Grid) (wavelength : Q) : Grid :=
  output_grid.

Definition get_output_grid (self : t) (input_grid : Grid) (wavelength : Q) : Grid :=
  input_grid.

Definition key_eqb (a b : Grid * Q) : bool :=
  grid_eqb (fst a) (fst b) && Qeq_bool (snd a) (snd b).

Fixpoint lookup (key : Grid * Q) (l : list ((Grid * Q) * instance_data))
  : option instance_data :=
  match l with
  | [] => None
  | (k, v) :: l' => if key_eqb key k then Some v else lookup key l'
  end.

Fixpoint store (key : Grid * Q) (v : instance_data)
         (l : list ((Grid * Q) * instance_data))
  : list ((Grid * Q) * instance_data) :=
  match l with
  | [] => [(key, v)]
  | (k, w) :: l' => if key_eqb key k then (k, v) :: l' else (k, w) :: store key v l'
  end.

(** Modelled from the spec: the instance for the grid and wavelength of
    a wavefront is the cached one, or a new one built by
    [make_instance] and added to the cache. *)
Definition get_instance_data (self : t) (input_grid : Grid) (wavelength : Q)
  : Result (instance_data * t) :=
  match lookup (input_grid, wavelength) (instances self) with
  | Some d => Ok (d, self)
  | None =>
      match make_instance self input_grid
                          (get_output_grid self input_grid wavelength) wavelength with
      | Raise e => Raise e
      | Ok d =>
          Ok (d, {| _distance := _distance self;
                    _num_oversampling := _num_oversampling self;
                    _refractive_index := _refractive_index self;
                    instances := store (input_grid, wavelength) d (instances self) |})
      end
  end.

(** The filter of a cached instance is one object: what a call changes
    in it stays in the cache. *)
Definition update_instance (self : t) (key : Grid * Q) (ff : FourierFilter.t) : t :=
  {| _distance := _distance self;
     _num_oversampling := _num_oversampling self;
     _refractive_index := _refractive_index self;
     instances := store key {| fourier_filter := ff |} (instances self) |}.

(** Modelled from the spec: the decorators [make_agnostic_forward] and
    [make_agnostic_backward] are external; they pass the instance for
    the wavefront's grid and wavelength to the decorated method. *)
Definition make_agnostic
           (method : instance_data -> Wavefront C -> Py (Wavefront C * FourierFilter.t))
           (self : t) (wavefront : Wavefront C) : Py (Wavefront C * t) :=
  let key := (grid (electric_field wavefront), wavelength wavefront) in
  ' (instance, self) <- np.lift (get_instance_data self (fst key) (snd key)) ;;
  ' (res, ff) <- method instance wavefront ;;
  ret (res, update_instance self key ff).

Definition forward_method (instance : instance_data) (wavefront : Wavefront C)
  : Py (Wavefront C * FourierFilter.t) :=
  ' (filtered, ff) <-
    FourierFilter.forward (fourier_filter instance) (electric_field wavefront) ;;
  ret ({| electric_field := filtered;
          wavelength := wavelength wavefront;
          input_stokes_vector := input_stokes_vector wavefront |}, ff).

Definition backward_method (instance : instance_data) (wavefront : Wavefront C)
  : Py (Wavefront C * FourierFilter.t) :=
  ' (filtered, ff) <-
    FourierFilter.backward (fourier_filter instance) (electric_field wavefront) ;;
  ret ({| electric_field := filtered;
          wavelength := wavelength wavefront;
          input_stokes_vector := input_stokes_vector wavefront |}, ff).

Definition forward : t -> Wavefront C -> Py (Wavefront C * t) :=
  make_agnostic forward_method.

Definition backward : t -> Wavefront C -> Py (Wavefront C * t) :=
  make_agnostic backward_method.

End Def.
End AngularSpectrumPropagator.

(** ** A reference environment

    Exact complex arithmetic on Gaussian rationals, with the discrete
    Fourier transform along axes of length 1, 2 and 4 (whose roots of
    unity are Gaussian rationals; axes of another length are left as they
    are).  The values of the transcendental functions are the exact ones
    at the argument 0, where the examples that state samples use them:
    [exp(1j * 0) = 1], [tan 0 = 0], [sin 0 = 0], a shift filter for the
    shift 0 and a transfer function of a propagation over the distance 0
    are the constant 1.  The examples with a shift that is not zero state
    the calls into the FFT module only.  Rounding is the identity: the
    examples on this environment use numbers whose products and quotients
    are doubles. *)

Module Ref.

Definition G : Type := (Qc * Qc)%type.

Definition G0 : G := (Q2Qc 0, Q2Qc 0).
Definition G1 : G := (Q2Qc 1, Q2Qc 0).
Definition Gi : G := (Q2Qc 0, Q2Qc 1).

Definition Gadd (x y : G) : G := (fst x + fst y, snd x + snd y)%Qc.

Definition Gmul (x y : G) : G :=
  (fst x * fst y - snd x * snd y, fst x * snd y + snd x * fst y)%Qc.

Definition Gconj (x : G) : G := (fst x, - snd x)%Qc.

Definition Gscale (r : Qc) (x : G) : G := (r * fst x, r * snd x)%Qc.

(** A real number, and a complex number from its two parts. *)
Definition re (q : Q) : G := (Q2Qc q, Q2Qc 0).
Definition cplx (a b : Q) : G := (Q2Qc a, Q2Qc b).

Definition Gcast (d : Dtype) (x : G) : G :=
  match d with
  | float32 | float64 => (fst x, Q2Qc 0)
  | complex64 | complex128 => x
  end.

Fixpoint Gpow (w : G) (e : nat) : G :=
  match e with
  | O => G1
  | S e' => Gmul w (Gpow w e')
  end.

Definition Gsum (l : list G) : G := fold_right Gadd G0 l.

(** [exp(-2j * pi / n)] *)
Definition root_of_unity (n : nat) : option G :=
  match n with
  | 1%nat => Some G1
  | 2%nat => Some (re (-1))
  | 4%nat => Some (cplx 0 (-1))
  | _ => None
  end.

(** The transform along axis [j]: entry [k] of the result is the sum
    over [m] of entry [m] times [w ^ (k * m)], divided by the length for
    the inverse transform, whose [w] is the conjugate root. *)
Definition dft_axis (inverse : bool) (j : nat) (a : ndarray G) : ndarray G :=
  let s := shape a in
  let n := nth j s 1%nat in
  match root_of_unity n with
  | None => a
  | Some w =>
      let w := if inverse then Gconj w else w in
      {| shape := s;
         dtype := complex128;
         data := map (fun k =>
                        let idx := unravel s k in
                        let kj := nth j idx 0%nat in
                        let total :=
                          Gsum (map (fun m =>
                                       Gmul (nth (ravel s (list_set idx j m)) (data a) G0)
                                            (Gpow w (kj * m)))
                                    (seq 0 n)) in
                        if inverse
                        then Gscale (Q2Qc (1 # Pos.of_nat n)) total
                        else total)
                     (seq 0 (shape_size s)) |}
  end.

Definition dftn (inverse : bool) (axes : list Z) (a : ndarray G) : ndarray G :=
  fold_left (fun acc ax =>
               dft_axis inverse (Z.to_nat (normalize_axis (length (shape a)) ax)) acc)
            axes a.

(** The Fourier grid of a regular grid, with [q]-fold more samples; its
    spacing is in units of pi. *)
Definition fft_grid (g : Grid) (q fov : Q) : Result Grid :=
  if is_regular g then
    let n := map (fun n => Z.to_nat (Qfloor (inject_Z (Z.of_nat n) * q * fov))) (dims g) in
    let d := map (fun p => (2 / (inject_Z (Z.of_nat (fst p)) * snd p * q))%Q)
                 (combine (dims g) (delta g)) in
    Ok {| ndim := ndim g; dims := n; delta := d;
          zero := map (fun p => (- (snd p * inject_Z (Z.of_nat (fst p / 2))))%Q)
                      (combine n d);
          is_regular := true; is_cartesian := true |}
  else Raise ValueError.

Definition ones (n : nat) : ndarray G :=
  {| shape := [n]; dtype := complex128; data := repeat G1 n |}.

(** The padded grid and the position of the input samples in it: each
    axis of length [n] is centred in one of length [floor(n * q)]. *)
Definition padded_fft (g : Grid) (q : Q) : Grid * option (list slice) :=
  let internal := map (fun n => Z.to_nat (Qfloor (inject_Z (Z.of_nat n) * q))) (dims g) in
  let out := match fft_grid g q 1 with Ok h => h | Raise _ => g end in
  (out,
   if natlist_eqb internal (dims g) then None
   else Some (rev (map (fun p => let start := (fst p / 2 - snd p / 2)%nat in
                                 Slice start (start + snd p))
                       (combine internal (dims g))))).

Definition env : Env := {|
  C := G;
  C0 := G0;
  Cadd := Gadd;
  Cmul := Gmul;
  Cconj := Gconj;
  cast := Gcast;
  expi := fun _ => G1;
  np_tan := fun _ => 0%Q;
  np_sin := fun _ => 0%Q;
  fround := fun q => q;
  fround_monotone := fun a b H => H;
  fround_0 := Qeq_refl 0;
  fftn := dftn false;
  ifftn := dftn true;
  make_fft_grid := fft_grid;
  _numexpr_grid_shift := fun _ g => ones (grid_size g);
  FastFourierTransform := padded_fft;
  impulse_response_transfer_function :=
    fun _ _ _ _ g => ({| arr := ones (grid_size g); grid := g |},
                      [Call_fftn (last_axes (ndim g)) (grid_shape g)]);
  native_transfer_function :=
    fun _ _ _ _ g => {| arr := ones (grid_size g); grid := g |}
|}.

(** The reference environment on grids whose transformed axes have one
    sample: the transform of one sample is that sample. *)
Definition unit_env : Env := {|
  C := G;
  C0 := G0;
  Cadd := Gadd;
  Cmul := Gmul;
  Cconj := Gconj;
  cast := Gcast;
  expi := fun _ => G1;
  np_tan := fun _ => 0%Q;
  np_sin := fun _ => 0%Q;
  fround := fun q => q;
  fround_monotone := fun a b H => H;
  fround_0 := Qeq_refl 0;
  fftn := fun _ a => a;
  ifftn := fun _ a => a;
  make_fft_grid := fft_grid;
  _numexpr_grid_shift := fun _ g => ones (grid_size g);
  FastFourierTransform := padded_fft;
  impulse_response_transfer_function :=
    fun _ _ _ _ g => ({| arr := ones (grid_size g); grid := g |},
                      [Call_fftn (last_axes (ndim g)) (grid_shape g)]);
  native_transfer_function :=
    fun _ _ _ _ g => {| arr := ones (grid_size g); grid := g |}
|}.

(** *** An environment with exact transcendental values

    The Fourier grids of this module have their coordinates in units of
    pi, so the argument [t] of [expi] stands for [pi * t], and
    [exp(1j * pi * t)] is a Gaussian rational where [2 * t] is an
    integer.  Angles are in units of pi as well: [tan(pi / 4) = 1] and
    [sin(pi / 2) = 1].  The transform is the discrete Fourier transform of
    two samples along the axes of an array of 2 by 2 samples (other arrays
    are left as they are). *)

Definition Gsub (x y : G) : G := (fst x - fst y, snd x - snd y)%Qc.

(** [exp(1j * pi * t)], exact where [2 * t] is an integer. *)
Definition expi_pi (t : Q) : G :=
  let k := Qfloor (2 * t) in
  if Qeq_bool (inject_Z k) (2 * t) then
    match (k mod 4)%Z with
    | 0%Z => G1
    | 1%Z => Gi
    | 2%Z => re (-1)
    | _ => cplx 0 (-1)
    end
  else G1.

(** [tan(pi * t)] and [sin(pi * t)], exact at a quarter and at a half. *)
Definition tan_pi (t : Q) : Q :=
  if Qeq_bool t (1 # 4) then 1 else if Qeq_bool t (- (1 # 4)) then - (1) else 0.

Definition sin_pi (t : Q) : Q :=
  if Qeq_bool t (1 # 2) then 1 else if Qeq_bool t (- (1 # 2)) then - (1) else 0.

(** The transform of two samples along axis [ax] of an array of 2 by 2
    samples: sum and difference, halved for the inverse transform. *)
Definition dft2_axis (inverse : bool) (ax : Z) (a : ndarray G) : ndarray G :=
  if natlist_eqb (shape a) [2; 2]%nat then
    match data a with
    | [a00; a01; a10; a11] =>
        let h := fun z => if inverse then Gscale (Q2Qc (1 # 2)) z else z in
        match normalize_axis 2 ax with
        | 0%Z => {| shape := shape a; dtype := complex128;
                    data := [h (Gadd a00 a10); h (Gadd a01 a11);
                             h (Gsub a00 a10); h (Gsub a01 a11)] |}
        | 1%Z => {| shape := shape a; dtype := complex128;
                    data := [h (Gadd a00 a01); h (Gsub a00 a01);
                             h (Gadd a10 a11); h (Gsub a10 a11)] |}
        | _ => a
        end
    | _ => a
    end
  else a.

(** The factor of the inverse transform along one axis. *)
Definition dft2_factor (ax : Z) (s : list nat) : G :=
  if natlist_eqb s [2; 2]%nat then
    match normalize_axis 2 ax with
    | 0%Z | 1%Z => re (1 # 2)
    | _ => G1
    end
  else G1.

(** The transforms along several axes commute; the forward transform
    takes the axes from the last, the inverse transform from the first. *)
Definition square_fftn (axes : list Z) (a : ndarray G) : ndarray G :=
  fold_right (dft2_axis false) a axes.

Definition square_ifftn (axes : list Z) (a : ndarray G) : ndarray G :=
  fold_left (fun acc ax => dft2_axis true ax acc) axes a.

Definition square_scale (axes : list Z) (s : list nat) : G :=
  fold_right (fun ax acc => Gmul (dft2_factor ax s) acc) G1 axes.

(** [exp(1j * (shift . x))] at the points [x] of a grid. *)
Definition grid_shift (shift : list Q) (g : Grid) : ndarray G :=
  {| shape := [grid_size g];
     dtype := complex128;
     data := map (fun k =>
                    let idx := rev (unravel (grid_shape g) k) in
                    expi_pi (fold_right Qplus 0
                               (map (fun p => let '(s, (i, (d, z))) := p in
                                              s * (z + inject_Z (Z.of_nat i) * d))
                                    (combine shift
                                       (combine idx (combine (delta g) (zero g)))))))
                 (seq 0 (grid_size g)) |}.

Definition square_env : Env := {|
  C := G;
  C0 := G0;
  Cadd := Gadd;
  Cmul := Gmul;
  Cconj := Gconj;
  cast := Gcast;
  expi := expi_pi;
  np_tan := tan_pi;
  np_sin := sin_pi;
  fround := fun q => q;
  fround_monotone := fun a b H => H;
  fround_0 := Qeq_refl 0;
  fftn := square_fftn;
  ifftn := square_ifftn;
  make_fft_grid := fft_grid;
  _numexpr_grid_shift := grid_shift;
  FastFourierTransform := padded_fft;
  impulse_response_transfer_function :=
    fun _ _ _ _ g => ({| arr := ones (grid_size g); grid := g |},
                      [Call_fftn (last_axes (ndim g)) (grid_shape g)]);
  native_transfer_function :=
    fun _ _ _ _ g => {| arr := ones (grid_size g); grid := g |}
|}.

End Ref.

(** ** What the spec says, for comparison with the code *)



(** The array axis of a shaped field of [n] axes that holds grid axis [i]:
    the last array axis is grid axis 0. *)
Definition array_axis (n i : nat) : Z := (Z.of_nat n - 1 - Z.of_nat i)%Z.

(** The array axes of the grid axes whose shift is not zero. *)
Definition shifted_axes (n : nat) (shift : list Q) : list Z :=
  map (array_axis n) (np.flatnonzero shift).

(** The array axes that a trace of FFT calls transforms. *)
Definition transformed_axes (calls : list FFTCall) : list (list Z) :=
  map (fun c => match c with
                | Call_fftn axes s | Call_ifftn axes s =>
                    map (normalize_axis (length s)) axes
                end) calls.

(** The state of a filter whose cached transfer function has been
    dropped, as an invalidation on reassignment would leave it. *)
Definition invalidated {env : Env} (self : FourierFilter.t) : FourierFilter.t :=
  {| FourierFilter.input_grid := FourierFilter.input_grid self;
     FourierFilter.internal_grid := FourierFilter.internal_grid self;
     FourierFilter.cutout := FourierFilter.cutout self;
     FourierFilter.shape_in := FourierFilter.shape_in self;
     FourierFilter.transfer_function := FourierFilter.transfer_function self;
     FourierFilter._transfer_function := None;
     FourierFilter.internal_array := FourierFilter.internal_array self |}.

(** The effect of a call on the state, transported along a change of the
    state that the call does not read. *)
Definition map_state {A S : Type} (f : S -> S) (m : Py (A * S)) : Py (A * S) :=
  match m with
  | (Ok (r, s), t) => (Ok (r, f s), t)
  | (Raise e, t) => (Raise e, t)
  end.

(** ** Inner products and the laws of the numbers and of the FFT

    [inner a b] is [np.vdot(a, b)], the sum of [conj(a_i) * b_i].  The
    laws are those of a commutative ring with conjugation, and of a
    discrete Fourier transform and its inverse over the axes [axes] of an
    array of a given shape: they keep the shape, and the inverse transform
    is the adjoint of the transform up to the factor [fft_scale] (the
    inverse of the number of transformed samples). *)

Definition inner {env : Env} (a b : list C) : C :=
  Csum (map (fun p => Cmul (Cconj (fst p)) (snd p)) (combine a b)).

Definition well_formed {C : Type} (a : ndarray C) : Prop :=
  length (data a) = shape_size (shape a).

Class Laws (env : Env) : Type := {
  Cadd_comm : forall x y : C, Cadd x y = Cadd y x;
  Cadd_assoc : forall x y z : C, Cadd x (Cadd y z) = Cadd (Cadd x y) z;
  Cadd_0_l : forall x : C, Cadd C0 x = x;
  Cmul_comm : forall x y : C, Cmul x y = Cmul y x;
  Cmul_assoc : forall x y z : C, Cmul x (Cmul y z) = Cmul (Cmul x y) z;
  Cmul_0_r : forall x : C, Cmul x C0 = C0;
  Cmul_add_distr_l : forall x y z : C, Cmul x (Cadd y z) = Cadd (Cmul x y) (Cmul x z);
  Cconj_mul : forall x y : C, Cconj (Cmul x y) = Cmul (Cconj x) (Cconj y);
  Cconj_involutive : forall x : C, Cconj (Cconj x) = x;
  Cconj_0 : Cconj C0 = C0;
  fft_scale : list Z -> list nat -> C;
  fftn_shape : forall axes (a : ndarray C), shape (fftn axes a) = shape a;
  ifftn_shape : forall axes (a : ndarray C), shape (ifftn axes a) = shape a;
  fftn_well_formed : forall axes (a : ndarray C),
      well_formed a -> well_formed (fftn axes a);
  ifftn_well_formed : forall axes (a : ndarray C),
      well_formed a -> well_formed (ifftn axes a);
  ifftn_adjoint : forall axes (a b : ndarray C),
      well_formed a -> well_formed b -> shape a = shape b ->
      inner (data (ifftn axes a)) (data b)
      = Cmul (fft_scale axes (shape a)) (inner (data a) (data (fftn axes b)));
  fftn_adjoint : forall axes (a b : ndarray C),
      well_formed a -> well_formed b -> shape a = shape b ->
      Cmul (fft_scale axes (shape a)) (inner (data (fftn axes a)) (data b))
      = inner (data a) (data (ifftn axes b))
}.

(** The grid of a shaped field is consistent: its [ndim] is the number of
    its axes, and it has at least one. *)
Definition grid_consistent (g : Grid) : Prop :=
  ndim g = length (dims g) /\ dims g <> [].

(** The zero buffer that [_compute_functions] allocates. *)
Definition fresh_buffer {env : Env} (self : FourierFilter.t) (f : Field C)
  : ndarray C :=
  shaped (grid_zeros (FourierFilter.internal_grid self) (tensor_shape f)
                     (field_dtype f)).

(** The [axes] argument of a call into the FFT module. *)
Definition call_axes (c : FFTCall) : list Z :=
  match c with
  | Call_fftn axes _ | Call_ifftn axes _ => axes
  end.

(** The body of [FourierFilter._operation] after its first line, from the
    state that [_compute_functions] leaves. *)
Definition operation_body {env : Env} (self : FourierFilter.t) (field : Field C)
           (adjoint : bool) : Py (Field C * FourierFilter.t) :=
  let axes := last_axes (ndim (FourierFilter.input_grid self)) in
  bind (match FourierFilter.cutout self with
        | None => ret (shaped field, [], self)
        | Some co =>
            bind (FourierFilter.attr (FourierFilter.internal_array self))
              (fun f =>
                 let f := np.fill_zero f in
                 let c := repeat SliceAll (tensor_order field) ++ co in
                 bind (np.lift (np.setitem f c (shaped field)))
                   (fun f => ret (f, c, FourierFilter.with_internal_array self f)))
        end)
    (fun fcs =>
       let '(f, c, self) := fcs in
       bind (np.call_fftn f axes)
         (fun f =>
            bind (FourierFilter.attr (FourierFilter._transfer_function self))
              (fun tf =>
                 bind (FourierFilter.apply_transfer_function self tf f adjoint)
                   (fun f =>
                      bind (np.call_ifftn f axes)
                        (fun f =>
                           let s := drop_last (ndim (FourierFilter.internal_grid self))
                                              (shape f) in
                           bind (match FourierFilter.cutout self with
                                 | None => np.lift (reshape_m1 f s)
                                 | Some _ =>
                                     bind (np.lift (np.getitem f c))
                                          (fun g => np.lift (reshape_m1 g s))
                                 end)
                             (fun res =>
                                ret ({| arr := res;
                                        grid := FourierFilter.input_grid self |},
                                     self))))))).

Definition is_impulse_response {env : Env} (f : AngularSpectrumPropagator.closure) : bool :=
  match f with
  | AngularSpectrumPropagator.transfer_function_impulse_response _ _ _ _ => true
  | AngularSpectrumPropagator.transfer_function_native _ _ _ _ => false
  end.

(** ** Example data on the reference environment *)

Module Ex.
Import Ref.

Definition regular_grid (n : list nat) : Grid :=
  {| ndim := length n; dims := n;
     delta := map (fun _ => 1%Q) n; zero := map (fun _ => 0%Q) n;
     is_regular := true; is_cartesian := true |}.


(** A complex field over [g] from the real parts of its samples. *)
Definition field (g : Grid) (ts : list nat) (x : list Q) : Field (@C Ref.env) :=
  {| arr := {| shape := ts ++ [grid_size g]; dtype := complex128; data := map re x |};
     grid := g |}.

Definition samples (f : Field (@C Ref.env)) : list (Q * Q) :=
  map (fun z => (this (fst z), this (snd z))) (data (arr f)).

(** The flat shape and the samples of the field that a call returns. *)
Definition returned {S : Type} (m : Py (Field (@C Ref.env) * S))
  : option (list nat * list (Q * Q)) :=
  match result m with
  | Ok (f, _) => Some (shape (arr f), samples f)
  | Raise _ => None
  end.

Definition value {A : Type} (m : Py A) : option A :=
  match result m with
  | Ok a => Some a
  | Raise _ => None
  end.

Definition raised {A : Type} (m : Py A) : option PyExc :=
  match result m with
  | Ok _ => None
  | Raise e => Some e
  end.

(** What one computes from the state that a first call leaves. *)
Definition then_ {A B S : Type} (m : Py (A * S)) (k : S -> B) : option B :=
  match result m with
  | Ok (_, s) => Some (k s)
  | Raise _ => None
  end.

(** A grid of two samples, the field (1, 2) on it, and transfer functions
    that multiply every frequency by 1 and by 2. *)
Definition g1 : Grid := regular_grid [2%nat].
Definition u : Field (@C Ref.env) := field g1 [] [1; 2]%Q.
Definition tf_one : FourierFilter.transfer_fn (env := Ref.env) :=
  FourierFilter.Given (field (fst (Ref.padded_fft g1 1)) [] [1; 1]%Q).
Definition tf_two : FourierFilter.transfer_fn (env := Ref.env) :=
  FourierFilter.Given (field (fst (Ref.padded_fft g1 1)) [] [2; 2]%Q).

(** A filter with two-fold padding, and vector fields of 2, 3 and 1
    components. *)
Definition padded_filter : FourierFilter.t (env := Ref.env) :=
  FourierFilter.__init__ g1
    (FourierFilter.Given (field (fst (Ref.padded_fft g1 2)) [] [1; 1; 1; 1]%Q)) 2.
(** The same filter with a generator for its transfer function: the
    transformed impulse response, whose evaluation runs a transform. *)
Definition generated_filter : FourierFilter.t (env := Ref.env) :=
  FourierFilter.__init__ g1
    (FourierFilter.Generator
       (AngularSpectrumPropagator.call
          (AngularSpectrumPropagator.transfer_function_impulse_response 1 1 1 2))) 2.
Definition v2 : Field (@C Ref.env) := field g1 [2%nat] [1; 2; 3; 4]%Q.
Definition v3 : Field (@C Ref.env) := field g1 [3%nat] [1; 2; 3; 4; 5; 6]%Q.
Definition v1 : Field (@C Ref.env) := field g1 [1%nat] [1; 2]%Q.

(** A cube of 2 by 2 by 2 samples with a scalar field, and a square of 2
    by 2 samples with a scalar field and with a field of 3 components. *)
Definition g3 : Grid := regular_grid [2; 2; 2]%nat.
Definition u3 : Field (@C Ref.env) := field g3 [] [1; 2; 3; 4; 5; 6; 7; 8]%Q.
Definition g2 : Grid := regular_grid [2; 2]%nat.
Definition u2 : Field (@C Ref.env) := field g2 [] [1; 2; 3; 4]%Q.
Definition w2 : Field (@C Ref.env) :=
  field g2 [3%nat] [1; 2; 3; 4; 5; 6; 7; 8; 9; 10; 11; 12]%Q.

(** A field over [g] from the real and imaginary parts of its samples, and
    the inner product [np.vdot] of two fields. *)
Definition cfield (g : Grid) (ts : list nat) (x : list (Q * Q)) : Field (@C Ref.env) :=
  {| arr := {| shape := ts ++ [grid_size g]; dtype := complex128;
               data := map (fun z => Ref.cplx (fst z) (snd z)) x |};
     grid := g |}.

Definition vdot (a b : Field (@C Ref.env)) : Q * Q :=
  let z := inner (env := Ref.env) (data (arr a)) (data (arr b)) in
  (this (fst z), this (snd z)).

(** Complex fields on the grid of two samples, a scalar transfer function
    on the padded grid of four frequencies, and a matrix transfer function
    on the grid of two frequencies. *)
Definition cu : Field (@C Ref.env) := cfield g1 [] [(1, 2); (3, -1)]%Q.
Definition cv : Field (@C Ref.env) := cfield g1 [] [(2, -1); (1, 1)]%Q.
Definition ctf : FourierFilter.transfer_fn (env := Ref.env) :=
  FourierFilter.Given
    (cfield (fst (Ref.padded_fft g1 2)) [] [(1, 1); (2, -3); (0, 1); (-1, 2)]%Q).
Definition cu2 : Field (@C Ref.env) :=
  cfield g1 [2%nat] [(1, 2); (3, -1); (0, 1); (2, 2)]%Q.
Definition cv2 : Field (@C Ref.env) :=
  cfield g1 [2%nat] [(2, -1); (1, 1); (1, 0); (-1, 3)]%Q.
Definition mtf : FourierFilter.transfer_fn (env := Ref.env) :=
  FourierFilter.Given
    (cfield (fst (Ref.padded_fft g1 1)) [2; 2]%nat
            [(1, 1); (2, 0); (0, 1); (1, -1); (3, 0); (0, 2); (1, 2); (-1, 0)]%Q).

Fixpoint value_samples (v : PyVal (@C Ref.env)) : list (list (Q * Q)) :=
  match v with
  | VField f => [samples f]
  | VTuple l => flat_map value_samples l
  end.

(** The rotation by the angle 0 on the square grid. *)
Definition rotation0 : FourierRotation.t (env := Ref.env) :=
  let no_shear :=
    {| FourierShear._input_grid := g2; FourierShear._shear_dim := 0%nat;
       FourierShear._filter := None; FourierShear._shear := 0%Q |} in
  match result (FourierRotation.__init__ g2 0%Q) with
  | Ok rot => rot
  | Raise _ =>
      {| FourierRotation._input_grid := g2; FourierRotation._shear_x := no_shear;
         FourierRotation._shear_y := no_shear; FourierRotation._angle := 0%Q |}
  end.

Definition is_tuple {C : Type} (v : PyVal C) : bool :=
  match v with
  | VField _ => false
  | VTuple _ => true
  end.

(** The shift by (0, 1) on the square grid. *)
Definition shift01 : FourierShift.t (env := Ref.env) :=
  match result (FourierShift.__init__ g2 [0; 1]%Q) with
  | Ok op => op
  | Raise _ =>
      {| FourierShift.input_grid := g2; FourierShift.output_grid := g2;
         FourierShift._shift := []; FourierShift._ft_axes := [];
         FourierShift._shift_filter := None |}
  end.

(** On the environment of single samples, a filter with a complex scalar
    transfer function on the padded grid of four frequencies. *)
Definition unit_filter : FourierFilter.t (env := Ref.unit_env) :=
  FourierFilter.__init__ (env := Ref.unit_env) g1
    (FourierFilter.Given (env := Ref.unit_env)
       (cfield (fst (Ref.padded_fft g1 2)) [] [(1, 1); (2, -3); (0, 1); (-1, 2)]%Q)) 2.

(** On the environment with exact transcendental values: the square grid
    centred on the origin, complex fields on it, the shear by 1 along
    dimension 1, the rotation by a quarter turn and the shift by half a
    sample along dimension 0. *)
Definition centred : Grid :=
  {| ndim := 2; dims := [2; 2]%nat; delta := [1; 1]%Q;
     zero := [- (1 # 2); - (1 # 2)]%Q;
     is_regular := true; is_cartesian := true |}.

Definition cuc : Field (@C Ref.square_env) :=
  cfield centred [] [(1, 2); (3, -1); (0, 1); (2, 2)]%Q.
Definition cvc : Field (@C Ref.square_env) :=
  cfield centred [] [(2, -1); (1, 1); (1, 0); (-1, 3)]%Q.

Definition square_shear : FourierShear.t (env := Ref.square_env) :=
  match result (FourierShear.__init__ (env := Ref.square_env) centred 1 1) with
  | Ok op => op
  | Raise _ =>
      {| FourierShear._input_grid := centred; FourierShear._shear_dim := 1%nat;
         FourierShear._filter := None; FourierShear._shear := 0%Q |}
  end.

Definition square_rotation : FourierRotation.t (env := Ref.square_env) :=
  match result (FourierRotation.__init__ (env := Ref.square_env) centred (1 # 2)) with
  | Ok rot => rot
  | Raise _ =>
      {| FourierRotation._input_grid := centred;
         FourierRotation._shear_x := square_shear;
         FourierRotation._shear_y := square_shear; FourierRotation._angle := 0%Q |}
  end.

Definition square_shift : FourierShift.t (env := Ref.square_env) :=
  match result (FourierShift.__init__ (env := Ref.square_env) centred [1 # 2; 0]%Q) with
  | Ok op => op
  | Raise _ =>
      {| FourierShift.input_grid := centred; FourierShift.output_grid := centred;
         FourierShift._shift := []; FourierShift._ft_axes := [];
         FourierShift._shift_filter := None |}
  end.

Definition filter_samples {C : Type} (o : option (ndarray C)) : list C :=
  match o with
  | Some a => data a
  | None => []
  end.

(** The samples of the field, or of the three fields, that a call
    returns, and the inner products with a field. *)
Definition returned_samples (r : Result (PyVal (@C Ref.env))) : option (list (Q * Q)) :=
  match r with
  | Ok (VField f) => Some (samples f)
  | _ => None
  end.

Definition triple_samples (r : Result (PyVal (@C Ref.env)))
  : option (list (list (Q * Q))) :=
  match r with
  | Ok (VTuple [VField a; VField b; VField c]) => Some [samples a; samples b; samples c]
  | _ => None
  end.

Definition returned_dot (r : Result (PyVal (@C Ref.env))) (v : Field (@C Ref.env))
  : option (Q * Q) :=
  match r with
  | Ok (VField f) => Some (vdot f v)
  | _ => None
  end.

Definition triple_dots (r : Result (PyVal (@C Ref.env))) (v : Field (@C Ref.env))
  : option (list (Q * Q)) :=
  match r with
  | Ok (VTuple [VField a; VField b; VField c]) => Some [vdot a v; vdot b v; vdot c v]
  | _ => None
  end.

Definition is_field {C : Type} (r : Result (PyVal C)) : bool :=
  match r with
  | Ok (VField _) => true
  | _ => false
  end.

Definition is_triple {C : Type} (r : Result (PyVal C)) : bool :=
  match r with
  | Ok (VTuple [VField _; VField _; VField _]) => true
  | _ => false
  end.

End Ex.

(** * Properties *)

(** ** The zero shift *)

Lemma filter_nonzero_all_zero :
  forall (shift : list Q) (start : nat),
    Forall (fun x => x == 0) shift ->
    filter (fun p : nat * Q => negb (Qeq_bool (snd p) 0))
           (combine (seq start (length shift)) shift) = [].
Proof.
  induction shift as [|x shift IH]; intros start Hz; simpl.
  - reflexivity.
  - inversion Hz as [|y l Hx Hrest]; subst.
    apply Qeq_bool_iff in Hx. rewrite Hx. simpl. apply IH. exact Hrest.
Qed.

Lemma flatnonzero_all_zero :
  forall shift : list Q,
    Forall (fun x => x == 0) shift -> np.flatnonzero shift = [].
Proof.
  intros shift Hz. unfold np.flatnonzero.
  rewrite filter_nonzero_all_zero by exact Hz. reflexivity.
Qed.

Lemma field_astype_same_dtype :
  forall (env : Env) (d : Dtype) (f : Field C),
    field_dtype f = d -> field_astype d f = f.
Proof.
  intros env d [a g] Hd. unfold field_astype, field_dtype in *. simpl in *.
  subst d. destruct (dtype a); reflexivity.
Qed.

Lemma field_astype_frame :
  forall (env : Env) (d : Dtype) (f : Field C),
    grid (field_astype d f) = grid f /\
    shape (arr (field_astype d f)) = shape (arr f) /\
    dtype (arr (field_astype d f)) = d.
Proof.
  intros env d f. unfold field_astype, field_dtype. simpl.
  destruct (dtype_eqb (dtype (arr f)) d) eqn:E; simpl; repeat split.
  destruct (dtype (arr f)), d; simpl in E; congruence.
Qed.

(** C6. With a shift whose components are all zero, assigning the shift
    leaves the operator without a filter, and [forward] and [backward]
    return the input field converted to complex, with no call into the
    FFT module. *)
Theorem zero_shift_is_identity :
  forall (env : Env) (self : FourierShift.t) (input_grid : Grid)
         (shift : list Q) (field : Field C),
    Forall (fun x => x == 0) shift ->
    exists op op',
      FourierShift.__init__ input_grid shift = (Ok op, []) /\
      FourierShift.set_shift self shift = (Ok op', []) /\
      FourierShift.forward op field = (Ok (field_astype complex128 field), []) /\
      FourierShift.backward op field = (Ok (field_astype complex128 field), []) /\
      FourierShift.forward op' field = (Ok (field_astype complex128 field), []) /\
      FourierShift.backward op' field = (Ok (field_astype complex128 field), []).
Proof.
  intros env self input_grid shift field Hz.
  unfold FourierShift.__init__, FourierShift.set_shift.
  rewrite (flatnonzero_all_zero Hz). simpl.
  do 2 eexists. repeat split.
Qed.

Lemma zero_shift_is_identity_witness :
  exists op,
    FourierShift.__init__ (Ex.regular_grid [2; 2]%nat) [0; 0]%Q = (Ok op, []) /\
    FourierShift.forward op (Ex.field (Ex.regular_grid [2; 2]%nat) [] [1; 2; 3; 4]%Q)
    = (Ok (Ex.field (Ex.regular_grid [2; 2]%nat) [] [1; 2; 3; 4]%Q), []).
Proof.
  assert (Hz : Forall (fun x => x == 0) [0; 0]%Q)
    by (repeat constructor; reflexivity).
  destruct (@zero_shift_is_identity Ref.env
              {| FourierShift.input_grid := Ex.regular_grid [2; 2]%nat;
                 FourierShift.output_grid := Ex.regular_grid [2; 2]%nat;
                 FourierShift._shift := []; FourierShift._ft_axes := [];
                 FourierShift._shift_filter := None |}
              (Ex.regular_grid [2; 2]%nat) [0; 0]%Q
              (Ex.field (Ex.regular_grid [2; 2]%nat) [] [1; 2; 3; 4]%Q) Hz)
    as (op & op' & Hinit & _ & Hfwd & _).
  exists op. split; [exact Hinit | exact Hfwd].
Defined.

(** ** Construction on a grid that is not regular and two-dimensional *)

(** C8. Constructing a FourierShear or a FourierRotation on a grid that is
    not regular, or whose dimensionality is not 2, raises ValueError: no
    operator is built. *)
Theorem shear_and_rotation_reject_grid :
  forall (env : Env) (input_grid : Grid) (shear angle : Q) (shear_dim : nat),
    is_regular input_grid = false \/ ndim input_grid <> 2%nat ->
    FourierShear.__init__ input_grid shear shear_dim = (Raise ValueError, []) /\
    FourierRotation.__init__ input_grid angle = (Raise ValueError, []).
Proof.
  intros env input_grid shear angle shear_dim Hbad.
  unfold FourierShear.__init__, FourierRotation.__init__.
  assert (Hc : negb (is_regular input_grid) || negb (ndim input_grid =? 2)%nat = true).
  { destruct Hbad as [Hr | Hn].
    - rewrite Hr. reflexivity.
    - apply Nat.eqb_neq in Hn. rewrite Hn. apply orb_true_r. }
  rewrite Hc. split; reflexivity.
Qed.

Lemma shear_and_rotation_reject_grid_witness :
  FourierShear.__init__ (env := Ref.env) (Ex.regular_grid [2; 2; 2]%nat) 1%Q 0%nat
  = (Raise ValueError, []) /\
  FourierRotation.__init__ (env := Ref.env) (Ex.regular_grid [2; 2; 2]%nat) 1%Q
  = (Raise ValueError, []).
Proof.
  apply (@shear_and_rotation_reject_grid Ref.env).
  right. simpl. lia.
Defined.

(** ** The propagator: wavelength and polarization *)

Lemma method_preserves :
  forall (env : Env) (adjoint : bool)
         (instance : AngularSpectrumPropagator.instance_data)
         (wavefront res : Wavefront C) (ff : FourierFilter.t),
    result (if adjoint
            then AngularSpectrumPropagator.backward_method instance wavefront
            else AngularSpectrumPropagator.forward_method instance wavefront)
    = Ok (res, ff) ->
    wavelength res = wavelength wavefront /\
    input_stokes_vector res = input_stokes_vector wavefront.
Proof.
  intros env adjoint instance wavefront res ff.
  unfold AngularSpectrumPropagator.backward_method,
         AngularSpectrumPropagator.forward_method, result, bind.
  destruct adjoint.
  - destruct (FourierFilter.backward _ _) as [[[filtered ff']|e] tr]; simpl;
      intro H; inversion H; subst; simpl; split; reflexivity.
  - destruct (FourierFilter.forward _ _) as [[[filtered ff']|e] tr]; simpl;
      intro H; inversion H; subst; simpl; split; reflexivity.
Qed.

(** C9. A wavefront returned by [forward] or [backward] of the propagator
    has the wavelength and the input Stokes vector of the wavefront that
    was passed in. *)
Theorem propagator_keeps_wavelength_and_stokes :
  forall (env : Env) (self self' : AngularSpectrumPropagator.t)
         (wavefront res : Wavefront C),
    result (AngularSpectrumPropagator.forward self wavefront) = Ok (res, self') \/
    result (AngularSpectrumPropagator.backward self wavefront) = Ok (res, self') ->
    wavelength res = wavelength wavefront /\
    input_stokes_vector res = input_stokes_vector wavefront.
Proof.
  intros env self self' wavefront res.
  unfold AngularSpectrumPropagator.forward, AngularSpectrumPropagator.backward,
         AngularSpectrumPropagator.make_agnostic, result, bind, np.lift.
  destruct (AngularSpectrumPropagator.get_instance_data _ _ _) as [[instance s1]|e];
    simpl.
  - intros [H | H].
    + pose proof (@method_preserves env false instance wavefront) as P.
      unfold result in P. simpl in P.
      destruct (AngularSpectrumPropagator.forward_method instance wavefront)
        as [[[r ff]|e] tr]; simpl in *; inversion H; subst.
      apply (P res ff). reflexivity.
    + pose proof (@method_preserves env true instance wavefront) as P.
      unfold result in P. simpl in P.
      destruct (AngularSpectrumPropagator.backward_method instance wavefront)
        as [[[r ff]|e] tr]; simpl in *; inversion H; subst.
      apply (P res ff). reflexivity.
  - intros [H | H]; discriminate H.
Qed.

Lemma propagator_keeps_wavelength_and_stokes_witness :
  exists res self',
    result (AngularSpectrumPropagator.forward
              (AngularSpectrumPropagator.__init__ (env := Ref.env)
                 (Ex.regular_grid [2; 2]%nat) 0%Q 2%nat
                 (AngularSpectrumPropagator.Constant 1%Q))
              {| electric_field := Ex.field (Ex.regular_grid [2; 2]%nat) [] [1; 2; 3; 4]%Q;
                 wavelength := 1%Q;
                 input_stokes_vector := Some [1; 0; 0; 0]%Q |})
    = Ok (res, self') /\
    wavelength res = 1%Q /\
    input_stokes_vector res = Some [1; 0; 0; 0]%Q.
Proof.
  destruct (result (AngularSpectrumPropagator.forward
              (AngularSpectrumPropagator.__init__ (env := Ref.env)
                 (Ex.regular_grid [2; 2]%nat) 0%Q 2%nat
                 (AngularSpectrumPropagator.Constant 1%Q))
              {| electric_field := Ex.field (Ex.regular_grid [2; 2]%nat) [] [1; 2; 3; 4]%Q;
                 wavelength := 1%Q;
                 input_stokes_vector := Some [1; 0; 0; 0]%Q |}))
    as [[res self']|e] eqn:H.
  - exists res, self'. split; [reflexivity|].
    exact (@propagator_keeps_wavelength_and_stokes Ref.env _ _ _ _ (or_introl H)).
  - exfalso.
    assert (Hok : is_ok (result (AngularSpectrumPropagator.forward
              (AngularSpectrumPropagator.__init__ (env := Ref.env)
                 (Ex.regular_grid [2; 2]%nat) 0%Q 2%nat
                 (AngularSpectrumPropagator.Constant 1%Q))
              {| electric_field := Ex.field (Ex.regular_grid [2; 2]%nat) [] [1; 2; 3; 4]%Q;
                 wavelength := 1%Q;
                 input_stokes_vector := Some [1; 0; 0; 0]%Q |})) = true)
      by (vm_compute; reflexivity).
    rewrite H in Hok. discriminate Hok.
Defined.

(** ** The propagator: choice of the transfer function *)

Lemma Qltb_lt : forall x y : Q, Qltb x y = true <-> x < y.
Proof.
  intros x y. unfold Qltb. rewrite negb_true_iff.
  split.
  - intro H. apply Qnot_le_lt. intro Hle.
    apply Qle_bool_iff in Hle. congruence.
  - intro H. destruct (Qle_bool y x) eqn:E; [|reflexivity].
    apply Qle_bool_iff in E. exfalso. apply (Qlt_not_le _ _ H E).
Qed.


Lemma lt_quotient_lt :
  forall (env : Env) (x num den : Q),
    ~ den == 0 -> (lt_quotient x num den = true <-> x < fround (num / den)).
Proof.
  intros env x num den Hd. unfold lt_quotient.
  destruct (Qeq_bool den 0) eqn:E.
  - apply Qeq_bool_iff in E. contradiction.
  - apply Qltb_lt.
Qed.


(** Rounding keeps equal numbers equal and the sign of a number. *)
Lemma fround_eq :
  forall (env : Env) (a b : Q), a == b -> fround a == fround b.
Proof.
  intros env a b H. apply Qle_antisym; apply fround_monotone; rewrite H; apply Qle_refl.
Qed.



Lemma existsb_Exists :
  forall (A : Type) (p : A -> bool) (P : A -> Prop),
    (forall a, p a = true <-> P a) ->
    forall l : list A, existsb p l = true <-> Exists P l.
Proof.
  intros A p P Hp l. rewrite existsb_exists, Exists_exists.
  split; intros (a & Hin & Ha); exists a; split; try assumption; apply Hp; assumption.
Qed.





(** ** The propagator: negative distances *)








(** ** FourierFilter: the cached transfer function *)

Lemma bind_unit_nil :
  forall (A : Type) (m : Py A), bind (Ok tt, []) (fun _ => m) = m.
Proof. intros A [r t]. reflexivity. Qed.

(** A call is the calls of [_compute_functions] and then the body from
    the state that it leaves. *)
Lemma operation_unfold :
  forall (env : Env) (self : FourierFilter.t) (field : Field C) (adjoint : bool),
    FourierFilter._operation self field adjoint
    = bind (Ok tt, FourierFilter._compute_functions_calls self field)
           (fun _ => operation_body (FourierFilter._compute_functions self field)
                                    field adjoint).
Proof. reflexivity. Qed.

(** With a cached transfer function of the dtype of the field, the
    generator is not called. *)
Lemma compute_functions_calls_cached :
  forall (env : Env) (self : FourierFilter.t) (field : Field C),
    FourierFilter.recompute_transfer_function self field = false ->
    FourierFilter._compute_functions_calls self field = [].
Proof.
  intros env self field H. unfold FourierFilter._compute_functions_calls.
  rewrite H. reflexivity.
Qed.

Lemma result_operation :
  forall (env : Env) (self : FourierFilter.t) (field : Field C) (adjoint : bool),
    result (FourierFilter._operation self field adjoint)
    = result (operation_body (FourierFilter._compute_functions self field)
                             field adjoint).
Proof.
  intros env self field adjoint. rewrite operation_unfold.
  unfold result, bind.
  destruct (operation_body _ _ _) as [r t]. reflexivity.
Qed.

Lemma operation_cached :
  forall (env : Env) (self : FourierFilter.t) (field : Field C) (adjoint : bool),
    FourierFilter.recompute_transfer_function self field = false ->
    FourierFilter._operation self field adjoint
    = operation_body (FourierFilter._compute_functions self field) field adjoint.
Proof.
  intros env self field adjoint H.
  rewrite operation_unfold, (compute_functions_calls_cached self field H).
  apply bind_unit_nil.
Qed.

Lemma compute_functions_after_reassignment :
  forall (env : Env) (self : FourierFilter.t) (new : FourierFilter.transfer_fn)
         (field : Field C),
    FourierFilter.recompute_transfer_function self field = false ->
    FourierFilter._compute_functions (FourierFilter.set_transfer_function self new) field
    = FourierFilter.set_transfer_function (FourierFilter._compute_functions self field) new.
Proof.
  intros env self new field H.
  unfold FourierFilter._compute_functions.
  assert (H' : FourierFilter.recompute_transfer_function
                 (FourierFilter.set_transfer_function self new) field = false)
    by exact H.
  rewrite H, H'. reflexivity.
Qed.

Lemma operation_body_ignores_transfer_function :
  forall (env : Env) (self : FourierFilter.t) (new : FourierFilter.transfer_fn)
         (field : Field C) (adjoint : bool),
    FourierFilter.recompute_transfer_function self field = false ->
    FourierFilter._operation (FourierFilter.set_transfer_function self new) field adjoint
    = map_state (fun s => FourierFilter.set_transfer_function s new)
                (FourierFilter._operation self field adjoint).
Proof.
  intros env self new field adjoint H.
  rewrite (@operation_cached env self field adjoint H).
  rewrite (@operation_cached env (FourierFilter.set_transfer_function self new)
             field adjoint H).
  rewrite (compute_functions_after_reassignment self new field H).
  generalize (FourierFilter._compute_functions self field).
  intros [ig ing co si tfn tfc ia].
  unfold operation_body.
  unfold FourierFilter.set_transfer_function, FourierFilter.with_internal_array,
         FourierFilter.apply_transfer_function, FourierFilter.attr,
         map_state, bind, ret, raise, np.lift, np.call_fftn, np.call_ifftn.
  simpl.
  destruct co as [co|]; simpl.
  - destruct ia as [a|]; simpl; [|reflexivity].
    destruct (np.setitem _ _ _) as [f|e]; simpl; [|reflexivity].
    destruct tfc as [tf|]; simpl; [|reflexivity].
    destruct (_ =? 2)%Z; simpl.
    + destruct adjoint; simpl.
      * destruct (field_conjugate_transpose _) as [tff|e]; simpl; [|reflexivity].
        destruct (field_dot _ _) as [r|e]; simpl; [|reflexivity].
        destruct (np.getitem _ _) as [g|e]; simpl; [|reflexivity].
        destruct (reshape_m1 _ _) as [res|e]; reflexivity.
      * destruct (field_dot _ _) as [r|e]; simpl; [|reflexivity].
        destruct (np.getitem _ _) as [g|e]; simpl; [|reflexivity].
        destruct (reshape_m1 _ _) as [res|e]; reflexivity.
    + destruct (np.imul _ _) as [g|e]; simpl; [|reflexivity].
      destruct (np.getitem _ _) as [g'|e]; simpl; [|reflexivity].
      destruct (reshape_m1 _ _) as [res|e]; reflexivity.
  - destruct tfc as [tf|]; simpl; [|reflexivity].
    destruct (_ =? 2)%Z; simpl.
    + destruct adjoint; simpl.
      * destruct (field_conjugate_transpose _) as [tff|e]; simpl; [|reflexivity].
        destruct (field_dot _ _) as [r|e]; simpl; [|reflexivity].
        destruct (reshape_m1 _ _) as [res|e]; reflexivity.
      * destruct (field_dot _ _) as [r|e]; simpl; [|reflexivity].
        destruct (reshape_m1 _ _) as [res|e]; reflexivity.
    + destruct (np.imul _ _) as [g|e]; simpl; [|reflexivity].
      destruct (reshape_m1 _ _) as [res|e]; reflexivity.
Qed.

(** The assigned transfer function is read when the cache is absent or of
    another dtype than the field. *)
Lemma reassigned_transfer_function_read_on_recompute :
  forall (env : Env) (self : FourierFilter.t) (new : FourierFilter.transfer_fn)
         (field : Field C),
    FourierFilter._transfer_function
      (FourierFilter._compute_functions
         (FourierFilter.set_transfer_function self new) field)
    = if FourierFilter.recompute_transfer_function self field
      then Some (np.astype (field_dtype field)
                   (np.ifftshift (last_axes (ndim (FourierFilter.input_grid self)))
                      (shaped (match new with
                               | FourierFilter.Generator g =>
                                   fst (g (FourierFilter.internal_grid self))
                               | FourierFilter.Given tf => tf
                               end))))
      else FourierFilter._transfer_function self.
Proof.
  intros env self new field. unfold FourierFilter._compute_functions.
  change (FourierFilter.recompute_transfer_function
            (FourierFilter.set_transfer_function self new) field)
    with (FourierFilter.recompute_transfer_function self field).
  destruct (FourierFilter.recompute_transfer_function self field); reflexivity.
Qed.

(** C4, as the code has it. Assigning [transfer_function] leaves the
    cached transfer function in place.  The next call reads the assigned
    transfer function only when the cache is absent or of another dtype
    than the field; while the cache holds a transfer function of the dtype
    of the field, the next [forward] or [backward] call keeps it and
    returns what it would have returned without the assignment. *)
Theorem reassignment_keeps_cached_transfer_function :
  forall (env : Env) (self : FourierFilter.t) (new : FourierFilter.transfer_fn)
         (field : Field C),
    FourierFilter._transfer_function (FourierFilter.set_transfer_function self new)
    = FourierFilter._transfer_function self /\
    FourierFilter._transfer_function
      (FourierFilter._compute_functions
         (FourierFilter.set_transfer_function self new) field)
    = (if FourierFilter.recompute_transfer_function self field
       then Some (np.astype (field_dtype field)
                    (np.ifftshift (last_axes (ndim (FourierFilter.input_grid self)))
                       (shaped (match new with
                                | FourierFilter.Generator g =>
                                    fst (g (FourierFilter.internal_grid self))
                                | FourierFilter.Given tf => tf
                                end))))
       else FourierFilter._transfer_function self) /\
    (FourierFilter.recompute_transfer_function self field = false ->
     forall adjoint : bool,
       FourierFilter._operation (FourierFilter.set_transfer_function self new)
                                field adjoint
       = map_state (fun s => FourierFilter.set_transfer_function s new)
                   (FourierFilter._operation self field adjoint)).
Proof.
  intros env self new field. split; [reflexivity|]. split.
  - apply reassigned_transfer_function_read_on_recompute.
  - intros H adjoint. apply operation_body_ignores_transfer_function. exact H.
Qed.

Lemma reassignment_keeps_cached_transfer_function_witness :
  FourierFilter._operation
    (FourierFilter.set_transfer_function
       (FourierFilter._compute_functions (FourierFilter.__init__ Ex.g1 Ex.tf_one 1) Ex.u)
       Ex.tf_two)
    Ex.u false
  = map_state (fun s => FourierFilter.set_transfer_function s Ex.tf_two)
      (FourierFilter._operation
         (FourierFilter._compute_functions (FourierFilter.__init__ Ex.g1 Ex.tf_one 1) Ex.u)
         Ex.u false).
Proof.
  refine (proj2 (proj2
    (@reassignment_keeps_cached_transfer_function Ref.env
       (FourierFilter._compute_functions
          (FourierFilter.__init__ Ex.g1 Ex.tf_one 1) Ex.u)
       Ex.tf_two Ex.u)) _ false).
  reflexivity.
Defined.

(** C4, as the spec words it, fails. A filter that multiplies by 1 is
    applied to the field (1, 2); its transfer function is then replaced by
    one that multiplies by 2.  The next call returns (1, 2) again, where a
    filter whose cache had been invalidated, or a new filter with the
    assigned transfer function, returns (2, 4). *)
Lemma reassigned_transfer_function_is_not_read :
  Ex.returned
    (bind (FourierFilter.forward (FourierFilter.__init__ Ex.g1 Ex.tf_one 1) Ex.u)
          (fun rs => FourierFilter.forward
                       (FourierFilter.set_transfer_function (snd rs) Ex.tf_two) Ex.u))
  = Some ([2%nat], [(1, 0); (2, 0)]%Q) /\
  Ex.returned
    (bind (FourierFilter.forward (FourierFilter.__init__ Ex.g1 Ex.tf_one 1) Ex.u)
          (fun rs => FourierFilter.forward
                       (invalidated
                          (FourierFilter.set_transfer_function (snd rs) Ex.tf_two))
                       Ex.u))
  = Some ([2%nat], [(2, 0); (4, 0)]%Q) /\
  Ex.returned (FourierFilter.forward (FourierFilter.__init__ Ex.g1 Ex.tf_two 1) Ex.u)
  = Some ([2%nat], [(2, 0); (4, 0)]%Q).
Proof.
  repeat split; vm_compute; reflexivity.
Qed.

(** ** FourierFilter: the scratch buffer *)

(** With a buffer of the ndim and dtype of the field, the last test of
    [_compute_functions] decides alone: the buffer is replaced exactly
    when its leading axes equal the tensor shape of the field. *)
Lemma recompute_internal_array_on_matching_buffer :
  forall (env : Env) (self : FourierFilter.t) (field : Field C) (a : ndarray C),
    FourierFilter.internal_array self = Some a ->
    np.array_ndim a = (ndim (grid field) + tensor_order field)%nat ->
    dtype a = field_dtype field ->
    FourierFilter.recompute_internal_array self field
    = natlist_eqb (firstn (tensor_order field) (shape a)) (tensor_shape field).
Proof.
  intros env self field a Ha Hn Hd.
  unfold FourierFilter.recompute_internal_array. rewrite Ha, Hn, Hd.
  rewrite Nat.eqb_refl.
  assert (E : dtype_eqb (field_dtype field) (field_dtype field) = true)
    by (destruct (field_dtype field); reflexivity).
  rewrite E. reflexivity.
Qed.

(** C3 fails on the code. After a call with a field of tensor shape (2),
    on a filter with padding: a second field of tensor shape (2) makes
    [_compute_functions] replace the buffer that matches it; a field of
    tensor shape (3) or (1), of the same tensor order and dtype, leaves
    the buffer of shape (2, 4) in place; the call with tensor shape (3)
    then raises ValueError, and the call with tensor shape (1) returns a
    field of tensor shape (2). *)
Theorem scratch_buffer_kept_when_shape_differs :
  Ex.then_ (FourierFilter.forward Ex.padded_filter Ex.v2)
           (fun s => FourierFilter.recompute_internal_array s Ex.v2) = Some true /\
  Ex.then_ (FourierFilter.forward Ex.padded_filter Ex.v2)
           (fun s => FourierFilter.recompute_internal_array s Ex.v3) = Some false /\
  Ex.then_ (FourierFilter.forward Ex.padded_filter Ex.v2)
           (fun s => FourierFilter.recompute_internal_array s Ex.v1) = Some false /\
  Ex.then_ (FourierFilter.forward Ex.padded_filter Ex.v2)
           (fun s => option_map (fun a => shape a)
                       (FourierFilter.internal_array
                          (FourierFilter._compute_functions s Ex.v3)))
  = Some (Some [2; 4]%nat) /\
  Ex.raised (bind (FourierFilter.forward Ex.padded_filter Ex.v2)
                  (fun rs => FourierFilter.forward (snd rs) Ex.v3))
  = Some ValueError /\
  Ex.returned (bind (FourierFilter.forward Ex.padded_filter Ex.v2)
                    (fun rs => FourierFilter.forward (snd rs) Ex.v1))
  = Some ([2; 2]%nat, [(1, 0); (2, 0); (1, 0); (2, 0)]%Q) /\
  Ex.returned (FourierFilter.forward Ex.padded_filter Ex.v1)
  = Some ([1; 2]%nat, [(1, 0); (2, 0)]%Q).
Proof.
  repeat split; vm_compute; reflexivity.
Qed.

(** ** FourierShift: the transformed axes *)

(** The axes handed to the FFT module are the indices of the non-zero
    shifts minus one. *)
Lemma ft_axes_of_shift :
  forall (env : Env) (self op : FourierShift.t) (shift : list Q),
    result (FourierShift.set_shift self shift) = Ok op ->
    FourierShift._ft_axes op
    = map (fun i => (Z.of_nat i - 1)%Z) (np.flatnonzero shift).
Proof.
  intros env self op shift.
  unfold FourierShift.set_shift, result, bind, np.lift, ret.
  destruct (map (fun i => (Z.of_nat i - 1)%Z) (np.flatnonzero shift)) as [|a l] eqn:E.
  - simpl. intro H. inversion H. reflexivity.
  - destruct (make_fft_grid _ _ _) as [g|e]; simpl; [|discriminate].
    destruct (np.mask_select (delta g) _) as [d|e]; simpl; [|discriminate].
    destruct (np.mask_select (dims g) _) as [n|e]; simpl; [|discriminate].
    destruct (np.mask_select (zero g) _) as [z|e]; simpl; [|discriminate].
    intro H. inversion H. reflexivity.
Qed.

(** C7 fails on the code. On a grid of three axes with the shift
    (0, 0, 1), the calls of [forward] and [backward] on a scalar field
    transform array axis 1, which holds the second grid axis, whose shift
    is zero; the axis of the shifted third grid axis is array axis 0.  On
    a grid of two axes with the shift (0, 1) and a field of tensor order
    1, they transform array axis 0, the tensor axis; the axis of the
    shifted grid axis is array axis 1. *)
Theorem shift_transforms_other_axes :
  fft_calls (bind (FourierShift.__init__ Ex.g3 [0; 0; 1]%Q)
                  (fun s => FourierShift.forward s Ex.u3))
  = [Call_fftn [1%Z] [2; 2; 2]%nat; Call_ifftn [1%Z] [2; 2; 2]%nat] /\
  fft_calls (bind (FourierShift.__init__ Ex.g3 [0; 0; 1]%Q)
                  (fun s => FourierShift.backward s Ex.u3))
  = [Call_fftn [1%Z] [2; 2; 2]%nat; Call_ifftn [1%Z] [2; 2; 2]%nat] /\
  shifted_axes 3 [0; 0; 1]%Q = [0%Z] /\
  transformed_axes
    (fft_calls (bind (FourierShift.__init__ Ex.g2 [0; 1]%Q)
                     (fun s => FourierShift.forward s Ex.w2)))
  = [[0%Z]; [0%Z]] /\
  transformed_axes
    (fft_calls (bind (FourierShift.__init__ Ex.g2 [0; 1]%Q)
                     (fun s => FourierShift.backward s Ex.w2)))
  = [[0%Z]; [0%Z]] /\
  shifted_axes (np.array_ndim (shaped Ex.w2)) [0; 1]%Q = [1%Z].
Proof.
  repeat split; vm_compute; reflexivity.
Qed.

(** ** FourierRotation: the returned value *)

Lemma shear_operation_returns_field :
  forall (env : Env) (self : FourierShear.t) (v r : PyVal C) (adjoint : bool),
    result (FourierShear._operation self v adjoint) = Ok r ->
    exists f, r = VField f.
Proof.
  intros env self v r adjoint.
  unfold FourierShear._operation, result, bind, np.lift, np.call_fftn,
         np.call_ifftn, ret, raise.
  destruct (as_field v) as [fld|e]; simpl; [|discriminate].
  destruct (FourierShear._filter self) as [flt|]; simpl; [|discriminate].
  destruct (np.imul _ _) as [g|e]; simpl; [|discriminate].
  destruct (reshape_m1 _ _) as [res|e]; simpl; [|discriminate].
  intro H. inversion H. eexists. reflexivity.
Qed.

Lemma shear_operation_rejects_tuple :
  forall (env : Env) (self : FourierShear.t) (l : list (PyVal C)) (adjoint : bool),
    FourierShear._operation self (VTuple l) adjoint = (Raise AttributeError, []).
Proof. reflexivity. Qed.

(** C1 fails on the code for FourierRotation. Whatever [forward] or
    [backward] of a rotation returns is the tuple of the three sheared
    fields, not a field: there is no inner product of it with a field. *)
Theorem rotation_returns_three_fields :
  forall (env : Env) (self : FourierRotation.t) (v r : PyVal C) (adjoint : bool),
    result (FourierRotation._operation self v adjoint) = Ok r ->
    exists f1 f2 f3, r = VTuple [VField f1; VField f2; VField f3].
Proof.
  intros env self v r adjoint.
  unfold FourierRotation._operation, result, bind, ret.
  destruct (FourierShear._operation (FourierRotation._shear_x self) v adjoint)
    as [[r1|e] t1] eqn:E1; simpl; [|discriminate].
  destruct (FourierShear._operation (FourierRotation._shear_y self) r1 adjoint)
    as [[r2|e] t2] eqn:E2; simpl; [|discriminate].
  destruct (FourierShear._operation (FourierRotation._shear_x self) r2 adjoint)
    as [[r3|e] t3] eqn:E3; simpl; [|discriminate].
  intro H. inversion H; subst.
  destruct (@shear_operation_returns_field
              env (FourierRotation._shear_x self) v r1 adjoint) as [f1 H1];
    [unfold result; rewrite E1; reflexivity|].
  destruct (@shear_operation_returns_field
              env (FourierRotation._shear_y self) r1 r2 adjoint) as [f2 H2];
    [unfold result; rewrite E2; reflexivity|].
  destruct (@shear_operation_returns_field
              env (FourierRotation._shear_x self) r2 r3 adjoint) as [f3 H3];
    [unfold result; rewrite E3; reflexivity|].
  subst. exists f1, f2, f3. reflexivity.
Qed.

Lemma rotation_returns_three_fields_witness :
  exists r f1 f2 f3,
    result (FourierRotation.forward Ex.rotation0 (VField Ex.u2)) = Ok r /\
    r = VTuple [VField f1; VField f2; VField f3].
Proof.
  destruct (result (FourierRotation.forward Ex.rotation0 (VField Ex.u2)))
    as [r|e] eqn:H.
  - destruct (@rotation_returns_three_fields Ref.env Ex.rotation0 (VField Ex.u2) r false H)
      as (f1 & f2 & f3 & Hr).
    exists r, f1, f2, f3. split; [reflexivity | exact Hr].
  - exfalso.
    assert (Hok : is_ok (result (FourierRotation.forward Ex.rotation0 (VField Ex.u2)))
                  = true) by (vm_compute; reflexivity).
    rewrite H in Hok. discriminate Hok.
Defined.

(** C2 fails on the code. On a grid of 2 by 2 samples and for the angle
    0, [forward] returns the tuple of the three sheared fields, and
    [forward] of the rotation by the opposite angle, given that value,
    raises AttributeError. *)
Theorem rotation_round_trip_raises :
  option_map Ex.value_samples
    (Ex.value (bind (FourierRotation.__init__ Ex.g2 0%Q)
                    (fun rot => FourierRotation.forward rot (VField Ex.u2))))
  = Some [[(1, 0); (2, 0); (3, 0); (4, 0)];
          [(1, 0); (2, 0); (3, 0); (4, 0)];
          [(1, 0); (2, 0); (3, 0); (4, 0)]]%Q /\
  option_map Ex.is_tuple
    (Ex.value (bind (FourierRotation.__init__ Ex.g2 0%Q)
                    (fun rot => FourierRotation.forward rot (VField Ex.u2))))
  = Some true /\
  Ex.raised
    (bind (FourierRotation.__init__ Ex.g2 0%Q)
          (fun rot =>
             bind (FourierRotation.forward rot (VField Ex.u2))
                  (fun r =>
                     bind (FourierRotation.__init__ Ex.g2 (- 0)%Q)
                          (fun back => FourierRotation.forward back r))))
  = Some AttributeError.
Proof.
  repeat split; vm_compute; reflexivity.
Qed.

(** ** Row-major positions, slices and broadcasting *)

Lemma ravel_unravel :
  forall (s : list nat) (k : nat),
    shape_size s <> 0%nat -> ravel s (unravel s k) = (k mod shape_size s)%nat.
Proof.
  induction s as [|n rest IH]; intros k Hs.
  - cbn [ravel unravel shape_size fold_right]. rewrite Nat.mod_1_r. reflexivity.
  - change (shape_size (n :: rest)) with (n * shape_size rest)%nat in *.
    cbn [ravel unravel].
    assert (Hr : shape_size rest <> 0%nat) by (intro E; rewrite E in Hs; lia).
    rewrite IH by exact Hr.
    rewrite (Nat.mul_comm n (shape_size rest)).
    rewrite Nat.Div0.mod_mul_r. lia.
Qed.

Lemma unravel_length :
  forall (s : list nat) (k : nat), length (unravel s k) = length s.
Proof. induction s; intro k; simpl; [reflexivity | f_equal; apply IHs]. Qed.

Lemma unravel_ones :
  forall (s : list nat) (k : nat),
    Forall2 (fun n i => n = 1%nat -> i = 0%nat) s (unravel s k).
Proof.
  induction s as [|n rest IH]; intro k; cbn [unravel]; constructor.
  - intro E. subst n. apply Nat.mod_1_r.
  - apply IH.
Qed.

Lemma Forall2_rev_both :
  forall (A B : Type) (R : A -> B -> Prop) (l : list A) (m : list B),
    Forall2 R l m -> Forall2 R (rev l) (rev m).
Proof.
  intros A B R l m H. induction H; simpl.
  - constructor.
  - apply Forall2_app; [assumption | constructor; [assumption | constructor]].
Qed.

Lemma broadcast_index_rev_same :
  forall src idx : list nat,
    Forall2 (fun n i => n = 1%nat -> i = 0%nat) src idx ->
    broadcast_index_rev src idx = idx.
Proof.
  intros src idx H. induction H as [|n i src idx Hn H IH]; simpl.
  - reflexivity.
  - rewrite IH. destruct (n =? 1)%nat eqn:E; [|reflexivity].
    apply Nat.eqb_eq in E. rewrite (Hn E). reflexivity.
Qed.

Lemma broadcast_pos_same :
  forall (s : list nat) (k : nat),
    (k < shape_size s)%nat -> broadcast_pos s s k = k.
Proof.
  intros s k Hk. unfold broadcast_pos.
  rewrite broadcast_index_rev_same
    by (apply Forall2_rev_both; apply unravel_ones).
  rewrite rev_involutive. rewrite ravel_unravel by lia.
  apply Nat.mod_small. exact Hk.
Qed.

Lemma map_nth_seq :
  forall (A : Type) (l : list A) (d : A),
    map (fun k => nth k l d) (seq 0 (length l)) = l.
Proof.
  intros A l d. apply nth_ext with (d := d) (d' := d).
  - rewrite length_map, length_seq. reflexivity.
  - intros n Hn. rewrite length_map, length_seq in Hn.
    rewrite (nth_indep _ d (nth 0 l d)) by (rewrite length_map, length_seq; exact Hn).
    rewrite (map_nth (fun k => nth k l d) (seq 0 (length l)) 0%nat n).
    rewrite seq_nth by exact Hn. reflexivity.
Qed.

Lemma list_set_length :
  forall (A : Type) (l : list A) (i : nat) (x : A),
    length (list_set l i x) = length l.
Proof.
  induction l as [|y l IH]; intros i x; simpl; [reflexivity|].
  destruct i; simpl; [reflexivity | f_equal; apply IH].
Qed.

Lemma list_set_nth_other :
  forall (A : Type) (l : list A) (i j : nat) (x d : A),
    i <> j -> nth j (list_set l i x) d = nth j l d.
Proof.
  induction l as [|y l IH]; intros i j x d Hij; simpl; [reflexivity|].
  destruct i, j; simpl; try reflexivity; [lia|].
  apply IH. lia.
Qed.

Lemma list_set_map :
  forall (A B : Type) (f : A -> B) (l : list A) (i : nat) (x : A),
    map f (list_set l i x) = list_set (map f l) i (f x).
Proof.
  induction l as [|y l IH]; intros i x; simpl; [reflexivity|].
  destruct i; simpl; [reflexivity | f_equal; apply IH].
Qed.

Lemma scatter_cons :
  forall (A : Type) (l : list A) (i : nat) (idx : list nat) (x : A) (vals : list A),
    scatter l (i :: idx) (x :: vals) = scatter (list_set l i x) idx vals.
Proof. reflexivity. Qed.

Lemma scatter_length :
  forall (A : Type) (idx : list nat) (vals l : list A),
    length (scatter l idx vals) = length l.
Proof.
  induction idx as [|i idx IH]; intros vals l.
  - reflexivity.
  - destruct vals as [|x vals]; [reflexivity|].
    rewrite scatter_cons, IH. apply list_set_length.
Qed.

Lemma scatter_map :
  forall (A B : Type) (f : A -> B) (idx : list nat) (vals l : list A),
    map f (scatter l idx vals) = scatter (map f l) idx (map f vals).
Proof.
  induction idx as [|i idx IH]; intros vals l.
  - reflexivity.
  - destruct vals as [|x vals]; [reflexivity|].
    simpl map. rewrite !scatter_cons, IH, list_set_map. reflexivity.
Qed.

Lemma flat_map_length_const :
  forall (A B : Type) (f : A -> list B) (m : nat) (l : list A),
    (forall x, length (f x) = m) ->
    length (flat_map f l) = (length l * m)%nat.
Proof.
  intros A B f m l Hf. induction l as [|x l IH]; simpl.
  - reflexivity.
  - rewrite length_app, Hf, IH. reflexivity.
Qed.

(** The positions of a slice are distinct positions of the array, one for
    each element of the slice. *)
Lemma region_indices_spec :
  forall (s : list nat) (c : list slice),
    NoDup (region_indices s c) /\
    Forall (fun i => (i < shape_size s)%nat) (region_indices s c) /\
    length (region_indices s c) = shape_size (region_shape s c).
Proof.
  induction s as [|n rest IH]; intro c.
  - simpl. split; [|split].
    + constructor; [intros [] | constructor].
    + constructor; [lia | constructor].
    + destruct c; reflexivity.
  - assert (E : exists sl c', region_indices (n :: rest) c
                  = flat_map (fun i => map (fun j => (i * shape_size rest + j)%nat)
                                           (region_indices rest c'))
                             (seq (fst (slice_bounds n sl))
                                  (snd (slice_bounds n sl) - fst (slice_bounds n sl)))
                  /\ region_shape (n :: rest) c
                     = slice_len n sl :: region_shape rest c').
    { destruct c as [|sl c'].
      - exists SliceAll, []. split.
        + reflexivity.
        + simpl. unfold slice_len. simpl. rewrite Nat.sub_0_r.
          destruct rest; reflexivity.
      - exists sl, c'. split; [|reflexivity].
        simpl. destruct (slice_bounds n sl). reflexivity. }
    destruct E as (sl & c' & -> & ->).
    destruct (IH c') as (Hnd & Hlt & Hlen).
    assert (Hb : (snd (slice_bounds n sl) <= n)%nat).
    { destruct sl; simpl; [lia | apply Nat.le_min_r]. }
    unfold slice_len. destruct (slice_bounds n sl) as [a b]. simpl fst in *. simpl snd in *.
    rewrite Forall_forall in Hlt.
    split; [|split].
    + (* distinct *)
      generalize (seq_NoDup (b - a) a).
      induction (seq a (b - a)) as [|i l IHl]; intro Hl; simpl.
      * constructor.
      * inversion Hl as [|? ? Hi Hl']; subst.
        apply NoDup_app.
        { apply Finite.Injective_map_NoDup; [|exact Hnd].
          intros x y Hxy. lia. }
        { apply IHl. exact Hl'. }
        { intros x Hx1 Hx2.
          apply in_map_iff in Hx1. destruct Hx1 as (j & <- & Hj).
          apply in_flat_map in Hx2. destruct Hx2 as (i' & Hi' & Hx2).
          apply in_map_iff in Hx2. destruct Hx2 as (j' & Hjj & Hj').
          apply Hlt in Hj. apply Hlt in Hj'.
          assert (i' <> i) by (intro; subst; contradiction).
          nia. }
    + apply Forall_forall. intros x Hx.
      apply in_flat_map in Hx. destruct Hx as (i & Hi & Hx).
      apply in_map_iff in Hx. destruct Hx as (j & <- & Hj).
      apply in_seq in Hi. apply Hlt in Hj. simpl. nia.
    + change (shape_size ((b - a)%nat :: region_shape rest c'))
        with ((b - a) * shape_size (region_shape rest c'))%nat.
      rewrite <- Hlen.
      rewrite (@flat_map_length_const _ _ _ (length (region_indices rest c')))
        by (intro i; apply length_map).
      rewrite length_seq. reflexivity.
Qed.

(** ** Adjoints

    Under the laws of [Laws], the backward call of a shear, of a shift and
    of a filter with a scalar transfer function is the adjoint of the
    forward call. *)

Section Adjoint.
Context {env : Env} {laws : Laws env}.

Lemma inner_nil_r : forall a : list C, inner a [] = C0.
Proof. intro a. unfold inner. destruct a; reflexivity. Qed.

Lemma inner_cons :
  forall (x y : C) (a b : list C),
    inner (x :: a) (y :: b) = Cadd (Cmul (Cconj x) y) (inner a b).
Proof. reflexivity. Qed.

(** A product with [d] on the left of an inner product moves to the right
    as a product with the conjugate of [d]. *)
Lemma inner_mul :
  forall a d b : list C,
    inner (map (fun p => Cmul (fst p) (snd p)) (combine a d)) b
    = inner a (map (fun p => Cmul (fst p) (snd p)) (combine b (map Cconj d))).
Proof.
  induction a as [|x a IH]; intros d b.
  - reflexivity.
  - destruct d as [|y d]; [destruct b; reflexivity|].
    destruct b as [|z b]; [simpl; rewrite inner_nil_r; reflexivity|].
    simpl. rewrite !inner_cons, IH. f_equal.
    rewrite Cconj_mul, <- Cmul_assoc. f_equal. apply Cmul_comm.
Qed.

Lemma broadcast_data_conj :
  forall (g : ndarray C) (tgt : list nat),
    np.broadcast_data (np.conj g) tgt = map Cconj (np.broadcast_data g tgt).
Proof.
  intros g tgt. unfold np.broadcast_data, np.conj. simpl.
  rewrite map_map. apply map_ext. intro k.
  rewrite <- Cconj_0 at 1. apply map_nth.
Qed.

Lemma broadcast_data_length :
  forall (g : ndarray C) (tgt : list nat),
    length (np.broadcast_data g tgt) = shape_size tgt.
Proof.
  intros g tgt. unfold np.broadcast_data. rewrite length_map, length_seq. reflexivity.
Qed.

Lemma imul_ok :
  forall f g r : ndarray C,
    np.imul f g = Ok r ->
    shape r = shape f /\
    data r = map (fun p => Cmul (fst p) (snd p))
                 (combine (data f) (np.broadcast_data g (shape f))).
Proof.
  intros f g r. unfold np.imul.
  destruct (broadcastable (shape g) (shape f)); [|discriminate].
  intro H. inversion H. split; reflexivity.
Qed.

Lemma imul_well_formed :
  forall f g r : ndarray C,
    well_formed f -> np.imul f g = Ok r -> well_formed r.
Proof.
  intros f g r Hf H. destruct (imul_ok f g H) as [Hs Hd].
  unfold well_formed in *. rewrite Hs, Hd, length_map, length_combine.
  rewrite broadcast_data_length, Hf. apply Nat.min_id.
Qed.

(** Transform, multiply, transform back: with the conjugate factor it is
    the adjoint. *)
Lemma sandwich_adjoint :
  forall (axes : list Z) (x y d X Y : ndarray C),
    well_formed x -> well_formed y -> shape x = shape y ->
    np.imul (fftn axes x) d = Ok X ->
    np.imul (fftn axes y) (np.conj d) = Ok Y ->
    inner (data (ifftn axes X)) (data y) = inner (data x) (data (ifftn axes Y)).
Proof.
  intros axes x y d X Y Hx Hy Hs HX HY.
  destruct (imul_ok _ _ HX) as [HXs HXd].
  destruct (imul_ok _ _ HY) as [HYs HYd].
  assert (HXw : well_formed X)
    by (eapply imul_well_formed; [apply fftn_well_formed; exact Hx | exact HX]).
  assert (HYw : well_formed Y)
    by (eapply imul_well_formed; [apply fftn_well_formed; exact Hy | exact HY]).
  rewrite fftn_shape in HXs, HYs.
  rewrite ifftn_adjoint by (try assumption; congruence).
  rewrite <- fftn_adjoint by (try assumption; congruence).
  rewrite HXs. f_equal.
  rewrite HXd, HYd, inner_mul, broadcast_data_conj, !fftn_shape, Hs.
  reflexivity.
Qed.

Lemma reshape_m1_data :
  forall (a r : ndarray C) (prefix : list nat),
    reshape_m1 a prefix = Ok r -> data r = data a.
Proof.
  intros a r prefix. unfold reshape_m1.
  destruct (shape_size prefix =? 0)%nat; [discriminate|].
  intro H. inversion H. reflexivity.
Qed.

Lemma shaped_data : forall f : Field C, data (shaped f) = data (arr f).
Proof. reflexivity. Qed.

(** What a successful call of a shear computes. *)
Lemma shear_operation_ok :
  forall (self : FourierShear.t) (u : Field C) (r : PyVal C) (adjoint : bool),
    result (FourierShear._operation self (VField u) adjoint) = Ok r ->
    exists (flt X : ndarray C) (f : Field C),
      FourierShear._filter self = Some flt /\
      np.imul (fftn [(- Z.of_nat (FourierShear.shear_dim self) - 1)%Z] (shaped u))
              (if adjoint then np.conj flt else flt) = Ok X /\
      r = VField f /\
      data (arr f)
      = data (ifftn [(- Z.of_nat (FourierShear.shear_dim self) - 1)%Z] X).
Proof.
  intros self u r adjoint.
  unfold FourierShear._operation, result, bind, np.lift, np.call_fftn,
         np.call_ifftn, ret, raise. simpl.
  destruct (FourierShear._filter self) as [flt|]; simpl; [|discriminate].
  destruct (np.imul _ _) as [X|e] eqn:EX; simpl; [|discriminate].
  destruct (reshape_m1 _ _) as [res|e] eqn:ER; simpl; [|discriminate].
  intro H. inversion H; subst.
  exists flt, X. eexists. split; [reflexivity|]. split; [exact EX|].
  split; [reflexivity|]. simpl. eapply reshape_m1_data. exact ER.
Qed.

(** For a shear, [backward] is the adjoint of [forward]. *)
Lemma shear_backward_is_adjoint :
  forall (self : FourierShear.t) (u v : Field C) (Fu Bv : PyVal C),
    well_formed (shaped u) -> well_formed (shaped v) ->
    shape (shaped u) = shape (shaped v) ->
    result (FourierShear.forward self (VField u)) = Ok Fu ->
    result (FourierShear.backward self (VField v)) = Ok Bv ->
    exists fu bv,
      Fu = VField fu /\ Bv = VField bv /\
      inner (data (arr fu)) (data (arr v)) = inner (data (arr u)) (data (arr bv)).
Proof.
  intros self u v Fu Bv Hu Hv Hs HF HB.
  unfold FourierShear.forward in HF. unfold FourierShear.backward in HB.
  apply shear_operation_ok in HF. apply shear_operation_ok in HB.
  destruct HF as (flt & X & fu & Hflt & HX & HFu & Hfu).
  destruct HB as (flt' & Y & bv & Hflt' & HY & HBv & Hbv).
  rewrite Hflt in Hflt'. inversion Hflt'; subst flt'.
  exists fu, bv. repeat split; try assumption.
  rewrite Hfu, Hbv, <- (shaped_data v), <- (shaped_data u).
  eapply sandwich_adjoint; eassumption.
Qed.

Lemma drop_last_app :
  forall ts gs : list nat,
    gs <> [] -> drop_last (length gs) (ts ++ gs) = ts.
Proof.
  intros ts gs Hgs. unfold drop_last.
  destruct (length gs) eqn:E.
  - destruct gs; [contradiction | discriminate].
  - rewrite <- E, length_app, Nat.add_sub, firstn_app, firstn_all, Nat.sub_diag.
    simpl. apply app_nil_r.
Qed.

Lemma grid_shape_nonempty :
  forall g : Grid, grid_consistent g ->
    grid_shape g <> [] /\ ndim g = length (grid_shape g).
Proof.
  intros g [Hn Hd]. unfold grid_shape. split.
  - intro H. apply Hd. destruct (dims g) as [|a l]; [reflexivity|].
    simpl in H. destruct (rev l); discriminate.
  - rewrite length_rev. exact Hn.
Qed.

(** A successful shear returns a field of the shape of its input. *)
Lemma shear_operation_shape :
  forall (self : FourierShear.t) (u f : Field C) (adjoint : bool),
    grid_consistent (grid u) ->
    well_formed (shaped u) ->
    result (FourierShear._operation self (VField u) adjoint) = Ok (VField f) ->
    well_formed (shaped f) /\ shape (shaped f) = shape (shaped u) /\
    grid_consistent (grid f).
Proof.
  intros self u f adjoint Hg Hu.
  destruct (grid_shape_nonempty Hg) as [Hne Hnd].
  unfold FourierShear._operation, result, bind, np.lift, np.call_fftn,
         np.call_ifftn, ret, raise. simpl.
  destruct (FourierShear._filter self) as [flt|]; simpl; [|discriminate].
  destruct (np.imul _ _) as [X|e] eqn:EX; simpl; [|discriminate].
  assert (HXw : well_formed X)
    by (eapply imul_well_formed; [apply fftn_well_formed; exact Hu | exact EX]).
  destruct (imul_ok _ _ EX) as [HXs _]. rewrite fftn_shape in HXs.
  unfold reshape_m1. rewrite ifftn_shape, HXs. simpl shape at 1 2 3.
  rewrite Hnd, drop_last_app by exact Hne.
  destruct (shape_size (tensor_shape u) =? 0)%nat; simpl; [discriminate|].
  intro H. inversion H; subst. clear H.
  unfold shaped, tensor_shape, well_formed. simpl.
  rewrite removelast_last. split; [|split; [reflexivity | exact Hg]].
  pose proof (ifftn_well_formed [(- Z.of_nat (FourierShear.shear_dim self) - 1)%Z] HXw)
    as Hw.
  unfold well_formed in Hw. rewrite ifftn_shape, HXs in Hw. exact Hw.
Qed.

Lemma shear_adjoint_fields :
  forall (self : FourierShear.t) (a b fa bb : Field C),
    well_formed (shaped a) -> well_formed (shaped b) ->
    shape (shaped a) = shape (shaped b) ->
    result (FourierShear._operation self (VField a) false) = Ok (VField fa) ->
    result (FourierShear._operation self (VField b) true) = Ok (VField bb) ->
    inner (data (arr fa)) (data (arr b)) = inner (data (arr a)) (data (arr bb)).
Proof.
  intros self a b fa bb Ha Hb Hs HF HB.
  destruct (@shear_backward_is_adjoint self a b (VField fa) (VField bb)
              Ha Hb Hs HF HB) as (fu & bv & E1 & E2 & H).
  inversion E1; inversion E2; subst. exact H.
Qed.

(** For a rotation, the third component of what [backward] returns is the
    adjoint of the third component of what [forward] returns. *)
Lemma rotation_third_component_is_adjoint :
  forall (self : FourierRotation.t) (u v : Field C) (Fu Bv : PyVal C),
    grid_consistent (grid u) -> grid_consistent (grid v) ->
    well_formed (shaped u) -> well_formed (shaped v) ->
    shape (shaped u) = shape (shaped v) ->
    result (FourierRotation.forward self (VField u)) = Ok Fu ->
    result (FourierRotation.backward self (VField v)) = Ok Bv ->
    exists f1 f2 f3 b1 b2 b3,
      Fu = VTuple [VField f1; VField f2; VField f3] /\
      Bv = VTuple [VField b1; VField b2; VField b3] /\
      inner (data (arr f3)) (data (arr v)) = inner (data (arr u)) (data (arr b3)).
Proof.
  intros self u v Fu Bv Hgu Hgv Hu Hv Hs.
  unfold FourierRotation.forward, FourierRotation.backward,
         FourierRotation._operation, result, bind, ret.
  destruct (FourierShear._operation (FourierRotation._shear_x self) (VField u) false)
    as [[r1|e] t1] eqn:E1; simpl; [|discriminate].
  destruct (shear_operation_returns_field (FourierRotation._shear_x self)
              (VField u) false (r := r1)) as [f1 ->];
    [unfold result; rewrite E1; reflexivity|].
  destruct (FourierShear._operation (FourierRotation._shear_y self) (VField f1) false)
    as [[r2|e] t2] eqn:E2; simpl; [|discriminate].
  destruct (shear_operation_returns_field (FourierRotation._shear_y self)
              (VField f1) false (r := r2)) as [f2 ->];
    [unfold result; rewrite E2; reflexivity|].
  destruct (FourierShear._operation (FourierRotation._shear_x self) (VField f2) false)
    as [[r3|e] t3] eqn:E3; simpl; [|discriminate].
  destruct (shear_operation_returns_field (FourierRotation._shear_x self)
              (VField f2) false (r := r3)) as [f3 ->];
    [unfold result; rewrite E3; reflexivity|].
  intro HF. inversion HF; subst Fu. clear HF.
  destruct (FourierShear._operation (FourierRotation._shear_x self) (VField v) true)
    as [[s1|e] q1] eqn:B1; simpl; [|discriminate].
  destruct (shear_operation_returns_field (FourierRotation._shear_x self)
              (VField v) true (r := s1)) as [b1 ->];
    [unfold result; rewrite B1; reflexivity|].
  destruct (FourierShear._operation (FourierRotation._shear_y self) (VField b1) true)
    as [[s2|e] q2] eqn:B2; simpl; [|discriminate].
  destruct (shear_operation_returns_field (FourierRotation._shear_y self)
              (VField b1) true (r := s2)) as [b2 ->];
    [unfold result; rewrite B2; reflexivity|].
  destruct (FourierShear._operation (FourierRotation._shear_x self) (VField b2) true)
    as [[s3|e] q3] eqn:B3; simpl; [|discriminate].
  destruct (shear_operation_returns_field (FourierRotation._shear_x self)
              (VField b2) true (r := s3)) as [b3 ->];
    [unfold result; rewrite B3; reflexivity|].
  intro HB. inversion HB; subst Bv. clear HB.
  exists f1, f2, f3, b1, b2, b3. split; [reflexivity|]. split; [reflexivity|].
  assert (R1 : result (FourierShear._operation (FourierRotation._shear_x self)
                         (VField u) false) = Ok (VField f1))
    by (unfold result; rewrite E1; reflexivity).
  assert (R2 : result (FourierShear._operation (FourierRotation._shear_y self)
                         (VField f1) false) = Ok (VField f2))
    by (unfold result; rewrite E2; reflexivity).
  assert (R3 : result (FourierShear._operation (FourierRotation._shear_x self)
                         (VField f2) false) = Ok (VField f3))
    by (unfold result; rewrite E3; reflexivity).
  assert (S1 : result (FourierShear._operation (FourierRotation._shear_x self)
                         (VField v) true) = Ok (VField b1))
    by (unfold result; rewrite B1; reflexivity).
  assert (S2 : result (FourierShear._operation (FourierRotation._shear_y self)
                         (VField b1) true) = Ok (VField b2))
    by (unfold result; rewrite B2; reflexivity).
  assert (S3 : result (FourierShear._operation (FourierRotation._shear_x self)
                         (VField b2) true) = Ok (VField b3))
    by (unfold result; rewrite B3; reflexivity).
  destruct (@shear_operation_shape _ u f1 false Hgu Hu R1) as (W1 & Sh1 & G1).
  destruct (@shear_operation_shape _ f1 f2 false G1 W1 R2) as (W2 & Sh2 & G2).
  destruct (@shear_operation_shape _ v b1 true Hgv Hv S1) as (V1 & Th1 & K1).
  destruct (@shear_operation_shape _ b1 b2 true K1 V1 S2) as (V2 & Th2 & K2).
  assert (A3 : shape (shaped f2) = shape (shaped v)) by congruence.
  assert (A2 : shape (shaped f1) = shape (shaped b1)) by congruence.
  assert (A1 : shape (shaped u) = shape (shaped b2)) by congruence.
  rewrite (@shear_adjoint_fields _ f2 v f3 b1 W2 Hv A3 R3 S1).
  rewrite (@shear_adjoint_fields _ f1 b1 f2 b2 W1 V1 A2 R2 S2).
  exact (@shear_adjoint_fields _ u b2 f1 b3 Hu V2 A1 R1 S3).
Qed.

(** *** Padding and cropping *)

Lemma Cadd_0_r : forall x : C, Cadd x C0 = x.
Proof. intro x. rewrite Cadd_comm. apply Cadd_0_l. Qed.

Lemma Cmul_0_l : forall x : C, Cmul C0 x = C0.
Proof. intro x. rewrite Cmul_comm. apply Cmul_0_r. Qed.

Lemma inner_zeros_r : forall (Y : list C) (n : nat), inner Y (repeat C0 n) = C0.
Proof.
  induction Y as [|y Y IH]; intro n.
  - reflexivity.
  - destruct n; [reflexivity|]. simpl repeat.
    rewrite inner_cons, IH, Cmul_0_r. apply Cadd_0_l.
Qed.

Lemma inner_zeros_l : forall (Y : list C) (n : nat), inner (repeat C0 n) Y = C0.
Proof.
  intros Y n. revert Y. induction n as [|n IH]; intro Y.
  - reflexivity.
  - destruct Y as [|y Y]; [reflexivity|]. simpl repeat.
    rewrite inner_cons, IH, Cconj_0, Cmul_0_l. apply Cadd_0_l.
Qed.

Lemma inner_list_set_r :
  forall (Y base : list C) (i : nat) (x : C),
    length Y = length base -> (i < length base)%nat -> nth i base C0 = C0 ->
    inner Y (list_set base i x)
    = Cadd (inner Y base) (Cmul (Cconj (nth i Y C0)) x).
Proof.
  induction Y as [|y Y IH]; intros base i x Hl Hi Hz.
  - destruct base; simpl in *; [lia | discriminate].
  - destruct base as [|b base]; [discriminate|].
    destruct i as [|i]; simpl in *.
    + subst b. rewrite !inner_cons, Cmul_0_r, Cadd_0_l. apply Cadd_comm.
    + rewrite !inner_cons, IH by (try assumption; lia).
      apply Cadd_assoc.
Qed.

Lemma inner_list_set_l :
  forall (Y base : list C) (i : nat) (x : C),
    length Y = length base -> (i < length base)%nat -> nth i base C0 = C0 ->
    inner (list_set base i x) Y
    = Cadd (inner base Y) (Cmul (Cconj x) (nth i Y C0)).
Proof.
  induction Y as [|y Y IH]; intros base i x Hl Hi Hz.
  - destruct base; simpl in *; [lia | discriminate].
  - destruct base as [|b base]; [discriminate|].
    destruct i as [|i]; simpl in *.
    + subst b. rewrite !inner_cons, Cconj_0, Cmul_0_l, Cadd_0_l. apply Cadd_comm.
    + rewrite !inner_cons, IH by (try assumption; lia).
      apply Cadd_assoc.
Qed.

(** Writing [vals] at distinct positions [idx] of a list that is zero
    there, and reading the positions [idx], are adjoint. *)
Lemma inner_scatter_r :
  forall (idx : list nat) (vals Y base : list C),
    NoDup idx ->
    (forall i, In i idx -> (i < length base)%nat /\ nth i base C0 = C0) ->
    length Y = length base ->
    inner Y (scatter base idx vals)
    = Cadd (inner Y base) (inner (map (fun i => nth i Y C0) idx) vals).
Proof.
  induction idx as [|i idx IH]; intros vals Y base Hnd Hin Hl.
  - simpl. unfold scatter. simpl. symmetry. apply Cadd_0_r.
  - destruct vals as [|x vals].
    + unfold scatter. simpl. rewrite inner_nil_r. symmetry. apply Cadd_0_r.
    + inversion Hnd as [|? ? Hni Hnd']; subst.
      rewrite scatter_cons. simpl map. rewrite inner_cons.
      rewrite IH.
      * rewrite inner_list_set_r by (try assumption; apply Hin; left; reflexivity).
        symmetry. apply Cadd_assoc.
      * exact Hnd'.
      * intros j Hj. rewrite list_set_length.
        rewrite list_set_nth_other by (intro; subst; contradiction).
        apply Hin. right. exact Hj.
      * rewrite list_set_length. exact Hl.
Qed.

Lemma inner_scatter_l :
  forall (idx : list nat) (vals Y base : list C),
    NoDup idx ->
    (forall i, In i idx -> (i < length base)%nat /\ nth i base C0 = C0) ->
    length Y = length base ->
    inner (scatter base idx vals) Y
    = Cadd (inner base Y) (inner vals (map (fun i => nth i Y C0) idx)).
Proof.
  induction idx as [|i idx IH]; intros vals Y base Hnd Hin Hl.
  - simpl. unfold scatter. simpl. rewrite inner_nil_r. symmetry. apply Cadd_0_r.
  - destruct vals as [|x vals].
    + unfold scatter. simpl. symmetry. apply Cadd_0_r.
    + inversion Hnd as [|? ? Hni Hnd']; subst.
      rewrite scatter_cons. simpl map. rewrite inner_cons.
      rewrite IH.
      * rewrite inner_list_set_l by (try assumption; apply Hin; left; reflexivity).
        symmetry. apply Cadd_assoc.
      * exact Hnd'.
      * intros j Hj. rewrite list_set_length.
        rewrite list_set_nth_other by (intro; subst; contradiction).
        apply Hin. right. exact Hj.
      * rewrite list_set_length. exact Hl.
Qed.

Lemma nth_repeat_zero : forall n i : nat, nth i (repeat C0 n) C0 = C0.
Proof.
  induction n as [|n IH]; intro i; destruct i; simpl; try reflexivity. apply IH.
Qed.

Lemma broadcast_data_same :
  forall a : ndarray C, well_formed a -> np.broadcast_data a (shape a) = data a.
Proof.
  intros a Ha. unfold np.broadcast_data.
  rewrite (map_ext_in _ (fun k => nth k (data a) C0)).
  - rewrite <- Ha. apply map_nth_seq.
  - intros k Hk. apply in_seq in Hk. rewrite broadcast_pos_same by lia. reflexivity.
Qed.

Lemma setitem_fits :
  forall (a v r : ndarray C) (c : list slice),
    np.setitem a c v = Ok r -> (length (shape a) <? length c)%nat = false.
Proof.
  intros a v r c H. unfold np.setitem in H.
  destruct (length (shape a) <? length c)%nat; [discriminate H | reflexivity].
Qed.

Lemma setitem_ok :
  forall (a v r : ndarray C) (c : list slice),
    np.setitem a c v = Ok r ->
    dtype v = dtype a ->
    shape v = region_shape (shape a) c ->
    well_formed v ->
    shape r = shape a /\
    data r = scatter (data a) (region_indices (shape a) c) (data v).
Proof.
  intros a v r c H Hd Hs Hv. unfold np.setitem in H.
  destruct (length (shape a) <? length c)%nat; [discriminate H|].
  rewrite <- Hs, Nat.sub_diag in H. simpl strip_leading_ones in H.
  destruct (broadcastable _ _); [|discriminate].
  rewrite Hd in H.
  assert (E : dtype_eqb (dtype a) (dtype a) = true) by (destruct (dtype a); reflexivity).
  rewrite E in H. inversion H. simpl. split; [reflexivity|].
  apply (f_equal (scatter (data a) (region_indices (shape a) c))).
  exact (@broadcast_data_same (np.reshape v (shape v)) Hv).
Qed.

(** Cropping to a slice is the adjoint of padding with zeros around it. *)
Lemma pad_crop_adjoint :
  forall (buf v px Y : ndarray C) (c : list slice),
    data buf = repeat C0 (shape_size (shape buf)) ->
    np.setitem buf c v = Ok px ->
    dtype v = dtype buf ->
    shape v = region_shape (shape buf) c ->
    well_formed v ->
    shape Y = shape buf -> well_formed Y ->
    np.getitem Y c = Ok (np.region Y c) /\
    inner (data (np.region Y c)) (data v) = inner (data Y) (data px) /\
    inner (data px) (data Y) = inner (data v) (data (np.region Y c)).
Proof.
  intros buf v px Y c Hz Hset Hd Hs Hv HYs HY.
  split.
  { unfold np.getitem. rewrite HYs, (@setitem_fits buf v px c Hset). reflexivity. }
  destruct (@setitem_ok buf v px c Hset Hd Hs Hv) as [_ Hpx].
  destruct (region_indices_spec (shape buf) c) as (Hnd & Hlt & _).
  rewrite Forall_forall in Hlt.
  assert (Hin : forall i, In i (region_indices (shape buf) c) ->
                  (i < length (data buf))%nat /\ nth i (data buf) C0 = C0).
  { intros i Hi. rewrite Hz, repeat_length. split; [apply Hlt; exact Hi|].
    apply nth_repeat_zero. }
  assert (Hl : length (data Y) = length (data buf)).
  { rewrite HY, HYs, Hz, repeat_length. reflexivity. }
  unfold np.region. simpl data. rewrite HYs, Hpx. split.
  - rewrite inner_scatter_r by assumption.
    rewrite Hz, inner_zeros_r, Cadd_0_l. reflexivity.
  - rewrite inner_scatter_l by assumption.
    rewrite Hz, inner_zeros_l, Cadd_0_l. reflexivity.
Qed.

Lemma setitem_well_formed :
  forall (a v r : ndarray C) (c : list slice),
    well_formed a -> np.setitem a c v = Ok r ->
    well_formed r /\ shape r = shape a.
Proof.
  intros a v r c Ha H. unfold np.setitem in H.
  destruct (length (shape a) <? length c)%nat; [discriminate H|].
  destruct (broadcastable _ _); [|discriminate].
  inversion H. unfold well_formed. simpl. rewrite scatter_length. split; [exact Ha | reflexivity].
Qed.

(** *** The filter *)

Lemma dtype_eqb_eq : forall a b : Dtype, dtype_eqb a b = true -> a = b.
Proof. intros [] []; simpl; intro H; try reflexivity; discriminate H. Qed.

Lemma dtype_eqb_refl : forall a : Dtype, dtype_eqb a a = true.
Proof. intros []; reflexivity. Qed.

Lemma natlist_eqb_refl : forall l : list nat, natlist_eqb l l = true.
Proof.
  intro l. unfold natlist_eqb. rewrite Nat.eqb_refl. simpl.
  induction l as [|a l IH]; simpl; [reflexivity|].
  rewrite Nat.eqb_refl. exact IH.
Qed.

Lemma shape_size_app :
  forall a b : list nat, shape_size (a ++ b) = (shape_size a * shape_size b)%nat.
Proof.
  induction a as [|x a IH]; intro b.
  - simpl. lia.
  - change (shape_size ((x :: a) ++ b)) with (x * shape_size (a ++ b))%nat.
    change (shape_size (x :: a)) with (x * shape_size a)%nat.
    rewrite IH. lia.
Qed.

Lemma shape_size_rev : forall a : list nat, shape_size (rev a) = shape_size a.
Proof.
  induction a as [|x a IH].
  - reflexivity.
  - simpl rev. rewrite shape_size_app, IH.
    change (shape_size [x]) with (x * 1)%nat.
    change (shape_size (x :: a)) with (x * shape_size a)%nat. lia.
Qed.

Lemma removelast_length :
  forall (A : Type) (l : list A), length (removelast l) = (length l - 1)%nat.
Proof.
  intros A l. destruct l as [|a l] using rev_ind.
  - reflexivity.
  - rewrite removelast_last, length_app. simpl. lia.
Qed.

Lemma tensor_order_shape :
  forall f : Field C, tensor_order f = length (tensor_shape f).
Proof.
  intro f. unfold tensor_order, tensor_shape, np.array_ndim.
  symmetry. apply removelast_length.
Qed.

Lemma fresh_buffer_spec :
  forall (self : FourierFilter.t) (f : Field C),
    shape (fresh_buffer self f)
    = tensor_shape f ++ grid_shape (FourierFilter.internal_grid self) /\
    dtype (fresh_buffer self f) = field_dtype f /\
    data (np.fill_zero (fresh_buffer self f))
    = repeat C0 (shape_size (shape (fresh_buffer self f))) /\
    well_formed (np.fill_zero (fresh_buffer self f)).
Proof.
  intros self f.
  assert (Hs : shape (fresh_buffer self f)
               = tensor_shape f ++ grid_shape (FourierFilter.internal_grid self)).
  { unfold fresh_buffer, shaped, tensor_shape, grid_zeros. simpl.
    rewrite removelast_last. reflexivity. }
  assert (Hd : data (np.fill_zero (fresh_buffer self f))
               = repeat C0 (shape_size (shape (fresh_buffer self f)))).
  { rewrite Hs. unfold fresh_buffer, shaped, grid_zeros, np.fill_zero. simpl.
    rewrite !shape_size_app. unfold grid_shape, grid_size.
    rewrite shape_size_rev.
    change (shape_size [shape_size (dims (FourierFilter.internal_grid self))])
      with (shape_size (dims (FourierFilter.internal_grid self)) * 1)%nat.
    rewrite Nat.mul_1_r.
    generalize (shape_size (tensor_shape f)
                * shape_size (dims (FourierFilter.internal_grid self)))%nat.
    intro n. induction n; simpl; [reflexivity | f_equal; assumption]. }
  split; [exact Hs|]. split; [reflexivity|]. split; [exact Hd|].
  unfold well_formed. rewrite Hd, repeat_length. reflexivity.
Qed.

Lemma compute_transfer_function_some :
  forall (self : FourierFilter.t) (u : Field C),
    exists tf,
      FourierFilter._transfer_function (FourierFilter._compute_functions self u)
      = Some tf /\
      dtype tf = field_dtype u.
Proof.
  intros self u. unfold FourierFilter._compute_functions. simpl.
  destruct (FourierFilter.recompute_transfer_function self u) eqn:E.
  - eexists. split; [reflexivity|]. unfold np.astype.
    destruct (dtype_eqb _ _) eqn:D; [apply dtype_eqb_eq; exact D | reflexivity].
  - unfold FourierFilter.recompute_transfer_function in E.
    destruct (FourierFilter._transfer_function self) as [tf|]; [|discriminate].
    exists tf. split; [reflexivity|].
    apply dtype_eqb_eq. apply negb_false_iff. exact E.
Qed.

Lemma compute_keeps_transfer_function :
  forall (s : FourierFilter.t) (v : Field C) (tf : ndarray C),
    FourierFilter._transfer_function s = Some tf ->
    dtype tf = field_dtype v ->
    FourierFilter._transfer_function (FourierFilter._compute_functions s v) = Some tf.
Proof.
  intros s v tf Htf Hd. unfold FourierFilter._compute_functions. simpl.
  unfold FourierFilter.recompute_transfer_function.
  rewrite Htf, Hd, dtype_eqb_refl. reflexivity.
Qed.

Lemma compute_internal_array_some :
  forall (self : FourierFilter.t) (u : Field C),
    FourierFilter.internal_array (FourierFilter._compute_functions self u)
    = if FourierFilter.recompute_internal_array self u
      then Some (fresh_buffer self u)
      else FourierFilter.internal_array self.
Proof. reflexivity. Qed.

(** What a successful call of a filter with a scalar transfer function
    computes. *)
Lemma filter_operation_scalar :
  forall (self s1 : FourierFilter.t) (u Fu : Field C) (adjoint : bool)
         (tf : ndarray C),
    let s := FourierFilter._compute_functions self u in
    let axes := last_axes (ndim (FourierFilter.input_grid s)) in
    let tf' := if adjoint then np.conj tf else tf in
    FourierFilter._transfer_function s = Some tf ->
    (Z.of_nat (np.array_ndim tf)
     - Z.of_nat (ndim (FourierFilter.internal_grid s)) =? 2)%Z = false ->
    result (FourierFilter._operation self u adjoint) = Ok (Fu, s1) ->
    match FourierFilter.cutout s with
    | None =>
        exists X,
          np.imul (fftn axes (shaped u)) tf' = Ok X /\
          data (arr Fu) = data (ifftn axes X) /\ s1 = s
    | Some co =>
        let c := repeat SliceAll (tensor_order u) ++ co in
        exists buf px X,
          FourierFilter.internal_array s = Some buf /\
          np.setitem (np.fill_zero buf) c (shaped u) = Ok px /\
          np.imul (fftn axes px) tf' = Ok X /\
          data (arr Fu) = data (np.region (ifftn axes X) c) /\
          s1 = FourierFilter.with_internal_array s px
    end.
Proof.
  intros self s1 u Fu adjoint tf s axes tf' Htf Hsc.
  rewrite result_operation. unfold operation_body. fold s. fold axes.
  clearbody s. clear self.
  unfold FourierFilter.apply_transfer_function, FourierFilter.attr,
         result, bind, ret, raise, np.lift, np.call_fftn, np.call_ifftn.
  destruct (FourierFilter.cutout s) as [co|] eqn:Hco.
  - destruct (FourierFilter.internal_array s) as [buf|]; simpl; [|discriminate].
    destruct (np.setitem _ _ _) as [px|e] eqn:Hpx; simpl; [|discriminate].
    rewrite Htf. simpl. rewrite Hsc. simpl. fold tf'.
    destruct (np.imul _ tf') as [X|e] eqn:HX; simpl; [|discriminate].
    rewrite Hco.
    destruct (np.getitem _ _) as [g|e] eqn:Hg; simpl; [|discriminate].
    destruct (reshape_m1 _ _) as [res|e] eqn:Hres; simpl; [|discriminate].
    intro H. inversion H; subst. clear H.
    exists buf, px, X. repeat split; try assumption.
    simpl. rewrite (@reshape_m1_data _ _ _ Hres).
    unfold np.getitem in Hg.
    destruct (_ <? _)%nat; [discriminate Hg|]. inversion Hg. reflexivity.
  - simpl. rewrite Htf. simpl. rewrite Hsc. simpl. fold tf'.
    destruct (np.imul _ tf') as [X|e] eqn:HX; simpl; [|discriminate].
    rewrite Hco.
    destruct (reshape_m1 _ _) as [res|e] eqn:Hres; simpl; [|discriminate].
    intro H. inversion H; subst. clear H.
    exists X. repeat split; try assumption.
    exact (@reshape_m1_data _ _ _ Hres).
Qed.

Lemma recompute_internal_array_after :
  forall (s : FourierFilter.t) (px : ndarray C) (v : Field C) (gs : list nat),
    shape px = tensor_shape v ++ gs ->
    FourierFilter.recompute_internal_array (FourierFilter.with_internal_array s px) v
    = true.
Proof.
  intros s px v gs Hs. unfold FourierFilter.recompute_internal_array. simpl.
  rewrite Hs, tensor_order_shape, firstn_app, firstn_all, Nat.sub_diag.
  simpl. rewrite app_nil_r, natlist_eqb_refl. apply orb_true_r.
Qed.

(** For a filter with a scalar transfer function, [backward] after
    [forward] is its adjoint, for fields of one shape and dtype and a
    filter that allocates its buffer on the first of the two calls (as a
    new filter does). *)
Lemma filter_backward_is_adjoint :
  forall (self s1 s2 : FourierFilter.t) (u v Fu Bv : Field C) (tf : ndarray C),
    FourierFilter.recompute_internal_array self u = true ->
    FourierFilter._transfer_function (FourierFilter._compute_functions self u)
    = Some tf ->
    (Z.of_nat (np.array_ndim tf)
     - Z.of_nat (ndim (FourierFilter.internal_grid self)) =? 2)%Z = false ->
    field_dtype u = field_dtype v ->
    shape (arr u) = shape (arr v) ->
    grid u = grid v ->
    well_formed (shaped u) -> well_formed (shaped v) ->
    (forall co, FourierFilter.cutout self = Some co ->
       region_shape (tensor_shape u ++ grid_shape (FourierFilter.internal_grid self))
                    (repeat SliceAll (tensor_order u) ++ co)
       = shape (shaped u)) ->
    result (FourierFilter.forward self u) = Ok (Fu, s1) ->
    result (FourierFilter.backward s1 v) = Ok (Bv, s2) ->
    inner (data (arr Fu)) (data (arr v)) = inner (data (arr u)) (data (arr Bv)).
Proof.
  intros self s1 s2 u v Fu Bv tf Hre Htf Hsc Hdt Hsh Hg Hu Hv Hfit HF HB.
  assert (Hts : tensor_shape u = tensor_shape v)
    by (unfold tensor_shape; rewrite Hsh; reflexivity).
  assert (Hto : tensor_order u = tensor_order v)
    by (unfold tensor_order, np.array_ndim; rewrite Hsh; reflexivity).
  assert (Hss : shape (shaped u) = shape (shaped v))
    by (unfold shaped; simpl; rewrite Hts, Hg; reflexivity).
  assert (Htd : dtype tf = field_dtype v).
  { destruct (compute_transfer_function_some self u) as (tf0 & E & D).
    rewrite Htf in E. inversion E; subst tf0. rewrite D. exact Hdt. }
  unfold FourierFilter.forward in HF. unfold FourierFilter.backward in HB.
  pose proof (@filter_operation_scalar self s1 u Fu false tf Htf Hsc HF) as CF.
  cbv zeta in CF.
  change (FourierFilter.cutout (FourierFilter._compute_functions self u))
    with (FourierFilter.cutout self) in CF.
  change (FourierFilter.input_grid (FourierFilter._compute_functions self u))
    with (FourierFilter.input_grid self) in CF.
  destruct (FourierFilter.cutout self) as [co|] eqn:Hco.
  - (* padding *)
    destruct CF as (buf & px & X & Hbuf & Hpx & HX & HFu & Hs1).
    rewrite compute_internal_array_some, Hre in Hbuf.
    inversion Hbuf; subst buf. clear Hbuf.
    destruct (fresh_buffer_spec self u) as (Bs & Bd & Bz & Bw).
    destruct (@setitem_well_formed _ _ _ _ Bw Hpx) as [Pw Ps].
    assert (Hpxs : shape px
                   = tensor_shape v ++ grid_shape (FourierFilter.internal_grid self)).
    { rewrite Ps.
      change (shape (np.fill_zero (fresh_buffer self u)))
        with (shape (fresh_buffer self u)).
      rewrite Bs, Hts. reflexivity. }
    assert (Htf1 : FourierFilter._transfer_function
                     (FourierFilter._compute_functions s1 v) = Some tf).
    { apply compute_keeps_transfer_function; [|exact Htd].
      rewrite Hs1. exact Htf. }
    assert (Hsc1 : (Z.of_nat (np.array_ndim tf)
                    - Z.of_nat (ndim (FourierFilter.internal_grid
                                        (FourierFilter._compute_functions s1 v)))
                    =? 2)%Z = false).
    { rewrite Hs1. exact Hsc. }
    pose proof (@filter_operation_scalar s1 s2 v Bv true tf Htf1 Hsc1 HB) as CB.
    cbv zeta in CB.
    change (FourierFilter.cutout (FourierFilter._compute_functions s1 v))
      with (FourierFilter.cutout s1) in CB.
    change (FourierFilter.input_grid (FourierFilter._compute_functions s1 v))
      with (FourierFilter.input_grid s1) in CB.
    rewrite compute_internal_array_some in CB.
    rewrite Hs1 in CB.
    rewrite (@recompute_internal_array_after _ px v _ Hpxs) in CB.
    change (FourierFilter.cutout
              (FourierFilter.with_internal_array
                 (FourierFilter._compute_functions self u) px))
      with (FourierFilter.cutout self) in CB.
    rewrite Hco in CB.
    destruct CB as (buf' & py & Y & Hbuf' & Hpy & HY & HBv & Hs2).
    inversion Hbuf'; subst buf'. clear Hbuf'.
    set (axes := last_axes (ndim (FourierFilter.input_grid self))) in *.
    change (last_axes
              (ndim (FourierFilter.input_grid
                       (FourierFilter.with_internal_array
                          (FourierFilter._compute_functions self u) px))))
      with axes in *.
    set (s1' := FourierFilter.with_internal_array
                  (FourierFilter._compute_functions self u) px) in *.
    destruct (fresh_buffer_spec s1' v) as (Cs & Cd & Cz & Cw).
    change (FourierFilter.internal_grid s1')
      with (FourierFilter.internal_grid self) in Cs.
    destruct (@setitem_well_formed _ _ _ _ Cw Hpy) as [Qw Qs].
    change (shape (np.fill_zero (fresh_buffer s1' v)))
      with (shape (fresh_buffer s1' v)) in Qs.
    change (shape (np.fill_zero (fresh_buffer self u)))
      with (shape (fresh_buffer self u)) in Ps.
    assert (Hxy : shape px = shape py) by (rewrite Ps, Qs, Bs, Cs, Hts; reflexivity).
    destruct (imul_ok _ _ HX) as [HXs _]. rewrite fftn_shape in HXs.
    destruct (imul_ok _ _ HY) as [HYs _]. rewrite fftn_shape in HYs.
    assert (HXw : well_formed X)
      by (eapply imul_well_formed; [apply fftn_well_formed; exact Pw | exact HX]).
    assert (HYw : well_formed Y)
      by (eapply imul_well_formed; [apply fftn_well_formed; exact Qw | exact HY]).
    pose proof (Hfit co eq_refl) as Hfu.
    assert (Hfv : shape (shaped v)
                  = region_shape (shape (np.fill_zero (fresh_buffer s1' v)))
                                 (repeat SliceAll (tensor_order v) ++ co)).
    { change (shape (np.fill_zero (fresh_buffer s1' v)))
        with (shape (fresh_buffer s1' v)).
      rewrite Cs, <- Hts, <- Hto, Hfu. symmetry. exact Hss. }
    assert (Hfu' : shape (shaped u)
                   = region_shape (shape (np.fill_zero (fresh_buffer self u)))
                                  (repeat SliceAll (tensor_order u) ++ co)).
    { change (shape (np.fill_zero (fresh_buffer self u)))
        with (shape (fresh_buffer self u)).
      rewrite Bs, Hfu. reflexivity. }
    assert (D1 : dtype (shaped v) = dtype (np.fill_zero (fresh_buffer s1' v)))
      by reflexivity.
    assert (D2 : dtype (shaped u) = dtype (np.fill_zero (fresh_buffer self u)))
      by reflexivity.
    assert (S1 : shape (ifftn axes X) = shape (np.fill_zero (fresh_buffer s1' v))).
    { rewrite ifftn_shape, HXs, Hxy, Qs. reflexivity. }
    assert (S2 : shape (ifftn axes Y) = shape (np.fill_zero (fresh_buffer self u))).
    { rewrite ifftn_shape, HYs, <- Hxy, Ps. reflexivity. }
    pose proof (ifftn_well_formed axes HXw) as W1.
    pose proof (ifftn_well_formed axes HYw) as W2.
    destruct (@pad_crop_adjoint (np.fill_zero (fresh_buffer s1' v)) (shaped v) py
                (ifftn axes X) (repeat SliceAll (tensor_order v) ++ co)
                Cz Hpy D1 Hfv Hv S1 W1) as (_ & A1 & _).
    destruct (@pad_crop_adjoint (np.fill_zero (fresh_buffer self u)) (shaped u) px
                (ifftn axes Y) (repeat SliceAll (tensor_order u) ++ co)
                Bz Hpx D2 Hfu' Hu S2 W2) as (_ & _ & A2).
    rewrite HFu, HBv, Hto.
    change (data (arr v)) with (data (shaped v)).
    change (data (arr u)) with (data (shaped u)).
    rewrite A1. rewrite <- Hto, <- A2.
    eapply sandwich_adjoint; eassumption.
  - (* no padding *)
    destruct CF as (X & HX & HFu & Hs1). subst s1.
    assert (Htf1 : FourierFilter._transfer_function
                     (FourierFilter._compute_functions
                        (FourierFilter._compute_functions self u) v) = Some tf)
      by (apply compute_keeps_transfer_function; assumption).
    pose proof (@filter_operation_scalar (FourierFilter._compute_functions self u)
                  s2 v Bv true tf Htf1 Hsc HB) as CB.
    cbv zeta in CB.
    change (FourierFilter.cutout
              (FourierFilter._compute_functions
                 (FourierFilter._compute_functions self u) v))
      with (FourierFilter.cutout self) in CB.
    rewrite Hco in CB.
    destruct CB as (Y & HY & HBv & _).
    rewrite HFu, HBv, <- (shaped_data v), <- (shaped_data u).
    eapply sandwich_adjoint; eassumption.
Qed.

(** *** The shift *)

(** For a shift, [backward] is the adjoint of [forward], on complex
    fields of one shape. *)
Lemma shift_backward_is_adjoint :
  forall (self : FourierShift.t) (u v Fu Bv : Field C),
    field_dtype u = complex128 -> field_dtype v = complex128 ->
    well_formed (shaped u) -> well_formed (shaped v) ->
    shape (shaped u) = shape (shaped v) ->
    result (FourierShift.forward self u) = Ok Fu ->
    result (FourierShift.backward self v) = Ok Bv ->
    inner (data (arr Fu)) (data (arr v)) = inner (data (arr u)) (data (arr Bv)).
Proof.
  intros self u v Fu Bv Du Dv Hu Hv Hs.
  unfold FourierShift.forward, FourierShift.backward, FourierShift._operation.
  destruct (FourierShift._shift_filter self) as [flt|].
  - unfold result, bind, ret, np.lift, np.call_fftn, np.call_ifftn. simpl.
    destruct (np.imul (fftn _ (shaped u)) flt) as [X|e] eqn:HX; simpl; [|discriminate].
    destruct (reshape_m1 (ifftn _ X) _) as [r1|e] eqn:R1; simpl; [|discriminate].
    intro HF. inversion HF; subst Fu. clear HF.
    destruct (np.imul (fftn _ (shaped v)) (np.conj flt)) as [Y|e] eqn:HY; simpl;
      [|discriminate].
    destruct (reshape_m1 (ifftn _ Y) _) as [r2|e] eqn:R2; simpl; [|discriminate].
    intro HB. inversion HB; subst Bv. clear HB.
    simpl. rewrite (@reshape_m1_data _ _ _ R1), (@reshape_m1_data _ _ _ R2).
    rewrite <- (shaped_data v), <- (shaped_data u).
    eapply sandwich_adjoint; eassumption.
  - unfold result, ret. simpl.
    intro HF. inversion HF; subst Fu. clear HF.
    intro HB. inversion HB; subst Bv. clear HB.
    rewrite !field_astype_same_dtype by assumption. reflexivity.
Qed.

End Adjoint.

(** The laws hold of Gaussian rationals and of the transform of single
    samples. *)
Lemma laws_of_unit_env : Laws Ref.unit_env.
Proof.
  refine {| fft_scale := fun _ _ => (Ref.G1 : @C Ref.unit_env) |}; simpl;
    try (intros [a b]; try intros [c d]; try intros [e f];
         unfold Ref.Gadd, Ref.Gmul, Ref.Gconj, Ref.G0, Ref.G1; simpl;
         f_equal; ring).
  all: try (unfold Ref.Gconj, Ref.G0; simpl; f_equal; ring).
  all: try reflexivity.
  all: try (intros axes a H; exact H).
  all: intros axes a b _ _ _;
    destruct (inner (env := Ref.unit_env) (data a) (data b)) as [x y];
    unfold Ref.Gmul, Ref.G1; simpl; f_equal; ring.
Defined.

(** The laws hold as well of the transform of two samples along the axes
    of an array of 2 by 2 samples. *)
Lemma natlist_eqb_square :
  forall a : list nat, natlist_eqb a [2; 2]%nat = true -> a = [2; 2]%nat.
Proof.
  intros [|x [|y [|z a]]] H; try (unfold natlist_eqb in H; simpl in H; discriminate H).
  unfold natlist_eqb in H. simpl in H.
  apply andb_true_iff in H. destruct H as [Hx H].
  apply andb_true_iff in H. destruct H as [Hy _].
  apply Nat.eqb_eq in Hx. apply Nat.eqb_eq in Hy. subst. reflexivity.
Qed.

Lemma dft2_axis_shape :
  forall (inverse : bool) (ax : Z) (a : ndarray Ref.G),
    shape (Ref.dft2_axis inverse ax a) = shape a.
Proof.
  intros inverse ax a. unfold Ref.dft2_axis.
  destruct (natlist_eqb (shape a) [2; 2]%nat); [|reflexivity].
  destruct (data a) as [|? [|? [|? [|? [|? ?]]]]]; try reflexivity.
  destruct (normalize_axis 2 ax) as [|[p|p|]|p]; reflexivity.
Qed.

Lemma dft2_axis_well_formed :
  forall (inverse : bool) (ax : Z) (a : ndarray Ref.G),
    well_formed a -> well_formed (Ref.dft2_axis inverse ax a).
Proof.
  intros inverse ax a Ha. unfold Ref.dft2_axis.
  destruct (natlist_eqb (shape a) [2; 2]%nat); [|exact Ha].
  destruct (data a) as [|? [|? [|? [|? [|? ?]]]]] eqn:Hd; try exact Ha.
  unfold well_formed in Ha. rewrite Hd in Ha.
  destruct (normalize_axis 2 ax) as [|[p|p|]|p]; unfold well_formed;
    try (rewrite Hd); exact Ha.
Qed.

Lemma square_fftn_shape :
  forall (axes : list Z) (a : ndarray Ref.G),
    shape (Ref.square_fftn axes a) = shape a.
Proof.
  induction axes as [|ax axes IH]; intro a; simpl; [reflexivity|].
  rewrite dft2_axis_shape. apply IH.
Qed.

Lemma square_ifftn_shape :
  forall (axes : list Z) (a : ndarray Ref.G),
    shape (Ref.square_ifftn axes a) = shape a.
Proof.
  induction axes as [|ax axes IH]; intro a; simpl; [reflexivity|].
  unfold Ref.square_ifftn in IH. rewrite IH. apply dft2_axis_shape.
Qed.

Lemma square_fftn_well_formed :
  forall (axes : list Z) (a : ndarray Ref.G),
    well_formed a -> well_formed (Ref.square_fftn axes a).
Proof.
  induction axes as [|ax axes IH]; intros a Ha; simpl; [exact Ha|].
  apply dft2_axis_well_formed. apply IH. exact Ha.
Qed.

Lemma square_ifftn_well_formed :
  forall (axes : list Z) (a : ndarray Ref.G),
    well_formed a -> well_formed (Ref.square_ifftn axes a).
Proof.
  induction axes as [|ax axes IH]; intros a Ha; simpl; [exact Ha|].
  unfold Ref.square_ifftn in IH. apply IH. apply dft2_axis_well_formed. exact Ha.
Qed.

Lemma Gmul_1_l :
  forall z : Ref.G, Ref.Gmul Ref.G1 z = z.
Proof.
  intros [x y]. unfold Ref.Gmul, Ref.G1, Ref.re, Ref.cplx. simpl. f_equal; ring.
Qed.

Ltac gaussian :=
  repeat match goal with
         | z : Ref.G |- _ => destruct z
         | z : @C Ref.square_env |- _ => destruct z
         end;
  unfold inner, Csum; simpl;
  unfold Ref.dft2_factor, Ref.Gadd, Ref.Gsub, Ref.Gmul, Ref.Gconj,
    Ref.Gscale, Ref.G0, Ref.G1, Ref.re, Ref.cplx;
  simpl; f_equal; ring.

(** Along one axis, the inverse transform is the adjoint of the forward
    transform up to the factor of the axis, and the other way round. *)
Lemma dft2_axis_adjoint :
  forall (ax : Z) (a b : ndarray Ref.G),
    well_formed a -> well_formed b -> shape a = shape b ->
    inner (env := Ref.square_env) (data (Ref.dft2_axis true ax a)) (data b)
    = Ref.Gmul (Ref.dft2_factor ax (shape a))
        (inner (env := Ref.square_env) (data a) (data (Ref.dft2_axis false ax b)))
    /\ Ref.Gmul (Ref.dft2_factor ax (shape a))
         (inner (env := Ref.square_env) (data (Ref.dft2_axis false ax a)) (data b))
       = inner (env := Ref.square_env) (data a) (data (Ref.dft2_axis true ax b)).
Proof.
  intros ax a b Ha Hb Hs. unfold Ref.dft2_axis at 1 2 3 4. unfold Ref.dft2_factor.
  rewrite <- Hs.
  destruct (natlist_eqb (shape a) [2; 2]%nat) eqn:E.
  - apply natlist_eqb_square in E. unfold well_formed in Ha, Hb.
    rewrite <- Hs in Hb. rewrite E in Ha, Hb. simpl in Ha, Hb.
    destruct (data a) as [|a0 [|a1 [|a2 [|a3 [|? ?]]]]] eqn:Hda; try discriminate Ha.
    destruct (data b) as [|b0 [|b1 [|b2 [|b3 [|? ?]]]]] eqn:Hdb; try discriminate Hb.
    destruct (normalize_axis 2 ax) as [|[p|p|]|p]; split;
      try (cbv iota; rewrite ?Hda, ?Hdb, Gmul_1_l; reflexivity); gaussian.
  - split; rewrite Gmul_1_l; reflexivity.
Qed.

Lemma square_ifftn_adjoint :
  forall (axes : list Z) (a b : ndarray Ref.G),
    well_formed a -> well_formed b -> shape a = shape b ->
    inner (env := Ref.square_env) (data (Ref.square_ifftn axes a)) (data b)
    = Ref.Gmul (Ref.square_scale axes (shape a))
        (inner (env := Ref.square_env) (data a) (data (Ref.square_fftn axes b))).
Proof.
  induction axes as [|ax axes IH]; intros a b Ha Hb Hs.
  - simpl. rewrite Gmul_1_l. reflexivity.
  - change (Ref.square_ifftn (ax :: axes) a)
      with (Ref.square_ifftn axes (Ref.dft2_axis true ax a)).
    change (Ref.square_fftn (ax :: axes) b)
      with (Ref.dft2_axis false ax (Ref.square_fftn axes b)).
    change (Ref.square_scale (ax :: axes) (shape a))
      with (Ref.Gmul (Ref.dft2_factor ax (shape a)) (Ref.square_scale axes (shape a))).
    rewrite (IH _ b (dft2_axis_well_formed true ax Ha) Hb)
      by (rewrite dft2_axis_shape; exact Hs).
    rewrite dft2_axis_shape.
    rewrite (proj1 (@dft2_axis_adjoint ax a (Ref.square_fftn axes b) Ha
                      (square_fftn_well_formed axes Hb)
                      (eq_trans Hs (eq_sym (square_fftn_shape axes b))))).
    generalize (inner (env := Ref.square_env) (data a)
                  (data (Ref.dft2_axis false ax (Ref.square_fftn axes b)))).
    generalize (Ref.dft2_factor ax (shape a)).
    generalize (Ref.square_scale axes (shape a)).
    intros x y z. gaussian.
Qed.

Lemma square_fftn_adjoint :
  forall (axes : list Z) (a b : ndarray Ref.G),
    well_formed a -> well_formed b -> shape a = shape b ->
    Ref.Gmul (Ref.square_scale axes (shape a))
      (inner (env := Ref.square_env) (data (Ref.square_fftn axes a)) (data b))
    = inner (env := Ref.square_env) (data a) (data (Ref.square_ifftn axes b)).
Proof.
  induction axes as [|ax axes IH]; intros a b Ha Hb Hs.
  - simpl. rewrite Gmul_1_l. reflexivity.
  - change (Ref.square_ifftn (ax :: axes) b)
      with (Ref.square_ifftn axes (Ref.dft2_axis true ax b)).
    change (Ref.square_fftn (ax :: axes) a)
      with (Ref.dft2_axis false ax (Ref.square_fftn axes a)).
    change (Ref.square_scale (ax :: axes) (shape a))
      with (Ref.Gmul (Ref.dft2_factor ax (shape a)) (Ref.square_scale axes (shape a))).
    rewrite <- (IH a _ Ha (dft2_axis_well_formed true ax Hb))
      by (rewrite dft2_axis_shape; exact Hs).
    rewrite <- (proj2 (@dft2_axis_adjoint ax (Ref.square_fftn axes a) b
                         (square_fftn_well_formed axes Ha) Hb
                         (eq_trans (square_fftn_shape axes a) Hs))).
    rewrite square_fftn_shape.
    generalize (inner (env := Ref.square_env)
                  (data (Ref.dft2_axis false ax (Ref.square_fftn axes a))) (data b)).
    generalize (Ref.dft2_factor ax (shape a)).
    generalize (Ref.square_scale axes (shape a)).
    intros x y z. gaussian.
Qed.

Lemma laws_of_square_env : Laws Ref.square_env.
Proof.
  refine {| fft_scale := (Ref.square_scale : list Z -> list nat -> @C Ref.square_env) |};
    simpl;
    try (intros [a b]; try intros [c d]; try intros [e f];
         unfold Ref.Gadd, Ref.Gmul, Ref.Gconj, Ref.G0, Ref.G1; simpl;
         f_equal; ring).
  all: try (unfold Ref.Gconj, Ref.G0; simpl; f_equal; ring).
  - exact square_fftn_shape.
  - exact square_ifftn_shape.
  - exact square_fftn_well_formed.
  - exact square_ifftn_well_formed.
  - exact square_ifftn_adjoint.
  - exact square_fftn_adjoint.
Defined.

(** On the reference environment, with the transform of four samples and
    a complex scalar transfer function on the padded grid, and with the
    transform of two samples and a matrix transfer function, the two inner
    products of the adjoint identity have one value. *)
Example filter_adjoint_on_reference :
  option_map (fun rs => Ex.vdot (fst rs) Ex.cv)
    (Ex.value (FourierFilter.forward (FourierFilter.__init__ Ex.g1 Ex.ctf 2) Ex.cu))
  = Some (13 # 4, -7 # 2)%Q /\
  option_map (fun rs => Ex.vdot Ex.cu (fst rs))
    (Ex.value (bind (FourierFilter.forward (FourierFilter.__init__ Ex.g1 Ex.ctf 2) Ex.cu)
                    (fun rs => FourierFilter.backward (snd rs) Ex.cv)))
  = Some (13 # 4, -7 # 2)%Q /\
  option_map (fun rs => Ex.vdot (fst rs) Ex.cv2)
    (Ex.value (FourierFilter.forward (FourierFilter.__init__ Ex.g1 Ex.mtf 1) Ex.cu2))
  = Some (14, -1)%Q /\
  option_map (fun rs => Ex.vdot Ex.cu2 (fst rs))
    (Ex.value (bind (FourierFilter.forward (FourierFilter.__init__ Ex.g1 Ex.mtf 1) Ex.cu2)
                    (fun rs => FourierFilter.backward (snd rs) Ex.cv2)))
  = Some (14, -1)%Q.
Proof.
  repeat split; vm_compute; reflexivity.
Qed.

(** * Further properties *)

(** ** Results of sequenced calls *)

Lemma bind_ok :
  forall (A B : Type) (m : Py A) (k : A -> Py B) (b : B),
    result (bind m k) = Ok b ->
    exists a, result m = Ok a /\ result (k a) = Ok b /\
              fft_calls (bind m k) = fft_calls m ++ fft_calls (k a).
Proof.
  intros A B m k b. unfold result, fft_calls, bind.
  destruct m as [[a|e] t]; simpl; [|discriminate].
  destruct (k a) as [r t'] eqn:E. simpl. intro H. subst r.
  exists a. rewrite E. simpl. repeat split.
Qed.

Lemma bind_inv :
  forall (A B : Type) (m : Py A) (k : A -> Py B) (b : B) (t : list FFTCall),
    bind m k = (Ok b, t) ->
    exists a t1 t2, m = (Ok a, t1) /\ k a = (Ok b, t2) /\ t = t1 ++ t2.
Proof.
  intros A B m k b t H. unfold bind in H.
  destruct m as [[a|e] t1]; [|discriminate].
  destruct (k a) as [r t2] eqn:E. inversion H; subst.
  exists a, t1, t2. split; [reflexivity|]. split; [exact E | reflexivity].
Qed.

(** ** FourierFilter: the caches between calls *)

Lemma filter_ext :
  forall (env : Env) (a b : FourierFilter.t),
    FourierFilter.input_grid a = FourierFilter.input_grid b ->
    FourierFilter.internal_grid a = FourierFilter.internal_grid b ->
    FourierFilter.cutout a = FourierFilter.cutout b ->
    FourierFilter.shape_in a = FourierFilter.shape_in b ->
    FourierFilter.transfer_function a = FourierFilter.transfer_function b ->
    FourierFilter._transfer_function a = FourierFilter._transfer_function b ->
    FourierFilter.internal_array a = FourierFilter.internal_array b ->
    a = b.
Proof.
  intros env [] []; simpl; intros; subst; reflexivity.
Qed.

(** The test on the buffer reads its shape and its dtype only. *)
Lemma recompute_internal_array_congr :
  forall (env : Env) (a b : FourierFilter.t) (x y : ndarray C) (field : Field C),
    FourierFilter.internal_array a = Some x ->
    FourierFilter.internal_array b = Some y ->
    shape x = shape y -> dtype x = dtype y ->
    FourierFilter.recompute_internal_array a field
    = FourierFilter.recompute_internal_array b field.
Proof.
  intros env a b x y field Ha Hb Hs Hd.
  unfold FourierFilter.recompute_internal_array, np.array_ndim.
  rewrite Ha, Hb, Hs, Hd. reflexivity.
Qed.

Lemma recompute_internal_array_matching :
  forall (env : Env) (s : FourierFilter.t) (a : ndarray C) (field : Field C)
         (gs : list nat),
    FourierFilter.internal_array s = Some a ->
    shape a = tensor_shape field ++ gs ->
    FourierFilter.recompute_internal_array s field = true.
Proof.
  intros env s a field gs Ha Hs.
  unfold FourierFilter.recompute_internal_array. rewrite Ha, Hs.
  rewrite tensor_order_shape, firstn_app, firstn_all, Nat.sub_diag.
  simpl. rewrite app_nil_r, natlist_eqb_refl. apply orb_true_r.
Qed.

Lemma compute_functions_idempotent :
  forall (env : Env) (self : FourierFilter.t) (field : Field C),
    FourierFilter._compute_functions (FourierFilter._compute_functions self field) field
    = FourierFilter._compute_functions self field.
Proof.
  intros env self field.
  apply filter_ext; try reflexivity.
  - destruct (compute_transfer_function_some self field) as (tf & Htf & Hd).
    rewrite Htf. apply compute_keeps_transfer_function; assumption.
  - rewrite !compute_internal_array_some.
    destruct (FourierFilter.recompute_internal_array self field) eqn:R.
    + rewrite (@recompute_internal_array_matching env
                 (FourierFilter._compute_functions self field)
                 (fresh_buffer self field) field
                 (grid_shape (FourierFilter.internal_grid self))).
      * reflexivity.
      * rewrite compute_internal_array_some, R. reflexivity.
      * apply fresh_buffer_spec.
    + assert (E : FourierFilter.recompute_internal_array
                    (FourierFilter._compute_functions self field) field = false).
      { unfold FourierFilter.recompute_internal_array in *.
        rewrite compute_internal_array_some.
        unfold FourierFilter.recompute_internal_array. rewrite R.
        destruct (FourierFilter.internal_array self); [exact R | discriminate R]. }
      rewrite E. reflexivity.
Qed.

(** X1. [_compute_functions] leaves a cached transfer function of the
    dtype of the field and an allocated buffer, and calling it again with
    the same field changes nothing. *)
Theorem compute_functions_establishes_caches :
  forall (env : Env) (self : FourierFilter.t) (field : Field C),
    (exists tf a,
       FourierFilter._transfer_function (FourierFilter._compute_functions self field)
       = Some tf /\
       dtype tf = field_dtype field /\
       FourierFilter.internal_array (FourierFilter._compute_functions self field)
       = Some a) /\
    FourierFilter._compute_functions (FourierFilter._compute_functions self field) field
    = FourierFilter._compute_functions self field.
Proof.
  intros env self field. split; [|apply compute_functions_idempotent].
  destruct (compute_transfer_function_some self field) as (tf & Htf & Hd).
  rewrite compute_internal_array_some.
  unfold FourierFilter.recompute_internal_array.
  destruct (FourierFilter.internal_array self) as [b|] eqn:E.
  - destruct (_ || _); exists tf; eexists;
      (split; [exact Htf | split; [exact Hd | reflexivity]]).
  - exists tf. eexists. split; [exact Htf | split; [exact Hd | reflexivity]].
Qed.

Lemma operation_body_final_state :
  forall (env : Env) (s s1 : FourierFilter.t) (u F : Field C) (adjoint : bool)
         (t : list FFTCall),
    operation_body s u adjoint = (Ok (F, s1), t) ->
    match FourierFilter.cutout s with
    | None => s1 = s
    | Some co =>
        exists buf px,
          FourierFilter.internal_array s = Some buf /\
          np.setitem (np.fill_zero buf) (repeat SliceAll (tensor_order u) ++ co)
                     (shaped u) = Ok px /\
          s1 = FourierFilter.with_internal_array s px
    end.
Proof.
  intros env s s1 u F adjoint t.
  unfold operation_body, FourierFilter.attr, bind, ret, raise, np.lift,
         np.call_fftn, np.call_ifftn.
  destruct (FourierFilter.cutout s) as [co|] eqn:Hco.
  - destruct (FourierFilter.internal_array s) as [buf|]; simpl; [|discriminate].
    destruct (np.setitem _ _ _) as [px|e] eqn:Hpx; simpl; [|discriminate].
    destruct (FourierFilter._transfer_function s) as [tf|]; simpl; [|discriminate].
    destruct (FourierFilter.apply_transfer_function _ _ _ _) as [[f|e] t1]; simpl;
      [|discriminate].
    rewrite Hco.
    destruct (np.getitem _ _) as [g'|e']; simpl; [|discriminate].
    destruct (reshape_m1 _ _) as [res|e]; simpl; [|discriminate].
    intro H. inversion H; subst. exists buf, px. repeat split. exact Hpx.
  - simpl.
    destruct (FourierFilter._transfer_function s) as [tf|]; simpl; [|discriminate].
    destruct (FourierFilter.apply_transfer_function _ _ _ _) as [[f|e] t1]; simpl;
      [|discriminate].
    rewrite Hco.
    destruct (reshape_m1 _ _) as [res|e]; simpl; [|discriminate].
    intro H. inversion H; subst. reflexivity.
Qed.

Lemma with_internal_array_same :
  forall (env : Env) (s : FourierFilter.t) (a : ndarray C),
    FourierFilter.internal_array s = Some a ->
    FourierFilter.with_internal_array s a = s.
Proof.
  intros env [] a; simpl; intro H; subst.
  reflexivity.
Qed.

(** The body reads the buffer after zeroing it only. *)
Lemma operation_body_buffer :
  forall (env : Env) (s : FourierFilter.t) (a b : ndarray C) (u : Field C)
         (adjoint : bool) (co : list slice),
    FourierFilter.cutout s = Some co ->
    np.fill_zero a = np.fill_zero b ->
    operation_body (FourierFilter.with_internal_array s a) u adjoint
    = operation_body (FourierFilter.with_internal_array s b) u adjoint.
Proof.
  intros env s a b u adjoint co Hco H.
  unfold operation_body, FourierFilter.with_internal_array. simpl.
  rewrite Hco. simpl. rewrite H. reflexivity.
Qed.

Lemma fill_zero_eq :
  forall (env : Env) (a b : ndarray C),
    shape a = shape b -> dtype a = dtype b ->
    length (data a) = length (data b) ->
    np.fill_zero a = np.fill_zero b.
Proof.
  intros env [sa da xa] [sb db xb]; simpl; intros Hs Hd Hl; subst.
  unfold np.fill_zero. simpl. f_equal.
  revert xb Hl. induction xa as [|x xa IH]; intros [|y xb] Hl; simpl in *;
    try discriminate; [reflexivity|].
  f_equal. apply IH. lia.
Qed.

Lemma setitem_frame :
  forall (env : Env) (a v r : ndarray C) (c : list slice),
    np.setitem a c v = Ok r ->
    shape r = shape a /\ dtype r = dtype a /\ length (data r) = length (data a).
Proof.
  intros env a v r c. unfold np.setitem.
  destruct (length (shape a) <? length c)%nat; [discriminate|].
  destruct (broadcastable _ _); [|discriminate].
  intro H. inversion H. simpl. rewrite scatter_length. repeat split.
Qed.

(** A call that returns: its trace is the calls of [_compute_functions]
    and then that of the body. *)
Lemma operation_inv_body :
  forall (env : Env) (self s1 : FourierFilter.t) (u F : Field C) (adjoint : bool)
         (t : list FFTCall),
    FourierFilter._operation self u adjoint = (Ok (F, s1), t) ->
    exists t',
      operation_body (FourierFilter._compute_functions self u) u adjoint
      = (Ok (F, s1), t') /\
      t = FourierFilter._compute_functions_calls self u ++ t'.
Proof.
  intros env self s1 u F adjoint t H.
  rewrite operation_unfold in H. apply bind_inv in H.
  destruct H as ([] & t1 & t' & E1 & E2 & Et).
  inversion E1; subst t1. exists t'. split; [exact E2 | exact Et].
Qed.

(** After a call with a field that succeeds, a call with that field, in
    either direction, does not call the generator, and does from the state
    left behind what the body does from the state that
    [_compute_functions] left in the first call. *)
Lemma operation_after_call :
  forall (env : Env) (self s1 : FourierFilter.t) (u F : Field C)
         (adjoint adjoint' : bool) (t : list FFTCall),
    FourierFilter._operation self u adjoint = (Ok (F, s1), t) ->
    FourierFilter.recompute_transfer_function s1 u = false /\
    FourierFilter._operation s1 u adjoint'
    = operation_body (FourierFilter._compute_functions self u) u adjoint'.
Proof.
  intros env self s1 u F adjoint adjoint' t H0.
  destruct (@operation_inv_body env self s1 u F adjoint t H0) as (t' & H & _).
  pose proof (@operation_body_final_state env _ _ _ _ _ _ H) as Hs1.
  change (FourierFilter.cutout (FourierFilter._compute_functions self u))
    with (FourierFilter.cutout self) in Hs1.
  destruct (compute_transfer_function_some self u) as (tf & Htf & Hd).
  assert (Htfs1 : FourierFilter._transfer_function s1 = Some tf).
  { destruct (FourierFilter.cutout self) as [co|].
    - destruct Hs1 as (buf & px & _ & _ & ->). exact Htf.
    - subst s1. exact Htf. }
  assert (Hrec : FourierFilter.recompute_transfer_function s1 u = false).
  { unfold FourierFilter.recompute_transfer_function.
    rewrite Htfs1, Hd, dtype_eqb_refl. reflexivity. }
  split; [exact Hrec|].
  rewrite (@operation_cached env s1 u adjoint' Hrec).
  destruct (FourierFilter.cutout self) as [co|] eqn:Hco.
  - destruct Hs1 as (buf & px & Hbuf & Hpx & Hs1).
    destruct (@setitem_frame env _ _ _ _ Hpx) as (Ps & Pd & Pl).
    simpl in Ps, Pd, Pl. rewrite length_map in Pl.
    set (s := FourierFilter._compute_functions self u) in *.
    (* the state computed from [s1] is [s] with another buffer *)
    assert (Hbuf' : exists buf',
               FourierFilter._compute_functions s1 u
               = FourierFilter.with_internal_array s buf' /\
               np.fill_zero buf' = np.fill_zero buf).
    { assert (Htf1 : FourierFilter._transfer_function
                       (FourierFilter._compute_functions s1 u)
                     = FourierFilter._transfer_function s).
      { rewrite Htf. apply compute_keeps_transfer_function; [|exact Hd].
        exact Htfs1. }
      assert (Hia : FourierFilter.internal_array s1 = Some px)
        by (rewrite Hs1; reflexivity).
      subst s. rewrite compute_internal_array_some in Hbuf.
      destruct (FourierFilter.recompute_internal_array self u) eqn:R.
      - inversion Hbuf; subst buf. clear Hbuf.
        exists (fresh_buffer self u). split; [|reflexivity].
        apply filter_ext; try (rewrite Hs1; reflexivity).
        + exact Htf1.
        + rewrite compute_internal_array_some.
          rewrite (@recompute_internal_array_matching env s1 px u
                     (grid_shape (FourierFilter.internal_grid self)) Hia).
          * rewrite Hs1. reflexivity.
          * rewrite Ps. apply fresh_buffer_spec.
      - exists px. split.
        + apply filter_ext; try (rewrite Hs1; reflexivity).
          * exact Htf1.
          * rewrite compute_internal_array_some.
            rewrite (@recompute_internal_array_congr env s1 self px buf u
                       Hia Hbuf Ps Pd), R.
            exact Hia.
        + apply fill_zero_eq; assumption. }
    destruct Hbuf' as (buf' & Hc & Hz).
    rewrite Hc, (@operation_body_buffer env s buf' buf u adjoint' co Hco Hz).
    rewrite (@with_internal_array_same env _ _ Hbuf). reflexivity.
  - subst s1. rewrite compute_functions_idempotent. reflexivity.
Qed.

(** X2. A call of a filter that succeeds can be repeated: the same call on
    the state it leaves returns the same field and leaves that state as it
    is; it does not call the generator of the transfer function again, and
    makes the calls into the FFT module that the first call made after
    those of the generator. *)
Theorem filter_call_repeats :
  forall (env : Env) (self s1 : FourierFilter.t) (u F : Field C) (adjoint : bool)
         (t : list FFTCall),
    FourierFilter._operation self u adjoint = (Ok (F, s1), t) ->
    exists t',
      t = FourierFilter._compute_functions_calls self u ++ t' /\
      FourierFilter._compute_functions_calls s1 u = [] /\
      FourierFilter._operation s1 u adjoint = (Ok (F, s1), t').
Proof.
  intros env self s1 u F adjoint t H.
  destruct (@operation_inv_body env self s1 u F adjoint t H) as (t' & Hb & Ht).
  destruct (@operation_after_call env self s1 u F adjoint adjoint t H) as [Hrec Hop].
  exists t'. split; [exact Ht|]. split.
  - apply compute_functions_calls_cached. exact Hrec.
  - rewrite Hop. exact Hb.
Qed.

Lemma filter_call_repeats_witness :
  exists F s1,
    FourierFilter._operation Ex.generated_filter Ex.v2 false
    = (Ok (F, s1),
       [Call_fftn [(-1)%Z] [4%nat];
        Call_fftn [(-1)%Z] [2; 4]%nat; Call_ifftn [(-1)%Z] [2; 4]%nat]) /\
    FourierFilter._operation s1 Ex.v2 false
    = (Ok (F, s1),
       [Call_fftn [(-1)%Z] [2; 4]%nat; Call_ifftn [(-1)%Z] [2; 4]%nat]).
Proof.
  destruct (FourierFilter._operation Ex.generated_filter Ex.v2 false)
    as [[[F s1]|e] t] eqn:H.
  - exists F, s1.
    assert (Ht : fft_calls (FourierFilter._operation Ex.generated_filter Ex.v2 false)
                 = [Call_fftn [(-1)%Z] [4%nat];
                    Call_fftn [(-1)%Z] [2; 4]%nat; Call_ifftn [(-1)%Z] [2; 4]%nat])
      by (vm_compute; reflexivity).
    rewrite H in Ht. unfold fft_calls in Ht. simpl in Ht. subst t.
    split; [reflexivity|].
    destruct (@filter_call_repeats Ref.env Ex.generated_filter s1 Ex.v2 F false _ H)
      as (t' & Ht & _ & Hrep).
    change (FourierFilter._compute_functions_calls Ex.generated_filter Ex.v2)
      with [Call_fftn [(-1)%Z] [4%nat]] in Ht.
    inversion Ht; subst t'. exact Hrep.
  - exfalso.
    assert (Hok : is_ok (result (FourierFilter._operation Ex.generated_filter Ex.v2 false))
                  = true) by (vm_compute; reflexivity).
    rewrite H in Hok. discriminate Hok.
Defined.

(** X3. For a field of tensor order 0 the test of [_compute_functions] on
    the buffer is true whatever the buffer is: every call with a scalar
    field allocates a new buffer. *)
Theorem scalar_field_reallocates :
  forall (env : Env) (self : FourierFilter.t) (field : Field C),
    tensor_order field = 0%nat ->
    FourierFilter.recompute_internal_array self field = true /\
    FourierFilter.internal_array (FourierFilter._compute_functions self field)
    = Some (fresh_buffer self field).
Proof.
  intros env self field H0.
  assert (R : FourierFilter.recompute_internal_array self field = true).
  { unfold FourierFilter.recompute_internal_array.
    destruct (FourierFilter.internal_array self) as [a|]; [|reflexivity].
    rewrite H0.
    assert (E : tensor_shape field = []).
    { pose proof (tensor_order_shape field) as L. rewrite H0 in L.
      destruct (tensor_shape field); [reflexivity | discriminate L]. }
    rewrite E. simpl. apply orb_true_r. }
  split; [exact R|].
  rewrite compute_internal_array_some, R. reflexivity.
Qed.

Lemma scalar_field_reallocates_witness :
  FourierFilter.recompute_internal_array
    (FourierFilter._compute_functions Ex.padded_filter Ex.u) Ex.u = true.
Proof.
  refine (proj1 (@scalar_field_reallocates Ref.env
                   (FourierFilter._compute_functions Ex.padded_filter Ex.u) Ex.u _)).
  reflexivity.
Defined.

(** X4. With a buffer of the ndim and of the dtype of the field, the
    buffer is replaced exactly when its leading axes equal the tensor
    shape of the field, and kept when they differ. *)
Theorem buffer_replaced_iff_tensor_shape_equal :
  forall (env : Env) (self : FourierFilter.t) (field : Field C) (a : ndarray C),
    FourierFilter.internal_array self = Some a ->
    np.array_ndim a = (ndim (grid field) + tensor_order field)%nat ->
    dtype a = field_dtype field ->
    (firstn (tensor_order field) (shape a) = tensor_shape field /\
     FourierFilter.internal_array (FourierFilter._compute_functions self field)
     = Some (fresh_buffer self field)) \/
    (firstn (tensor_order field) (shape a) <> tensor_shape field /\
     FourierFilter.internal_array (FourierFilter._compute_functions self field)
     = Some a).
Proof.
  intros env self field a Ha Hn Hd.
  rewrite compute_internal_array_some.
  rewrite (recompute_internal_array_on_matching_buffer self field Ha Hn Hd).
  destruct (natlist_eqb _ _) eqn:E.
  - left. split; [|reflexivity]. clear - E.
    unfold natlist_eqb in E. apply andb_true_iff in E. destruct E as [El Ef].
    apply Nat.eqb_eq in El.
    revert El Ef. generalize (firstn (tensor_order field) (shape a)).
    generalize (tensor_shape field).
    intros l m. revert l. induction m as [|x m IH]; intros [|y l] El Ef;
      simpl in *; try discriminate; [reflexivity|].
    apply andb_true_iff in Ef. destruct Ef as [Exy Ef].
    apply Nat.eqb_eq in Exy. subst. f_equal. apply IH; [lia | exact Ef].
  - right. split; [|exact Ha].
    intro H. rewrite H, natlist_eqb_refl in E. discriminate E.
Qed.

Lemma buffer_replaced_iff_tensor_shape_equal_witness :
  FourierFilter.internal_array
    (FourierFilter._compute_functions
       (FourierFilter._compute_functions Ex.padded_filter Ex.v2) Ex.v3)
  = Some (fresh_buffer Ex.padded_filter Ex.v2).
Proof.
  destruct (@buffer_replaced_iff_tensor_shape_equal Ref.env
              (FourierFilter._compute_functions Ex.padded_filter Ex.v2) Ex.v3
              (fresh_buffer Ex.padded_filter Ex.v2)
              eq_refl eq_refl eq_refl) as [[E _] | [_ H]].
  - discriminate E.
  - exact H.
Defined.

(** ** FourierFilter: the calls into the FFT module *)

Lemma apply_transfer_function_no_calls :
  forall (env : Env) (self : FourierFilter.t) (tf f : ndarray C) (adjoint : bool),
    fft_calls (FourierFilter.apply_transfer_function self tf f adjoint) = [].
Proof.
  intros env self tf f adjoint.
  unfold FourierFilter.apply_transfer_function, fft_calls, bind, np.lift, ret.
  destruct (_ =? 2)%Z; [|reflexivity].
  destruct adjoint.
  - destruct (field_conjugate_transpose _) as [x|e]; [|reflexivity].
    destruct (field_dot _ _) as [y|e]; reflexivity.
  - destruct (field_dot _ _) as [y|e]; reflexivity.
Qed.

(** [tuple(range(-n, 0))] names the last [n] axes of an array of [k + n]
    axes. *)
Lemma last_axes_normalized :
  forall n k : nat,
    map (normalize_axis (k + n)) (last_axes n)
    = map (fun i => Z.of_nat (k + i)) (seq 0 n).
Proof.
  intros n k. unfold last_axes. rewrite map_map.
  apply map_ext_in. intros i Hi. apply in_seq in Hi.
  unfold normalize_axis.
  destruct (Z.of_nat i - Z.of_nat n <? 0)%Z eqn:E.
  - lia.
  - apply Z.ltb_ge in E. lia.
Qed.

(** What the body of a call of a filter that returns has done. *)
Lemma operation_body_inv :
  forall (env : Env) (s s1 : FourierFilter.t) (u F : Field C) (adjoint : bool)
         (t : list FFTCall),
    operation_body s u adjoint = (Ok (F, s1), t) ->
    (exists sh1 sh2,
       t = [Call_fftn (last_axes (ndim (FourierFilter.input_grid s))) sh1;
            Call_ifftn (last_axes (ndim (FourierFilter.input_grid s))) sh2]) /\
    grid F = FourierFilter.input_grid s /\
    FourierFilter.input_grid s1 = FourierFilter.input_grid s /\
    FourierFilter.internal_grid s1 = FourierFilter.internal_grid s /\
    FourierFilter.cutout s1 = FourierFilter.cutout s /\
    FourierFilter.shape_in s1 = FourierFilter.shape_in s /\
    FourierFilter.transfer_function s1 = FourierFilter.transfer_function s.
Proof.
  intros env s s1 u F adjoint t H.
  split.
  - revert H.
    unfold operation_body, FourierFilter.attr, bind, ret, raise, np.lift,
           np.call_fftn, np.call_ifftn.
    destruct (FourierFilter.cutout s) as [co|] eqn:Hco.
    + destruct (FourierFilter.internal_array s) as [buf|]; simpl; [|discriminate].
      destruct (np.setitem _ _ _) as [px|e] eqn:Hpx; simpl; [|discriminate].
      destruct (FourierFilter._transfer_function s) as [tf|]; simpl; [|discriminate].
      pose proof (@apply_transfer_function_no_calls env
                    (FourierFilter.with_internal_array s px) tf
                    (fftn (last_axes (ndim (FourierFilter.input_grid s))) px) adjoint)
        as Hnc.
      destruct (FourierFilter.apply_transfer_function _ _ _ _) as [[f|e] t1]; simpl;
        [|discriminate].
      unfold fft_calls in Hnc. simpl in Hnc. subst t1.
      rewrite Hco.
      destruct (np.getitem _ _) as [g'|e']; simpl; [|discriminate].
      destruct (reshape_m1 _ _) as [res|e]; simpl; [|discriminate].
      intro H. inversion H; subst. do 2 eexists. reflexivity.
    + simpl.
      destruct (FourierFilter._transfer_function s) as [tf|]; simpl; [|discriminate].
      pose proof (@apply_transfer_function_no_calls env s tf
                    (fftn (last_axes (ndim (FourierFilter.input_grid s))) (shaped u))
                    adjoint) as Hnc.
      destruct (FourierFilter.apply_transfer_function _ _ _ _) as [[f|e] t1]; simpl;
        [|discriminate].
      unfold fft_calls in Hnc. simpl in Hnc. subst t1.
      rewrite Hco.
      destruct (reshape_m1 _ _) as [res|e]; simpl; [|discriminate].
      intro H. inversion H; subst. do 2 eexists. reflexivity.
  - pose proof (@operation_body_final_state env _ _ _ _ _ _ H) as Hs1.
    assert (HF : grid F = FourierFilter.input_grid s1).
    { revert H.
      unfold operation_body, FourierFilter.attr, bind, ret, raise, np.lift,
             np.call_fftn, np.call_ifftn.
      destruct (FourierFilter.cutout s) as [co|] eqn:Hco.
      - destruct (FourierFilter.internal_array s) as [buf|]; simpl; [|discriminate].
        destruct (np.setitem _ _ _) as [px|e] eqn:Hpx; simpl; [|discriminate].
        destruct (FourierFilter._transfer_function s) as [tf|]; simpl; [|discriminate].
        destruct (FourierFilter.apply_transfer_function _ _ _ _) as [[f|e] t1]; simpl;
          [|discriminate].
        rewrite Hco.
        destruct (np.getitem _ _) as [g'|e']; simpl; [|discriminate].
        destruct (reshape_m1 _ _) as [res|e]; simpl; [|discriminate].
        intro H. inversion H; subst. reflexivity.
      - simpl.
        destruct (FourierFilter._transfer_function s) as [tf|]; simpl; [|discriminate].
        destruct (FourierFilter.apply_transfer_function _ _ _ _) as [[f|e] t1]; simpl;
          [|discriminate].
        rewrite Hco.
        destruct (reshape_m1 _ _) as [res|e]; simpl; [|discriminate].
        intro H. inversion H; subst. reflexivity. }
    rewrite HF.
    destruct (FourierFilter.cutout s) as [co|] eqn:Hco; rewrite <- Hco.
    + destruct Hs1 as (buf & px & _ & _ & ->). repeat split.
    + subst s1. repeat split.
Qed.


(** What a call of a filter that returns has done. *)
Lemma filter_operation_inv :
  forall (env : Env) (self s1 : FourierFilter.t) (u F : Field C) (adjoint : bool)
         (t : list FFTCall),
    FourierFilter._operation self u adjoint = (Ok (F, s1), t) ->
    (exists sh1 sh2,
       t = FourierFilter._compute_functions_calls self u ++
           [Call_fftn (last_axes (ndim (FourierFilter.input_grid self))) sh1;
            Call_ifftn (last_axes (ndim (FourierFilter.input_grid self))) sh2]) /\
    grid F = FourierFilter.input_grid self /\
    FourierFilter.input_grid s1 = FourierFilter.input_grid self /\
    FourierFilter.internal_grid s1 = FourierFilter.internal_grid self /\
    FourierFilter.cutout s1 = FourierFilter.cutout self /\
    FourierFilter.shape_in s1 = FourierFilter.shape_in self /\
    FourierFilter.transfer_function s1 = FourierFilter.transfer_function self.
Proof.
  intros env self s1 u F adjoint t H.
  destruct (@operation_inv_body env self s1 u F adjoint t H) as (t' & Hb & Ht).
  destruct (@operation_body_inv env _ s1 u F adjoint t' Hb)
    as ((sh1 & sh2 & Ht') & Hrest).
  split; [|exact Hrest].
  exists sh1, sh2. rewrite Ht, Ht'. reflexivity.
Qed.

(** X5. A call of a filter that succeeds makes, after the calls of the
    generator of the transfer function (none when the transfer function is
    a field or is cached), two calls into the FFT module, one forward
    transform and then one inverse transform, both over
    [tuple(range(-input_grid.ndim, 0))], the last [ndim] axes of the
    array; the field it returns is on the input grid of the filter, and
    the call changes none of the attributes that the constructor set. *)
Theorem filter_call_trace_and_grid :
  forall (env : Env) (self s1 : FourierFilter.t) (u F : Field C) (adjoint : bool)
         (t : list FFTCall),
    FourierFilter._operation self u adjoint = (Ok (F, s1), t) ->
    (exists sh1 sh2,
       t = FourierFilter._compute_functions_calls self u ++
           [Call_fftn (last_axes (ndim (FourierFilter.input_grid self))) sh1;
            Call_ifftn (last_axes (ndim (FourierFilter.input_grid self))) sh2]) /\
    (FourierFilter.recompute_transfer_function self u = false \/
     (exists tf, FourierFilter.transfer_function self = FourierFilter.Given tf) ->
     FourierFilter._compute_functions_calls self u = []) /\
    (forall k : nat,
       map (normalize_axis (k + ndim (FourierFilter.input_grid self)))
           (last_axes (ndim (FourierFilter.input_grid self)))
       = map (fun i => Z.of_nat (k + i)) (seq 0 (ndim (FourierFilter.input_grid self)))) /\
    grid F = FourierFilter.input_grid self /\
    FourierFilter.input_grid s1 = FourierFilter.input_grid self /\
    FourierFilter.internal_grid s1 = FourierFilter.internal_grid self /\
    FourierFilter.cutout s1 = FourierFilter.cutout self /\
    FourierFilter.shape_in s1 = FourierFilter.shape_in self /\
    FourierFilter.transfer_function s1 = FourierFilter.transfer_function self.
Proof.
  intros env self s1 u F adjoint t H.
  destruct (@filter_operation_inv env self s1 u F adjoint t H) as (Ht & Hrest).
  split; [exact Ht|]. split; [|split; [intro k; apply last_axes_normalized | exact Hrest]].
  intros [Hrec | [tf Htf]]; unfold FourierFilter._compute_functions_calls.
  - rewrite Hrec. reflexivity.
  - rewrite Htf. destruct (FourierFilter.recompute_transfer_function self u); reflexivity.
Qed.

Lemma filter_call_trace_and_grid_witness :
  exists F s1,
    FourierFilter._operation Ex.generated_filter Ex.v2 true
    = (Ok (F, s1),
       [Call_fftn [(-1)%Z] [4%nat];
        Call_fftn [(-1)%Z] [2; 4]%nat; Call_ifftn [(-1)%Z] [2; 4]%nat]) /\
    grid F = Ex.g1.
Proof.
  destruct (FourierFilter._operation Ex.generated_filter Ex.v2 true)
    as [[[F s1]|e] t] eqn:H.
  - exists F, s1.
    assert (Ht : fft_calls (FourierFilter._operation Ex.generated_filter Ex.v2 true)
                 = [Call_fftn [(-1)%Z] [4%nat];
                    Call_fftn [(-1)%Z] [2; 4]%nat; Call_ifftn [(-1)%Z] [2; 4]%nat])
      by (vm_compute; reflexivity).
    rewrite H in Ht. unfold fft_calls in Ht. simpl in Ht. subst t.
    split; [reflexivity|].
    exact (proj1 (proj2 (proj2 (proj2
             (@filter_call_trace_and_grid Ref.env Ex.generated_filter s1 Ex.v2 F true
                _ H))))).
  - exfalso.
    assert (Hok : is_ok (result (FourierFilter._operation Ex.generated_filter Ex.v2 true))
                  = true) by (vm_compute; reflexivity).
    rewrite H in Hok. discriminate Hok.
Defined.

(** ** FourierShift: the setter and the calls into the FFT module *)

Lemma filter_nonzero_nil_all_zero :
  forall (shift : list Q) (start : nat),
    filter (fun p : nat * Q => negb (Qeq_bool (snd p) 0))
           (combine (seq start (length shift)) shift) = [] ->
    Forall (fun x => x == 0) shift.
Proof.
  induction shift as [|x shift IH]; intros start H; simpl in *.
  - constructor.
  - destruct (Qeq_bool x 0) eqn:E; simpl in H; [|discriminate].
    constructor.
    + apply Qeq_bool_iff. exact E.
    + apply (IH (S start)). exact H.
Qed.

Lemma flatnonzero_nil_all_zero :
  forall shift : list Q,
    np.flatnonzero shift = [] -> Forall (fun x => x == 0) shift.
Proof.
  intros shift H. unfold np.flatnonzero in H.
  apply map_eq_nil in H. apply (filter_nonzero_nil_all_zero shift 0). exact H.
Qed.

Lemma flatnonzero_bound :
  forall (shift : list Q) (i : nat),
    In i (np.flatnonzero shift) -> (i < length shift)%nat.
Proof.
  intros shift i H. unfold np.flatnonzero in H.
  apply in_map_iff in H. destruct H as ([j q] & Hj & Hin). simpl in Hj. subst j.
  apply filter_In in Hin. destruct Hin as [Hin _].
  apply in_combine_l in Hin. apply in_seq in Hin. lia.
Qed.

(** X6. A FourierShift that is constructed has the grid given as input
    and as output grid and the shift given; its transform axes are the
    indices of the components of the shift that are not zero, minus one;
    it has no filter exactly when every component of the shift is zero;
    and the constructor calls no FFT. *)
Theorem shift_init_postconditions :
  forall (env : Env) (input_grid : Grid) (shift : list Q) (op : FourierShift.t)
         (t : list FFTCall),
    FourierShift.__init__ input_grid shift = (Ok op, t) ->
    t = [] /\
    FourierShift.input_grid op = input_grid /\
    FourierShift.output_grid op = input_grid /\
    FourierShift._shift op = shift /\
    FourierShift._ft_axes op
    = map (fun i => (Z.of_nat i - 1)%Z) (np.flatnonzero shift) /\
    (FourierShift._shift_filter op = None <-> Forall (fun x => x == 0) shift).
Proof.
  intros env input_grid shift op t.
  unfold FourierShift.__init__, FourierShift.set_shift, bind, np.lift, ret.
  destruct (map (fun i => (Z.of_nat i - 1)%Z) (np.flatnonzero shift)) as [|a l] eqn:E.
  - intro H. inversion H; subst. simpl. repeat split.
    intros _. apply flatnonzero_nil_all_zero. apply map_eq_nil in E. exact E.
  - destruct (make_fft_grid _ _ _) as [g|e]; simpl; [|discriminate].
    destruct (np.mask_select (delta g) _) as [d|e]; simpl; [|discriminate].
    destruct (np.mask_select (dims g) _) as [n|e]; simpl; [|discriminate].
    destruct (np.mask_select (zero g) _) as [z|e]; simpl; [|discriminate].
    intro H. inversion H; subst. simpl. repeat split.
    + discriminate.
    + intro Hz. rewrite (flatnonzero_all_zero Hz) in E. discriminate E.
Qed.

Lemma shift_init_postconditions_witness :
  exists op,
    FourierShift.__init__ (env := Ref.env) Ex.g2 [0; 1]%Q = (Ok op, []) /\
    FourierShift._ft_axes op = [0%Z].
Proof.
  destruct (FourierShift.__init__ (env := Ref.env) Ex.g2 [0; 1]%Q)
    as [[op|e] t] eqn:H.
  - destruct (@shift_init_postconditions Ref.env Ex.g2 [0; 1]%Q op t H)
      as (Ht & _ & _ & _ & Hax & _).
    exists op. subst t. split; [reflexivity | exact Hax].
  - exfalso.
    assert (Hok : is_ok (result (FourierShift.__init__ (env := Ref.env) Ex.g2 [0; 1]%Q))
                  = true) by (vm_compute; reflexivity).
    rewrite H in Hok. discriminate Hok.
Defined.

(** X7. A call of a shift that has a filter, when it succeeds, makes one
    forward transform of the shaped field and one inverse transform, both
    over the transform axes of the operator, and returns a field on the
    grid of the field given. *)
Theorem shift_call_trace :
  forall (env : Env) (self : FourierShift.t) (flt : ndarray C) (u F : Field C)
         (adjoint : bool) (t : list FFTCall),
    FourierShift._shift_filter self = Some flt ->
    FourierShift._operation self u adjoint = (Ok F, t) ->
    t = [Call_fftn (FourierShift._ft_axes self) (shape (shaped u));
         Call_ifftn (FourierShift._ft_axes self)
                    (shape (fftn (FourierShift._ft_axes self) (shaped u)))] /\
    grid F = grid u.
Proof.
  intros env self flt u F adjoint t Hflt.
  unfold FourierShift._operation. rewrite Hflt.
  unfold bind, ret, np.lift, np.call_fftn, np.call_ifftn.
  destruct (np.imul _ _) as [X|e] eqn:HX; simpl; [|discriminate].
  unfold np.imul in HX.
  destruct (broadcastable _ _); [|discriminate].
  inversion HX; subst X. clear HX. simpl.
  destruct (reshape_m1 _ _) as [res|e]; simpl; [|discriminate].
  intro H. inversion H; subst. split; reflexivity.
Qed.

(** X8. For a shift of at most two components, the axes that the
    operator transforms in a scalar field, whose shaped array has one axis
    for each component, are the array axes of the components that are not
    zero. *)
Theorem shift_axes_right_on_small_grids :
  forall (env : Env) (input_grid : Grid) (shift : list Q) (op : FourierShift.t)
         (t : list FFTCall),
    FourierShift.__init__ input_grid shift = (Ok op, t) ->
    (length shift <= 2)%nat ->
    map (normalize_axis (length shift)) (FourierShift._ft_axes op)
    = shifted_axes (length shift) shift.
Proof.
  intros env input_grid shift op t H Hlen.
  assert (Hax : FourierShift._ft_axes op
                = map (fun i => (Z.of_nat i - 1)%Z) (np.flatnonzero shift)).
  { apply (@ft_axes_of_shift env
             {| FourierShift.input_grid := input_grid;
                FourierShift.output_grid := input_grid;
                FourierShift._shift := []; FourierShift._ft_axes := [];
                FourierShift._shift_filter := None |} op shift).
    unfold FourierShift.__init__ in H. unfold result. rewrite H. reflexivity. }
  rewrite Hax. unfold shifted_axes. rewrite map_map.
  apply map_ext_in. intros i Hi. apply flatnonzero_bound in Hi.
  unfold normalize_axis, array_axis.
  destruct (Z.of_nat i - 1 <? 0)%Z eqn:E.
  - apply Z.ltb_lt in E. lia.
  - apply Z.ltb_ge in E. lia.
Qed.

Lemma shift_axes_right_on_small_grids_witness :
  exists op t,
    FourierShift.__init__ (env := Ref.env) Ex.g2 [1; 1]%Q = (Ok op, t) /\
    map (normalize_axis 2) (FourierShift._ft_axes op) = [1%Z; 0%Z].
Proof.
  destruct (FourierShift.__init__ (env := Ref.env) Ex.g2 [1; 1]%Q)
    as [[op|e] t] eqn:H.
  - exists op, t. split; [reflexivity|].
    refine (@shift_axes_right_on_small_grids Ref.env Ex.g2 [1; 1]%Q op t H _).
    simpl. lia.
  - exfalso.
    assert (Hok : is_ok (result (FourierShift.__init__ (env := Ref.env) Ex.g2 [1; 1]%Q))
                  = true) by (vm_compute; reflexivity).
    rewrite H in Hok. discriminate Hok.
Defined.

Lemma shift_call_trace_witness :
  exists F,
    FourierShift._operation Ex.shift01 Ex.u2 true
    = (Ok F, [Call_fftn [0%Z] [2; 2]%nat; Call_ifftn [0%Z] [2; 2]%nat]) /\
    grid F = Ex.g2.
Proof.
  destruct (FourierShift._shift_filter Ex.shift01) as [flt|] eqn:Hf.
  - destruct (FourierShift._operation Ex.shift01 Ex.u2 true) as [[F|e] t] eqn:H.
    + destruct (@shift_call_trace Ref.env Ex.shift01 flt Ex.u2 F true t Hf H)
        as [Ht Hg].
      exists F. split; [|exact Hg]. rewrite Ht. reflexivity.
    + exfalso.
      assert (Hok : is_ok (result (FourierShift._operation Ex.shift01 Ex.u2 true))
                    = true) by (vm_compute; reflexivity).
      rewrite H in Hok. discriminate Hok.
  - exfalso.
    assert (Hs : match FourierShift._shift_filter Ex.shift01 with
                 | Some _ => true
                 | None => false
                 end = true) by (vm_compute; reflexivity).
    rewrite Hf in Hs. discriminate Hs.
Defined.

(** ** FourierShear and FourierRotation: construction and calls *)

Lemma ifftshift_coords_length :
  forall x : list Q, length (ifftshift_coords x) = length x.
Proof.
  intro x. unfold ifftshift_coords. rewrite length_map, length_seq. reflexivity.
Qed.

(** What the setter of [shear] leaves when it returns. *)
Lemma set_shear_inv :
  forall (env : Env) (self op : FourierShear.t) (shear : Q) (t : list FFTCall),
    FourierShear.set_shear self shear = (Ok op, t) ->
    t = [] /\
    exists fg fx y,
      make_fft_grid (FourierShear.input_grid self) 1 1 = Ok fg /\
      separated_coords fg (FourierShear.shear_dim self) = Some fx /\
      separated_coords (FourierShear.input_grid self) (FourierShear.fourier_dim self)
      = Some y /\
      op = {| FourierShear._input_grid := FourierShear._input_grid self;
              FourierShear._shear_dim := FourierShear._shear_dim self;
              FourierShear._filter :=
                Some (if (FourierShear.shear_dim self =? 1)%nat
                      then FourierShear.transpose2
                             (FourierShear.outer_filter shear y (ifftshift_coords fx))
                      else FourierShear.outer_filter shear y (ifftshift_coords fx));
              FourierShear._shear := shear |}.
Proof.
  intros env self op shear t.
  unfold FourierShear.set_shear, bind, np.lift, FourierShear.coords_of, ret, raise.
  destruct (make_fft_grid _ _ _) as [fg|e] eqn:Hfg; simpl; [|discriminate].
  destruct (separated_coords fg _) as [fx|] eqn:Hfx; simpl; [|discriminate].
  destruct (separated_coords (FourierShear.input_grid self) _) as [y|] eqn:Hy; simpl;
    [|discriminate].
  intro H. inversion H; subst. split; [reflexivity|].
  exists fg, fx, y. repeat split; assumption.
Qed.

Lemma shear_filter_shape :
  forall (env : Env) (shear : Q) (y fx : list Q) (d : nat),
    shape (if (d =? 1)%nat
           then FourierShear.transpose2 (FourierShear.outer_filter shear y fx)
           else FourierShear.outer_filter shear y fx)
    = if (d =? 1)%nat then [length fx; length y] else [length y; length fx].
Proof.
  intros env shear y fx d. destruct (d =? 1)%nat; reflexivity.
Qed.

(** X9. A FourierShear that is constructed is on a regular grid of two
    dimensions, with the grid, the dimension and the shear given; its
    filter is a complex array of two axes whose axis of frequencies, as
    long as the axis of the Fourier grid along the shear dimension, is the
    last one for a shear along dimension 0 and, after the transposition,
    the first one for a shear along dimension 1; and the constructor calls
    no FFT. *)
Theorem shear_init_postconditions :
  forall (env : Env) (input_grid : Grid) (shear : Q) (shear_dim : nat)
         (op : FourierShear.t) (t : list FFTCall),
    FourierShear.__init__ input_grid shear shear_dim = (Ok op, t) ->
    t = [] /\
    is_regular input_grid = true /\ ndim input_grid = 2%nat /\
    FourierShear.input_grid op = input_grid /\
    FourierShear.shear_dim op = shear_dim /\
    FourierShear._shear op = shear /\
    exists fg fx y flt,
      make_fft_grid input_grid 1 1 = Ok fg /\
      separated_coords fg shear_dim = Some fx /\
      separated_coords input_grid (FourierShear.fourier_dim op) = Some y /\
      FourierShear._filter op = Some flt /\
      dtype flt = complex128 /\
      shape flt = if (shear_dim =? 1)%nat then [length fx; length y]
                  else [length y; length fx].
Proof.
  intros env input_grid shear shear_dim op t.
  unfold FourierShear.__init__.
  destruct (is_regular input_grid) eqn:Hr; simpl; [|discriminate].
  destruct (ndim input_grid =? 2)%nat eqn:Hn; simpl; [|discriminate].
  intro H. apply set_shear_inv in H.
  destruct H as (Ht & fg & fx & y & Hfg & Hfx & Hy & Hop).
  simpl in Hfg, Hfx, Hy, Hop.
  apply Nat.eqb_eq in Hn. subst op.
  repeat (split; [first [assumption | reflexivity]|]).
  exists fg, fx, y. eexists.
  split; [exact Hfg|]. split; [exact Hfx|]. split; [exact Hy|].
  split; [reflexivity|]. split.
  - unfold FourierShear.shear_dim. simpl.
    destruct (shear_dim =? 1)%nat; reflexivity.
  - unfold FourierShear.shear_dim. simpl.
    rewrite shear_filter_shape, ifftshift_coords_length. reflexivity.
Qed.

Lemma shear_init_postconditions_witness :
  exists op flt,
    FourierShear.__init__ (env := Ref.env) Ex.g2 (1 # 2) 1 = (Ok op, []) /\
    FourierShear._filter op = Some flt /\ dtype flt = complex128.
Proof.
  destruct (FourierShear.__init__ (env := Ref.env) Ex.g2 (1 # 2) 1)
    as [[op|e] t] eqn:H.
  - destruct (@shear_init_postconditions Ref.env Ex.g2 (1 # 2) 1%nat op t H)
      as (Ht & _ & _ & _ & _ & _ & fg & fx & y & flt & _ & _ & _ & Hf & Hd & _).
    exists op, flt. subst t. split; [reflexivity|]. split; assumption.
  - exfalso.
    assert (Hok : is_ok (result (FourierShear.__init__ (env := Ref.env) Ex.g2 (1 # 2) 1))
                  = true) by (vm_compute; reflexivity).
    rewrite H in Hok. discriminate Hok.
Defined.

(** What a call of a shear that returns has done. *)
Lemma shear_operation_inv :
  forall (env : Env) (self : FourierShear.t) (v r : PyVal C) (adjoint : bool)
         (t : list FFTCall),
    FourierShear._operation self v adjoint = (Ok r, t) ->
    exists u f,
      v = VField u /\ r = VField f /\ grid f = grid u /\
      t = [Call_fftn [(- Z.of_nat (FourierShear.shear_dim self) - 1)%Z]
                     (shape (shaped u));
           Call_ifftn [(- Z.of_nat (FourierShear.shear_dim self) - 1)%Z]
                      (shape (fftn [(- Z.of_nat (FourierShear.shear_dim self) - 1)%Z]
                                   (shaped u)))].
Proof.
  intros env self v r adjoint t.
  unfold FourierShear._operation, bind, np.lift, np.call_fftn, np.call_ifftn,
         ret, raise.
  destruct v as [u|l]; simpl; [|discriminate].
  destruct (FourierShear._filter self) as [flt|]; simpl; [|discriminate].
  destruct (np.imul _ _) as [X|e] eqn:HX; simpl; [|discriminate].
  unfold np.imul in HX.
  destruct (broadcastable _ _); [|discriminate].
  inversion HX; subst X. clear HX. simpl.
  destruct (reshape_m1 _ _) as [res|e]; simpl; [|discriminate].
  intro H. inversion H; subst. exists u. eexists. repeat split.
Qed.

(** X10. A call of a shear that succeeds was given a field and returns a
    field on the same grid, after one forward and one inverse transform
    along the axis [-shear_dim - 1], which is the array axis of grid axis
    [shear_dim] in an array of any number of axes above [shear_dim]. *)
Theorem shear_call_trace :
  forall (env : Env) (self : FourierShear.t) (v r : PyVal C) (adjoint : bool)
         (t : list FFTCall),
    FourierShear._operation self v adjoint = (Ok r, t) ->
    (exists u f,
       v = VField u /\ r = VField f /\ grid f = grid u /\
       t = [Call_fftn [(- Z.of_nat (FourierShear.shear_dim self) - 1)%Z]
                      (shape (shaped u));
            Call_ifftn [(- Z.of_nat (FourierShear.shear_dim self) - 1)%Z]
                       (shape (fftn [(- Z.of_nat (FourierShear.shear_dim self) - 1)%Z]
                                    (shaped u)))]) /\
    (forall N : nat,
       (FourierShear.shear_dim self < N)%nat ->
       normalize_axis N (- Z.of_nat (FourierShear.shear_dim self) - 1)%Z
       = array_axis N (FourierShear.shear_dim self)).
Proof.
  intros env self v r adjoint t H. split.
  - exact (@shear_operation_inv env self v r adjoint t H).
  - intros N HN. unfold normalize_axis, array_axis.
    destruct (- Z.of_nat (FourierShear.shear_dim self) - 1 <? 0)%Z eqn:E.
    + lia.
    + apply Z.ltb_ge in E. lia.
Qed.

Lemma shear_call_trace_witness :
  exists r,
    FourierShear._operation (FourierRotation._shear_y Ex.rotation0)
                            (VField Ex.u2) false
    = (Ok r, [Call_fftn [(-2)%Z] [2; 2]%nat; Call_ifftn [(-2)%Z] [2; 2]%nat]).
Proof.
  destruct (FourierShear._operation (FourierRotation._shear_y Ex.rotation0)
                                    (VField Ex.u2) false) as [[r|e] t] eqn:H.
  - exists r.
    destruct (proj1 (@shear_call_trace Ref.env (FourierRotation._shear_y Ex.rotation0)
                       (VField Ex.u2) r false t H))
      as (u & f & Hu & _ & _ & Ht).
    inversion Hu; subst u. rewrite Ht. reflexivity.
  - exfalso.
    assert (Hok : is_ok (result (FourierShear._operation
                                   (FourierRotation._shear_y Ex.rotation0)
                                   (VField Ex.u2) false))
                  = true) by (vm_compute; reflexivity).
    rewrite H in Hok. discriminate Hok.
Defined.

(** What the constructor of a rotation leaves when it returns. *)
Lemma rotation_init_inv :
  forall (env : Env) (input_grid : Grid) (angle : Q) (rot : FourierRotation.t)
         (t : list FFTCall),
    FourierRotation.__init__ input_grid angle = (Ok rot, t) ->
    t = [] /\
    is_regular input_grid = true /\ ndim input_grid = 2%nat /\
    exists fx fy : ndarray C,
      rot = {| FourierRotation._input_grid := input_grid;
               FourierRotation._shear_x :=
                 {| FourierShear._input_grid := input_grid;
                    FourierShear._shear_dim := 0;
                    FourierShear._filter := Some fx;
                    FourierShear._shear := np_tan (angle / 2) |};
               FourierRotation._shear_y :=
                 {| FourierShear._input_grid := input_grid;
                    FourierShear._shear_dim := 1;
                    FourierShear._filter := Some fy;
                    FourierShear._shear := (- np_sin angle)%Q |};
               FourierRotation._angle := angle |}.
Proof.
  intros env input_grid angle rot t.
  unfold FourierRotation.__init__.
  destruct (is_regular input_grid) eqn:Hr; simpl; [|discriminate].
  destruct (ndim input_grid =? 2)%nat eqn:Hn; simpl; [|discriminate].
  apply Nat.eqb_eq in Hn.
  intro H. apply bind_inv in H. destruct H as (sx & t1 & t1' & Hsx & H' & Et). subst. rename H' into H.
  apply bind_inv in H. destruct H as (sy & t2 & t2' & Hsy & H' & Et). subst. rename H' into H.
  unfold FourierShear.__init__ in Hsx, Hsy. rewrite Hr, Hn in Hsx, Hsy.
  simpl in Hsx, Hsy.
  apply set_shear_inv in Hsx. destruct Hsx as (Et & ? & ? & ? & _ & _ & _ & Es). subst.
  apply set_shear_inv in Hsy. destruct Hsy as (Et & ? & ? & ? & _ & _ & _ & Es). subst.
  unfold FourierRotation.set_angle in H. simpl in H.
  apply bind_inv in H. destruct H as (sx & t3 & t3' & Hsx & H' & Et). subst. rename H' into H.
  apply bind_inv in H. destruct H as (sy & t4 & t4' & Hsy & H' & Et). subst. rename H' into H.
  apply set_shear_inv in Hsx. destruct Hsx as (Et & ? & ? & ? & _ & _ & _ & Es). subst.
  apply set_shear_inv in Hsy. destruct Hsy as (Et & ? & ? & ? & _ & _ & _ & Es). subst.
  unfold ret in H. inversion H; subst. simpl.
  repeat (split; [first [assumption | reflexivity]|]).
  do 2 eexists. reflexivity.
Qed.

(** X11. A FourierRotation that is constructed is on a regular grid of
    two dimensions and keeps the grid and the angle; its first shear is
    along dimension 0 by [tan(angle / 2)] and its second shear along
    dimension 1 by [-sin(angle)], both on that grid and both with their
    filter computed; and the constructor calls no FFT. *)
Theorem rotation_init_postconditions :
  forall (env : Env) (input_grid : Grid) (angle : Q) (rot : FourierRotation.t)
         (t : list FFTCall),
    FourierRotation.__init__ input_grid angle = (Ok rot, t) ->
    t = [] /\
    is_regular input_grid = true /\ ndim input_grid = 2%nat /\
    FourierRotation._input_grid rot = input_grid /\
    FourierRotation._angle rot = angle /\
    FourierShear.input_grid (FourierRotation._shear_x rot) = input_grid /\
    FourierShear.shear_dim (FourierRotation._shear_x rot) = 0%nat /\
    FourierShear._shear (FourierRotation._shear_x rot) = np_tan (angle / 2) /\
    FourierShear._filter (FourierRotation._shear_x rot) <> None /\
    FourierShear.input_grid (FourierRotation._shear_y rot) = input_grid /\
    FourierShear.shear_dim (FourierRotation._shear_y rot) = 1%nat /\
    FourierShear._shear (FourierRotation._shear_y rot) = (- np_sin angle)%Q /\
    FourierShear._filter (FourierRotation._shear_y rot) <> None.
Proof.
  intros env input_grid angle rot t H.
  apply rotation_init_inv in H.
  destruct H as (Ht & Hr & Hn & fx & fy & ->).
  repeat (split; [first [assumption | reflexivity | discriminate]|]).
  discriminate.
Qed.

Lemma rotation_init_postconditions_witness :
  exists rot,
    FourierRotation.__init__ (env := Ref.env) Ex.g2 (1 # 3) = (Ok rot, []) /\
    FourierShear.shear_dim (FourierRotation._shear_y rot) = 1%nat.
Proof.
  destruct (FourierRotation.__init__ (env := Ref.env) Ex.g2 (1 # 3))
    as [[rot|e] t] eqn:H.
  - destruct (@rotation_init_postconditions Ref.env Ex.g2 (1 # 3) rot t H)
      as (Ht & _ & _ & _ & _ & _ & _ & _ & _ & _ & Hd & _).
    exists rot. subst t. split; [reflexivity | exact Hd].
  - exfalso.
    assert (Hok : is_ok (result (FourierRotation.__init__ (env := Ref.env) Ex.g2 (1 # 3)))
                  = true) by (vm_compute; reflexivity).
    rewrite H in Hok. discriminate Hok.
Defined.

(** X12. A call of a constructed rotation that succeeds makes six calls
    into the FFT module: a forward and an inverse transform along the last
    axis, then along the axis before it, then along the last axis again,
    as the three shears follow each other. *)
Theorem rotation_call_order :
  forall (env : Env) (input_grid : Grid) (angle : Q) (rot : FourierRotation.t)
         (v r : PyVal C) (adjoint : bool) (t0 t : list FFTCall),
    FourierRotation.__init__ input_grid angle = (Ok rot, t0) ->
    FourierRotation._operation rot v adjoint = (Ok r, t) ->
    exists s1 s2 s3 s4 s5 s6,
      t = [Call_fftn [(-1)%Z] s1; Call_ifftn [(-1)%Z] s2;
           Call_fftn [(-2)%Z] s3; Call_ifftn [(-2)%Z] s4;
           Call_fftn [(-1)%Z] s5; Call_ifftn [(-1)%Z] s6].
Proof.
  intros env input_grid angle rot v r adjoint t0 t Hinit H.
  apply rotation_init_inv in Hinit.
  destruct Hinit as (_ & _ & _ & fx & fy & ->).
  unfold FourierRotation._operation in H. simpl in H.
  apply bind_inv in H. destruct H as (f1 & t1 & t1' & H1 & H' & Et). subst. rename H' into H.
  apply bind_inv in H. destruct H as (f2 & t2 & t2' & H2 & H' & Et). subst. rename H' into H.
  apply bind_inv in H. destruct H as (f3 & t3 & t3' & H3 & H' & Et). subst. rename H' into H.
  unfold ret in H. inversion H; subst. clear H.
  apply shear_operation_inv in H1. destruct H1 as (u1 & g1 & _ & _ & _ & ->).
  apply shear_operation_inv in H2. destruct H2 as (u2 & g2 & _ & _ & _ & ->).
  apply shear_operation_inv in H3. destruct H3 as (u3 & g3 & _ & _ & _ & ->).
  simpl. do 6 eexists. reflexivity.
Qed.

Lemma rotation_call_order_witness :
  exists rot r,
    FourierRotation.__init__ (env := Ref.env) Ex.g2 0 = (Ok rot, []) /\
    FourierRotation._operation rot (VField Ex.u2) true
    = (Ok r, [Call_fftn [(-1)%Z] [2; 2]%nat; Call_ifftn [(-1)%Z] [2; 2]%nat;
              Call_fftn [(-2)%Z] [2; 2]%nat; Call_ifftn [(-2)%Z] [2; 2]%nat;
              Call_fftn [(-1)%Z] [2; 2]%nat; Call_ifftn [(-1)%Z] [2; 2]%nat]).
Proof.
  destruct (FourierRotation.__init__ (env := Ref.env) Ex.g2 0) as [[rot|e] t0] eqn:H0.
  - assert (Ht0 : fft_calls (FourierRotation.__init__ (env := Ref.env) Ex.g2 0) = [])
      by (vm_compute; reflexivity).
    rewrite H0 in Ht0. unfold fft_calls in Ht0. simpl in Ht0. subst t0.
    assert (Hrot : rot = Ex.rotation0)
      by (unfold Ex.rotation0, result; rewrite H0; reflexivity).
    destruct (FourierRotation._operation rot (VField Ex.u2) true) as [[r|e] t] eqn:H.
    + exists rot, r. split; [reflexivity|].
      destruct (@rotation_call_order Ref.env Ex.g2 0 rot (VField Ex.u2) r true [] t H0 H)
        as (s1 & s2 & s3 & s4 & s5 & s6 & Ht).
      assert (Hc : fft_calls (FourierRotation._operation Ex.rotation0 (VField Ex.u2) true)
                   = [Call_fftn [(-1)%Z] [2; 2]%nat; Call_ifftn [(-1)%Z] [2; 2]%nat;
                      Call_fftn [(-2)%Z] [2; 2]%nat; Call_ifftn [(-2)%Z] [2; 2]%nat;
                      Call_fftn [(-1)%Z] [2; 2]%nat; Call_ifftn [(-1)%Z] [2; 2]%nat])
        by (vm_compute; reflexivity).
      rewrite <- Hrot, H in Hc. unfold fft_calls in Hc. simpl in Hc.
      rewrite H, Hc. reflexivity.
    + exfalso.
      assert (Hok : is_ok (result (FourierRotation._operation Ex.rotation0
                                     (VField Ex.u2) true)) = true)
        by (vm_compute; reflexivity).
      rewrite <- Hrot, H in Hok. discriminate Hok.
  - exfalso.
    assert (Hok : is_ok (result (FourierRotation.__init__ (env := Ref.env) Ex.g2 0))
                  = true) by (vm_compute; reflexivity).
    rewrite H0 in Hok. discriminate Hok.
Defined.

(** ** Adjoints under the laws of the FFT *)

Lemma some_eq :
  forall (A : Type) (a b : A), Some a = Some b -> a = b.
Proof.
  intros A a b H. inversion H. reflexivity.
Qed.

(** X13. For a shear, under the laws of the numbers and of the FFT: the
    field that [forward] returns has the shape of the field given, and
    [backward] is the adjoint of [forward], that is, the inner product of
    [forward u] with [v] is that of [u] with [backward v]. *)
Theorem shear_adjoint_and_shape :
  forall (env : Env) (laws : Laws env) (self : FourierShear.t)
         (u v fu bv : Field C),
    grid_consistent (grid u) ->
    well_formed (shaped u) -> well_formed (shaped v) ->
    shape (shaped u) = shape (shaped v) ->
    result (FourierShear.forward self (VField u)) = Ok (VField fu) ->
    result (FourierShear.backward self (VField v)) = Ok (VField bv) ->
    shape (shaped fu) = shape (shaped u) /\
    well_formed (shaped fu) /\
    inner (data (arr fu)) (data (arr v)) = inner (data (arr u)) (data (arr bv)).
Proof.
  intros env laws self u v fu bv Hg Hu Hv Hs HF HB.
  destruct (@shear_operation_shape env laws self u fu false Hg Hu HF)
    as (Hw & Hsh & _).
  split; [exact Hsh|]. split; [exact Hw|].
  exact (@shear_adjoint_fields env laws self u v fu bv Hu Hv Hs HF HB).
Qed.

Lemma shear_adjoint_and_shape_witness :
  exists fu bv : Field (@C Ref.square_env),
    result (FourierShear.forward Ex.square_shear (VField Ex.cuc)) = Ok (VField fu) /\
    result (FourierShear.backward Ex.square_shear (VField Ex.cvc)) = Ok (VField bv) /\
    Ex.filter_samples (FourierShear._filter Ex.square_shear)
    = [Ref.G1; Ref.G1; Ref.cplx 0 (-1); Ref.Gi] /\
    Ex.samples fu = [(1, 1); (4, 1); (0, 2); (1, 0)]%Q /\
    Ex.samples bv = [(2, 0); (-1, 1); (1, -1); (1, 3)]%Q /\
    Ex.vdot fu Ex.cvc = (5, 1)%Q /\
    inner (env := Ref.square_env) (data (arr fu)) (data (arr Ex.cvc))
    = inner (env := Ref.square_env) (data (arr Ex.cuc)) (data (arr bv)).
Proof.
  assert (HvF : Ex.returned_samples
                  (result (FourierShear.forward Ex.square_shear (VField Ex.cuc)))
                = Some [(1, 1); (4, 1); (0, 2); (1, 0)]%Q)
    by (vm_compute; reflexivity).
  assert (HdF : Ex.returned_dot
                  (result (FourierShear.forward Ex.square_shear (VField Ex.cuc))) Ex.cvc
                = Some (5, 1)%Q)
    by (vm_compute; reflexivity).
  assert (HvB : Ex.returned_samples
                  (result (FourierShear.backward Ex.square_shear (VField Ex.cvc)))
                = Some [(2, 0); (-1, 1); (1, -1); (1, 3)]%Q)
    by (vm_compute; reflexivity).
  destruct (result (FourierShear.forward Ex.square_shear (VField Ex.cuc)))
    as [[fu|l]|e] eqn:HF; try discriminate HvF.
  destruct (result (FourierShear.backward Ex.square_shear (VField Ex.cvc)))
    as [[bv|l]|e] eqn:HB; try discriminate HvB.
  exists fu, bv. split; [reflexivity|]. split; [reflexivity|].
  split; [vm_compute; reflexivity|].
  split; [exact (@some_eq _ _ _ HvF)|].
  split; [exact (@some_eq _ _ _ HvB)|].
  split; [exact (@some_eq _ _ _ HdF)|].
  refine (proj2 (proj2 (@shear_adjoint_and_shape Ref.square_env laws_of_square_env
                          Ex.square_shear Ex.cuc Ex.cvc fu bv _ _ _ _ HF HB))).
  - split; [reflexivity | discriminate].
  - reflexivity.
  - reflexivity.
  - reflexivity.
Defined.

(** X14. For a shift, under the laws of the numbers and of the FFT and on
    complex fields of one shape: [forward] returns a field on the grid of
    the field given, and [backward] is the adjoint of [forward]. *)
Theorem shift_adjoint_and_grid :
  forall (env : Env) (laws : Laws env) (self : FourierShift.t)
         (u v Fu Bv : Field C),
    field_dtype u = complex128 -> field_dtype v = complex128 ->
    well_formed (shaped u) -> well_formed (shaped v) ->
    shape (shaped u) = shape (shaped v) ->
    result (FourierShift.forward self u) = Ok Fu ->
    result (FourierShift.backward self v) = Ok Bv ->
    grid Fu = grid u /\
    inner (data (arr Fu)) (data (arr v)) = inner (data (arr u)) (data (arr Bv)).
Proof.
  intros env laws self u v Fu Bv Du Dv Hu Hv Hs HF HB. split.
  - revert HF. unfold FourierShift.forward, FourierShift._operation.
    destruct (FourierShift._shift_filter self) as [flt|].
    + unfold result, bind, ret, np.lift, np.call_fftn, np.call_ifftn. simpl.
      destruct (np.imul _ _) as [X|e]; simpl; [|discriminate].
      destruct (reshape_m1 _ _) as [r1|e]; simpl; [|discriminate].
      intro HF. inversion HF. reflexivity.
    + unfold result, ret. simpl. intro HF. inversion HF.
      apply field_astype_frame.
  - exact (@shift_backward_is_adjoint env laws self u v Fu Bv Du Dv Hu Hv Hs HF HB).
Qed.

Lemma shift_adjoint_and_grid_witness :
  exists Fu Bv : Field (@C Ref.square_env),
    result (FourierShift.forward Ex.square_shift Ex.cuc) = Ok Fu /\
    result (FourierShift.backward Ex.square_shift Ex.cvc) = Ok Bv /\
    Ex.filter_samples (FourierShift._shift_filter Ex.square_shift)
    = [Ref.G1; Ref.Gi] /\
    Ex.samples Fu = [(1 # 2, - (1 # 2)); (7 # 2, 3 # 2); (3 # 2, 1 # 2); (1 # 2, 5 # 2)]%Q /\
    Ex.samples Bv = [(1 # 2, - (1 # 2)); (5 # 2, 1 # 2); (- (3 # 2), 1 # 2); (3 # 2, 5 # 2)]%Q /\
    Ex.vdot Fu Ex.cvc = (15, 6)%Q /\
    inner (env := Ref.square_env) (data (arr Fu)) (data (arr Ex.cvc))
    = inner (env := Ref.square_env) (data (arr Ex.cuc)) (data (arr Bv)).
Proof.
  assert (HvF : option_map Ex.samples
                  (Ex.value (FourierShift.forward Ex.square_shift Ex.cuc))
                = Some [(1 # 2, - (1 # 2)); (7 # 2, 3 # 2); (3 # 2, 1 # 2);
                        (1 # 2, 5 # 2)]%Q)
    by (vm_compute; reflexivity).
  assert (HdF : option_map (fun f => Ex.vdot f Ex.cvc)
                  (Ex.value (FourierShift.forward Ex.square_shift Ex.cuc))
                = Some (15, 6)%Q)
    by (vm_compute; reflexivity).
  assert (HvB : option_map Ex.samples
                  (Ex.value (FourierShift.backward Ex.square_shift Ex.cvc))
                = Some [(1 # 2, - (1 # 2)); (5 # 2, 1 # 2); (- (3 # 2), 1 # 2);
                        (3 # 2, 5 # 2)]%Q)
    by (vm_compute; reflexivity).
  unfold Ex.value in HvF, HdF, HvB.
  destruct (result (FourierShift.forward Ex.square_shift Ex.cuc)) as [Fu|e] eqn:HF;
    try discriminate HvF.
  destruct (result (FourierShift.backward Ex.square_shift Ex.cvc)) as [Bv|e] eqn:HB;
    try discriminate HvB.
  exists Fu, Bv. split; [reflexivity|]. split; [reflexivity|].
  split; [vm_compute; reflexivity|].
  split; [exact (@some_eq _ _ _ HvF)|].
  split; [exact (@some_eq _ _ _ HvB)|].
  split; [exact (@some_eq _ _ _ HdF)|].
  refine (proj2 (@shift_adjoint_and_grid Ref.square_env laws_of_square_env
                   Ex.square_shift Ex.cuc Ex.cvc Fu Bv _ _ _ _ _ HF HB));
    reflexivity.
Defined.

(** X15. For a filter as the constructor leaves it, with a scalar
    transfer function, under the laws of the numbers and of the FFT:
    [backward], called after [forward] with a field of the same shape,
    dtype and grid, is the adjoint of [forward]. *)
Theorem new_filter_backward_is_adjoint :
  forall (env : Env) (laws : Laws env) (input_grid : Grid)
         (transfer_function : FourierFilter.transfer_fn) (q : Q)
         (s1 s2 : FourierFilter.t) (u v Fu Bv : Field C) (tf : ndarray C),
    FourierFilter._transfer_function
      (FourierFilter._compute_functions
         (FourierFilter.__init__ input_grid transfer_function q) u) = Some tf ->
    (Z.of_nat (np.array_ndim tf)
     - Z.of_nat (ndim (fst (FastFourierTransform input_grid q))) =? 2)%Z = false ->
    field_dtype u = field_dtype v ->
    shape (arr u) = shape (arr v) ->
    grid u = grid v ->
    well_formed (shaped u) -> well_formed (shaped v) ->
    (forall co, snd (FastFourierTransform input_grid q) = Some co ->
       region_shape (tensor_shape u ++ grid_shape (fst (FastFourierTransform input_grid q)))
                    (repeat SliceAll (tensor_order u) ++ co)
       = shape (shaped u)) ->
    result (FourierFilter.forward
              (FourierFilter.__init__ input_grid transfer_function q) u) = Ok (Fu, s1) ->
    result (FourierFilter.backward s1 v) = Ok (Bv, s2) ->
    inner (data (arr Fu)) (data (arr v)) = inner (data (arr u)) (data (arr Bv)).
Proof.
  intros env laws input_grid transfer_function q s1 s2 u v Fu Bv tf
         Htf Hsc Hd Hs Hg Hu Hv Hco HF HB.
  exact (@filter_backward_is_adjoint env laws
           (FourierFilter.__init__ input_grid transfer_function q)
           s1 s2 u v Fu Bv tf eq_refl Htf Hsc Hd Hs Hg Hu Hv Hco HF HB).
Qed.

Lemma new_filter_backward_is_adjoint_witness :
  exists (Fu Bv : Field (@C Ref.unit_env)) (s1 s2 : FourierFilter.t (env := Ref.unit_env)),
    result (FourierFilter.forward Ex.unit_filter Ex.cu) = Ok (Fu, s1) /\
    result (FourierFilter.backward s1 Ex.cv) = Ok (Bv, s2) /\
    inner (env := Ref.unit_env) (data (arr Fu)) (data (arr Ex.cv))
    = inner (env := Ref.unit_env) (data (arr Ex.cu)) (data (arr Bv)).
Proof.
  assert (Hthen : Ex.then_ (FourierFilter.forward Ex.unit_filter Ex.cu)
                    (fun s => is_ok (result (FourierFilter.backward s Ex.cv)))
                  = Some true) by (vm_compute; reflexivity).
  unfold Ex.then_ in Hthen.
  destruct (result (FourierFilter.forward Ex.unit_filter Ex.cu))
    as [[Fu s1]|e] eqn:HF; [|discriminate Hthen].
  destruct (result (FourierFilter.backward s1 Ex.cv)) as [[Bv s2]|e] eqn:HB;
    [|discriminate Hthen].
  exists Fu, Bv, s1, s2. split; [reflexivity|]. split; [exact HB|].
  refine (@new_filter_backward_is_adjoint Ref.unit_env laws_of_unit_env Ex.g1
            (FourierFilter.Given (env := Ref.unit_env)
               (Ex.cfield (fst (Ref.padded_fft Ex.g1 2)) []
                          [(1, 1); (2, -3); (0, 1); (-1, 2)]%Q)) 2
            s1 s2 Ex.cu Ex.cv Fu Bv _ eq_refl _ _ _ _ _ _ _ HF HB);
    try reflexivity.
  intros co Hco. vm_compute in Hco. inversion Hco; subst. reflexivity.
Defined.

(** X16. For a rotation, under the laws of the numbers and of the FFT: of
    the three fields that [forward] and [backward] return, the first ones
    and the third ones are adjoint to each other, that is, the first
    shear and the whole sequence of the three shears have [backward] as
    their adjoint. *)
Theorem rotation_components_adjoint :
  forall (env : Env) (laws : Laws env) (self : FourierRotation.t)
         (u v f1 f2 f3 b1 b2 b3 : Field C),
    grid_consistent (grid u) -> grid_consistent (grid v) ->
    well_formed (shaped u) -> well_formed (shaped v) ->
    shape (shaped u) = shape (shaped v) ->
    result (FourierRotation.forward self (VField u))
    = Ok (VTuple [VField f1; VField f2; VField f3]) ->
    result (FourierRotation.backward self (VField v))
    = Ok (VTuple [VField b1; VField b2; VField b3]) ->
    inner (data (arr f1)) (data (arr v)) = inner (data (arr u)) (data (arr b1)) /\
    inner (data (arr f3)) (data (arr v)) = inner (data (arr u)) (data (arr b3)).
Proof.
  intros env laws self u v f1 f2 f3 b1 b2 b3 Hgu Hgv Hu Hv Hs HF HB.
  split.
  - assert (H1 : result (FourierShear._operation (FourierRotation._shear_x self)
                           (VField u) false) = Ok (VField f1)).
    { revert HF.
      unfold FourierRotation.forward, FourierRotation._operation, result, bind, ret.
      destruct (FourierShear._operation (FourierRotation._shear_x self) (VField u) false)
        as [[r1|e] t1]; simpl; [|discriminate].
      destruct (FourierShear._operation (FourierRotation._shear_y self) r1 false)
        as [[r2|e] t2]; simpl; [|discriminate].
      destruct (FourierShear._operation (FourierRotation._shear_x self) r2 false)
        as [[r3|e] t3]; simpl; [|discriminate].
      intro H. inversion H. reflexivity. }
    assert (H2 : result (FourierShear._operation (FourierRotation._shear_x self)
                           (VField v) true) = Ok (VField b1)).
    { revert HB.
      unfold FourierRotation.backward, FourierRotation._operation, result, bind, ret.
      destruct (FourierShear._operation (FourierRotation._shear_x self) (VField v) true)
        as [[r1|e] t1]; simpl; [|discriminate].
      destruct (FourierShear._operation (FourierRotation._shear_y self) r1 true)
        as [[r2|e] t2]; simpl; [|discriminate].
      destruct (FourierShear._operation (FourierRotation._shear_x self) r2 true)
        as [[r3|e] t3]; simpl; [|discriminate].
      intro H. inversion H. reflexivity. }
    exact (@shear_adjoint_fields env laws (FourierRotation._shear_x self)
             u v f1 b1 Hu Hv Hs H1 H2).
  - destruct (@rotation_third_component_is_adjoint env laws self u v _ _
                Hgu Hgv Hu Hv Hs HF HB)
      as (f1' & f2' & f3' & b1' & b2' & b3' & EF & EB & H).
    inversion EF; inversion EB; subst. exact H.
Qed.

Lemma rotation_components_adjoint_witness :
  exists f1 f2 f3 b1 b2 b3 : Field (@C Ref.square_env),
    result (FourierRotation.forward Ex.square_rotation (VField Ex.cuc))
    = Ok (VTuple [VField f1; VField f2; VField f3]) /\
    result (FourierRotation.backward Ex.square_rotation (VField Ex.cvc))
    = Ok (VTuple [VField b1; VField b2; VField b3]) /\
    Ex.filter_samples
      (FourierShear._filter (FourierRotation._shear_x Ex.square_rotation))
    = [Ref.G1; Ref.cplx 0 (-1); Ref.G1; Ref.Gi] /\
    Ex.filter_samples
      (FourierShear._filter (FourierRotation._shear_y Ex.square_rotation))
    = [Ref.G1; Ref.G1; Ref.Gi; Ref.cplx 0 (-1)] /\
    Ex.samples f3 = [(1, 0); (0, 3); (3, 1); (2, 0)]%Q /\
    [Ex.vdot f1 Ex.cvc; Ex.vdot f2 Ex.cvc; Ex.vdot f3 Ex.cvc]
    = [(14, - (2)); (6, - (1)); (6, 1)]%Q /\
    inner (env := Ref.square_env) (data (arr f1)) (data (arr Ex.cvc))
    = inner (env := Ref.square_env) (data (arr Ex.cuc)) (data (arr b1)) /\
    inner (env := Ref.square_env) (data (arr f3)) (data (arr Ex.cvc))
    = inner (env := Ref.square_env) (data (arr Ex.cuc)) (data (arr b3)).
Proof.
  assert (HvF : Ex.triple_samples
                  (result (FourierRotation.forward Ex.square_rotation (VField Ex.cuc)))
                = Some [[(7 # 2, 3 # 2); (1 # 2, - (1 # 2)); (3 # 2, 1 # 2);
                         (1 # 2, 5 # 2)];
                        [(2, 2); (- (1), 1); (3, 0); (2, 1)];
                        [(1, 0); (0, 3); (3, 1); (2, 0)]]%Q)
    by (vm_compute; reflexivity).
  assert (HdF : Ex.triple_dots
                  (result (FourierRotation.forward Ex.square_rotation (VField Ex.cuc)))
                  Ex.cvc
                = Some [(14, - (2)); (6, - (1)); (6, 1)]%Q)
    by (vm_compute; reflexivity).
  assert (HokB : Ex.is_triple (result (FourierRotation.backward Ex.square_rotation
                                         (VField Ex.cvc))) = true)
    by (vm_compute; reflexivity).
  destruct (result (FourierRotation.forward Ex.square_rotation (VField Ex.cuc)))
    as [[x|[|[f1|?] [|[f2|?] [|[f3|?] [|? ?]]]]]|e] eqn:HF;
    try discriminate HvF.
  destruct (result (FourierRotation.backward Ex.square_rotation (VField Ex.cvc)))
    as [[x|[|[b1|?] [|[b2|?] [|[b3|?] [|? ?]]]]]|e] eqn:HB;
    try discriminate HokB.
  exists f1, f2, f3, b1, b2, b3. split; [reflexivity|]. split; [reflexivity|].
  split; [vm_compute; reflexivity|].
  split; [vm_compute; reflexivity|].
  split; [exact (f_equal (fun o => match o with Some [_; _; x] => x | _ => [] end) HvF)|].
  split; [exact (@some_eq _ _ _ HdF)|].
  refine (@rotation_components_adjoint Ref.square_env laws_of_square_env
            Ex.square_rotation Ex.cuc Ex.cvc f1 f2 f3 b1 b2 b3
            _ _ _ _ _ HF HB).
  - split; [reflexivity | discriminate].
  - split; [reflexivity | discriminate].
  - reflexivity.
  - reflexivity.
  - reflexivity.
Defined.

(** ** The propagator: instances *)





(** X19. For a positive wavelength and a grid whose largest extent is
    positive, the choice of the impulse response grows with the distance:
    when it is chosen for the distance of the propagator, it is chosen
    after the distance is set to any larger value. *)
Theorem impulse_response_monotone_in_distance :
  forall (env : Env) (self : AngularSpectrumPropagator.t) (input_grid : Grid)
         (wavelength L distance : Q),
    0 < wavelength -> 0 < L ->
    AngularSpectrumPropagator.distance self <= distance ->
    AngularSpectrumPropagator.uses_impulse_response self input_grid wavelength L = true ->
    AngularSpectrumPropagator.uses_impulse_response
      (AngularSpectrumPropagator.set_distance self distance) input_grid wavelength L
    = true.
Proof.
  intros env self input_grid wavelength L distance Hw HL Hd.
  unfold AngularSpectrumPropagator.uses_impulse_response.
  assert (HL0 : ~ L == 0).
  { intro E. rewrite E in HL. apply (Qlt_irrefl 0). exact HL. }
  rewrite !(@existsb_Exists Q _ _ (fun a => @lt_quotient_lt env a _ L HL0)).
  intro H. apply Exists_exists in H. apply Exists_exists.
  destruct H as (dx & Hin & Hlt). exists dx. split; [exact Hin|].
  eapply Qlt_le_trans; [exact Hlt|].
  change (AngularSpectrumPropagator.distance
            (AngularSpectrumPropagator.set_distance self distance)) with distance.
  apply fround_monotone.
  unfold Qdiv. apply Qmult_le_compat_r.
  - apply fround_monotone. rewrite !(Qmult_comm wavelength).
    apply Qmult_le_compat_r; [exact Hd | apply Qlt_le_weak; exact Hw].
  - apply Qlt_le_weak. apply Qinv_lt_0_compat. exact HL.
Qed.

Lemma impulse_response_monotone_in_distance_witness :
  AngularSpectrumPropagator.uses_impulse_response
    (AngularSpectrumPropagator.set_distance
       (AngularSpectrumPropagator.__init__ (env := Ref.env)
          (Ex.regular_grid [4; 4]%nat) 100%Q 2%nat
          (AngularSpectrumPropagator.Constant 1%Q)) 200%Q)
    (Ex.regular_grid [4; 4]%nat) 1%Q 4%Q = true.
Proof.
  refine (@impulse_response_monotone_in_distance Ref.env
            (AngularSpectrumPropagator.__init__ (env := Ref.env)
               (Ex.regular_grid [4; 4]%nat) 100%Q 2%nat
               (AngularSpectrumPropagator.Constant 1%Q))
            (Ex.regular_grid [4; 4]%nat) 1%Q 4%Q 200%Q _ _ _ _).
  - reflexivity.
  - reflexivity.
  - discriminate.
  - reflexivity.
Defined.

Lemma Qlist_eqb_refl : forall l : list Q, Qlist_eqb l l = true.
Proof.
  intro l. unfold Qlist_eqb. rewrite Nat.eqb_refl. simpl.
  induction l as [|x l IH]; simpl; [reflexivity|].
  rewrite IH, andb_true_r. apply Qeq_bool_iff. reflexivity.
Qed.

Lemma key_eqb_refl :
  forall k : Grid * Q, AngularSpectrumPropagator.key_eqb k k = true.
Proof.
  intros [g w]. unfold AngularSpectrumPropagator.key_eqb, grid_eqb. simpl.
  rewrite Nat.eqb_refl, natlist_eqb_refl, !Qlist_eqb_refl, !Bool.eqb_reflx. simpl.
  apply Qeq_bool_iff. reflexivity.
Qed.

Lemma lookup_store :
  forall (env : Env) (k : Grid * Q) (v : AngularSpectrumPropagator.instance_data)
         (l : list ((Grid * Q) * AngularSpectrumPropagator.instance_data)),
    AngularSpectrumPropagator.lookup k (AngularSpectrumPropagator.store k v l) = Some v.
Proof.
  intros env k v l. induction l as [|[k' w] l IH]; simpl.
  - rewrite key_eqb_refl. reflexivity.
  - destruct (AngularSpectrumPropagator.key_eqb k k') eqn:E; simpl; rewrite E.
    + reflexivity.
    + exact IH.
Qed.

Lemma store_store :
  forall (env : Env) (k : Grid * Q) (v : AngularSpectrumPropagator.instance_data)
         (l : list ((Grid * Q) * AngularSpectrumPropagator.instance_data)),
    AngularSpectrumPropagator.store k v (AngularSpectrumPropagator.store k v l)
    = AngularSpectrumPropagator.store k v l.
Proof.
  intros env k v l. induction l as [|[k' w] l IH]; simpl.
  - rewrite key_eqb_refl. reflexivity.
  - destruct (AngularSpectrumPropagator.key_eqb k k') eqn:E; simpl; rewrite E.
    + reflexivity.
    + rewrite IH. reflexivity.
Qed.

(** X20. A propagation that succeeds can be repeated: [forward] (or
    [backward]) of the same wavefront on the propagator that the call
    leaves takes the instance from the cache, returns the same wavefront
    and leaves the propagator as it is.  It does not evaluate the transfer
    function again: it makes the calls into the FFT module that the first
    call made after those of the generator of its filter (the transformed
    impulse response runs a transform when the filter first evaluates
    it). *)
Theorem propagation_repeats :
  forall (env : Env) (adjoint : bool) (self s1 : AngularSpectrumPropagator.t)
         (wavefront res : Wavefront C) (t : list FFTCall),
    (if adjoint then AngularSpectrumPropagator.backward self wavefront
     else AngularSpectrumPropagator.forward self wavefront) = (Ok (res, s1), t) ->
    AngularSpectrumPropagator.lookup
      (grid (electric_field wavefront), wavelength wavefront)
      (AngularSpectrumPropagator.instances s1) <> None /\
    exists inst self' t',
      AngularSpectrumPropagator.get_instance_data
        self (grid (electric_field wavefront)) (wavelength wavefront)
      = Ok (inst, self') /\
      t = FourierFilter._compute_functions_calls
            (AngularSpectrumPropagator.fourier_filter inst)
            (electric_field wavefront) ++ t' /\
      (if adjoint then AngularSpectrumPropagator.backward s1 wavefront
       else AngularSpectrumPropagator.forward s1 wavefront) = (Ok (res, s1), t').
Proof.
  intros env adjoint self s1 wavefront res t.
  set (method := if adjoint then AngularSpectrumPropagator.backward_method
                 else AngularSpectrumPropagator.forward_method).
  assert (Hm : forall s,
             (if adjoint then AngularSpectrumPropagator.backward s wavefront
              else AngularSpectrumPropagator.forward s wavefront)
             = AngularSpectrumPropagator.make_agnostic method s wavefront)
    by (intro s; unfold method; destruct adjoint; reflexivity).
  rewrite !Hm. clear Hm.
  assert (Hmethod : forall i,
             method i wavefront
             = bind (FourierFilter._operation
                       (AngularSpectrumPropagator.fourier_filter i)
                       (electric_field wavefront) adjoint)
                    (fun p => let '(filtered, ff) := p in
                              ret ({| electric_field := filtered;
                                      wavelength := wavelength wavefront;
                                      input_stokes_vector :=
                                        input_stokes_vector wavefront |}, ff)))
    by (intro i; unfold method; destruct adjoint; reflexivity).
  unfold AngularSpectrumPropagator.make_agnostic. simpl fst. simpl snd.
  set (key := (grid (electric_field wavefront), wavelength wavefront)).
  intro H. apply bind_inv in H.
  destruct H as ([inst self'] & t1 & t1' & Hget & H' & Et). subst t.
  unfold np.lift in Hget. inversion Hget as [[Hget' Ht1]]. clear Hget.
  apply bind_inv in H'.
  destruct H' as ([res' ff] & t2 & t2' & Hcall & Hret & Et). subst t1'.
  unfold ret in Hret. inversion Hret; subst res' s1 t2'. clear Hret.
  rewrite Hmethod in Hcall. apply bind_inv in Hcall.
  destruct Hcall as ([filtered ff'] & t3 & t3' & Hop & Hret & Et). subst t2.
  unfold ret in Hret. inversion Hret; subst res ff' t3'. clear Hret.
  assert (Hlook : AngularSpectrumPropagator.lookup key
                    (AngularSpectrumPropagator.instances
                       (AngularSpectrumPropagator.update_instance self' key ff))
                  = Some {| AngularSpectrumPropagator.fourier_filter := ff |})
    by (apply lookup_store).
  split; [rewrite Hlook; discriminate|].
  destruct (@operation_inv_body env _ ff (electric_field wavefront) filtered
              adjoint t3 Hop) as (t' & Hbody & Ht3).
  destruct (@operation_after_call env _ ff (electric_field wavefront) filtered
              adjoint adjoint t3 Hop) as [_ Hrep].
  exists inst, self', t'. split; [exact Hget'|]. split.
  - rewrite Ht3, !app_nil_r. reflexivity.
  - unfold AngularSpectrumPropagator.get_instance_data.
    fold key. rewrite Hlook. unfold np.lift, bind at 1.
    rewrite Hmethod. simpl AngularSpectrumPropagator.fourier_filter.
    rewrite Hrep, Hbody.
    unfold bind, ret. simpl. rewrite !app_nil_r.
    unfold AngularSpectrumPropagator.update_instance. simpl.
    rewrite store_store. reflexivity.
Qed.

Lemma propagation_repeats_witness :
  exists res s1,
    AngularSpectrumPropagator.forward
      (AngularSpectrumPropagator.__init__ (env := Ref.env)
         Ex.g2 100%Q 2%nat (AngularSpectrumPropagator.Constant 1%Q))
      {| electric_field := Ex.u2; wavelength := 1%Q;
         input_stokes_vector := None |}
    = (Ok (res, s1),
       [Call_fftn [(-2)%Z; (-1)%Z] [4; 4]%nat;
        Call_fftn [(-2)%Z; (-1)%Z] [4; 4]%nat;
        Call_ifftn [(-2)%Z; (-1)%Z] [4; 4]%nat]) /\
    AngularSpectrumPropagator.forward s1
      {| electric_field := Ex.u2; wavelength := 1%Q;
         input_stokes_vector := None |}
    = (Ok (res, s1),
       [Call_fftn [(-2)%Z; (-1)%Z] [4; 4]%nat;
        Call_ifftn [(-2)%Z; (-1)%Z] [4; 4]%nat]).
Proof.
  destruct (AngularSpectrumPropagator.forward
              (AngularSpectrumPropagator.__init__ (env := Ref.env)
                 Ex.g2 100%Q 2%nat (AngularSpectrumPropagator.Constant 1%Q))
              {| electric_field := Ex.u2; wavelength := 1%Q;
                 input_stokes_vector := None |}) as [[[res s1]|e] t] eqn:H.
  - exists res, s1.
    assert (Ht : fft_calls (AngularSpectrumPropagator.forward
                    (AngularSpectrumPropagator.__init__ (env := Ref.env)
                       Ex.g2 100%Q 2%nat (AngularSpectrumPropagator.Constant 1%Q))
                    {| electric_field := Ex.u2; wavelength := 1%Q;
                       input_stokes_vector := None |})
                 = [Call_fftn [(-2)%Z; (-1)%Z] [4; 4]%nat;
                    Call_fftn [(-2)%Z; (-1)%Z] [4; 4]%nat;
                    Call_ifftn [(-2)%Z; (-1)%Z] [4; 4]%nat])
      by (vm_compute; reflexivity).
    rewrite H in Ht. unfold fft_calls in Ht. simpl in Ht. subst t.
    split; [reflexivity|].
    destruct (proj2 (@propagation_repeats Ref.env false
                       (AngularSpectrumPropagator.__init__ (env := Ref.env)
                          Ex.g2 100%Q 2%nat (AngularSpectrumPropagator.Constant 1%Q))
                       s1
                       {| electric_field := Ex.u2; wavelength := 1%Q;
                          input_stokes_vector := None |}
                       res _ H))
      as (inst & self' & t' & Hget & Ht & Hrep).
    assert (Hinst : FourierFilter._compute_functions_calls
                      (AngularSpectrumPropagator.fourier_filter inst) Ex.u2
                    = [Call_fftn [(-2)%Z; (-1)%Z] [4; 4]%nat]).
    { assert (Hmk : AngularSpectrumPropagator.make_instance
                      (AngularSpectrumPropagator.__init__ (env := Ref.env)
                         Ex.g2 100%Q 2%nat (AngularSpectrumPropagator.Constant 1%Q))
                      Ex.g2 Ex.g2 1%Q
                    = Ok {| AngularSpectrumPropagator.fourier_filter :=
                              FourierFilter.__init__ Ex.g2
                                (FourierFilter.Generator
                                   (AngularSpectrumPropagator.call
                                      (AngularSpectrumPropagator.transfer_function_impulse_response
                                         1 1 100 2))) 2 |})
        by reflexivity.
      unfold AngularSpectrumPropagator.get_instance_data in Hget.
      change (AngularSpectrumPropagator.lookup _ _)
        with (@None (AngularSpectrumPropagator.instance_data (env := Ref.env))) in Hget.
      cbv beta iota in Hget.
      change (AngularSpectrumPropagator.get_output_grid _ _ _) with Ex.g2 in Hget.
      simpl electric_field in Hget. simpl grid in Hget. simpl wavelength in Hget.
      change (grid Ex.u2) with Ex.g2 in Hget.
      rewrite Hmk in Hget. inversion Hget. vm_compute. reflexivity. }
    simpl electric_field in Ht. rewrite Hinst in Ht.
    inversion Ht; subst t'. exact Hrep.
  - exfalso.
    assert (Hok : is_ok (result (AngularSpectrumPropagator.forward
                    (AngularSpectrumPropagator.__init__ (env := Ref.env)
                       Ex.g2 100%Q 2%nat (AngularSpectrumPropagator.Constant 1%Q))
                    {| electric_field := Ex.u2; wavelength := 1%Q;
                       input_stokes_vector := None |})) = true)
      by (vm_compute; reflexivity).
    rewrite H in Hok. discriminate Hok.
Defined.

(** X21. The constructor of the propagator ignores its grid argument and
    accepts any grid; the grid is checked when an instance is made: a
    call of [forward] or [backward] with a wavefront on a grid that is not
    regular or not Cartesian, for which no instance is cached, raises
    ValueError before any call into the FFT module. *)
Theorem irregular_grid_rejected_at_call :
  forall (env : Env) (adjoint : bool) (self : AngularSpectrumPropagator.t)
         (wavefront : Wavefront C),
    AngularSpectrumPropagator.lookup
      (grid (electric_field wavefront), wavelength wavefront)
      (AngularSpectrumPropagator.instances self) = None ->
    is_regular (grid (electric_field wavefront)) = false \/
    is_cartesian (grid (electric_field wavefront)) = false ->
    (if adjoint then AngularSpectrumPropagator.backward self wavefront
     else AngularSpectrumPropagator.forward self wavefront)
    = (Raise ValueError, []) /\
    (forall (input_grid input_grid' : Grid) (distance : Q) (num_oversampling : nat)
            (refractive_index : AngularSpectrumPropagator.parameter),
        AngularSpectrumPropagator.__init__ input_grid distance num_oversampling
                                           refractive_index
        = AngularSpectrumPropagator.__init__ input_grid' distance num_oversampling
                                             refractive_index).
Proof.
  intros env adjoint self wavefront Hlook Hbad. split; [|reflexivity].
  assert (Hc : negb (is_regular (grid (electric_field wavefront)))
               || negb (is_cartesian (grid (electric_field wavefront))) = true).
  { destruct Hbad as [H | H]; rewrite H; [reflexivity | apply orb_true_r]. }
  destruct adjoint;
    unfold AngularSpectrumPropagator.backward, AngularSpectrumPropagator.forward,
           AngularSpectrumPropagator.make_agnostic,
           AngularSpectrumPropagator.get_instance_data,
           AngularSpectrumPropagator.make_instance,
           AngularSpectrumPropagator.select_transfer_function,
           AngularSpectrumPropagator.get_output_grid;
    simpl fst; simpl snd; rewrite Hlook, Hc; reflexivity.
Qed.

Lemma irregular_grid_rejected_at_call_witness :
  AngularSpectrumPropagator.forward
    (AngularSpectrumPropagator.__init__ (env := Ref.env)
       Ex.g2 1%Q 2%nat (AngularSpectrumPropagator.Constant 1%Q))
    {| electric_field :=
         Ex.field {| ndim := 2; dims := [2; 2]%nat; delta := [1; 1]%Q;
                     zero := [0; 0]%Q; is_regular := false; is_cartesian := true |}
                  [] [1; 2; 3; 4]%Q;
       wavelength := 1%Q; input_stokes_vector := None |}
  = (Raise ValueError, []).
Proof.
  refine (proj1 (@irregular_grid_rejected_at_call Ref.env false
                   (AngularSpectrumPropagator.__init__ (env := Ref.env)
                      Ex.g2 1%Q 2%nat (AngularSpectrumPropagator.Constant 1%Q))
                   {| electric_field :=
                        Ex.field {| ndim := 2; dims := [2; 2]%nat; delta := [1; 1]%Q;
                                    zero := [0; 0]%Q; is_regular := false;
                                    is_cartesian := true |}
                                 [] [1; 2; 3; 4]%Q;
                      wavelength := 1%Q; input_stokes_vector := None |} _ _)).
  - reflexivity.
  - left. reflexivity.
Defined.

(** X22. A call of [forward] or [backward] that succeeds changes the
    cache of instances only: the distance, the oversampling and the
    refractive index of the propagator are kept.  Each of the three
    setters then drops every instance, those made by the call included,
    and leaves the propagator as the constructor would with the new value
    and the two other parameters. *)
Theorem call_keeps_parameters_and_setters_reset :
  forall (env : Env) (adjoint : bool) (self s1 : AngularSpectrumPropagator.t)
         (wavefront res : Wavefront C) (t : list FFTCall) (input_grid : Grid)
         (distance : Q) (num_oversampling : nat)
         (refractive_index : AngularSpectrumPropagator.parameter),
    (if adjoint then AngularSpectrumPropagator.backward self wavefront
     else AngularSpectrumPropagator.forward self wavefront) = (Ok (res, s1), t) ->
    (AngularSpectrumPropagator.distance s1 = AngularSpectrumPropagator.distance self /\
     AngularSpectrumPropagator.num_oversampling s1
     = AngularSpectrumPropagator.num_oversampling self /\
     AngularSpectrumPropagator.refractive_index s1
     = AngularSpectrumPropagator.refractive_index self) /\
    AngularSpectrumPropagator.set_distance s1 distance
    = AngularSpectrumPropagator.__init__ input_grid distance
        (AngularSpectrumPropagator.num_oversampling self)
        (AngularSpectrumPropagator.refractive_index self) /\
    AngularSpectrumPropagator.set_num_oversampling s1 num_oversampling
    = AngularSpectrumPropagator.__init__ input_grid
        (AngularSpectrumPropagator.distance self) num_oversampling
        (AngularSpectrumPropagator.refractive_index self) /\
    AngularSpectrumPropagator.set_refractive_index s1 refractive_index
    = AngularSpectrumPropagator.__init__ input_grid
        (AngularSpectrumPropagator.distance self)
        (AngularSpectrumPropagator.num_oversampling self) refractive_index.
Proof.
  intros env adjoint self s1 wavefront res t input_grid distance num_oversampling
         refractive_index H.
  assert (Hkeep :
            AngularSpectrumPropagator._distance s1
            = AngularSpectrumPropagator._distance self /\
            AngularSpectrumPropagator._num_oversampling s1
            = AngularSpectrumPropagator._num_oversampling self /\
            AngularSpectrumPropagator._refractive_index s1
            = AngularSpectrumPropagator._refractive_index self).
  { assert (Hm : exists method,
               AngularSpectrumPropagator.make_agnostic method self wavefront
               = (Ok (res, s1), t)).
    { destruct adjoint; eexists; exact H. }
    destruct Hm as [method Hm].
    unfold AngularSpectrumPropagator.make_agnostic in Hm.
    apply bind_inv in Hm.
    destruct Hm as ([inst self'] & t1 & t1' & Hget & H' & Et).
    unfold np.lift in Hget. inversion Hget as [[Hget' Ht1]]. clear Hget.
    apply bind_inv in H'.
    destruct H' as ([res' ff] & t2 & t2' & Hcall & Hret & Et').
    unfold ret in Hret. inversion Hret; subst.
    unfold AngularSpectrumPropagator.update_instance. simpl.
    unfold AngularSpectrumPropagator.get_instance_data in Hget'.
    destruct (AngularSpectrumPropagator.lookup _ _) as [d|].
    - inversion Hget'; subst. repeat split.
    - destruct (AngularSpectrumPropagator.make_instance _ _ _ _) as [d|e];
        [|discriminate Hget'].
      inversion Hget'; subst. repeat split. }
  destruct Hkeep as (Hd & Hn & Hr).
  split; [repeat split; assumption|].
  unfold AngularSpectrumPropagator.set_distance,
         AngularSpectrumPropagator.set_num_oversampling,
         AngularSpectrumPropagator.set_refractive_index,
         AngularSpectrumPropagator.clear_cache,
         AngularSpectrumPropagator.__init__,
         AngularSpectrumPropagator.distance,
         AngularSpectrumPropagator.num_oversampling,
         AngularSpectrumPropagator.refractive_index.
  simpl. rewrite Hd, Hn, Hr. repeat split.
Qed.

Lemma call_keeps_parameters_and_setters_reset_witness :
  exists res s1 t,
    AngularSpectrumPropagator.backward
      (AngularSpectrumPropagator.__init__ (env := Ref.env)
         Ex.g2 0%Q 2%nat (AngularSpectrumPropagator.Constant 1%Q))
      {| electric_field := Ex.u2; wavelength := 1%Q;
         input_stokes_vector := None |}
    = (Ok (res, s1), t) /\
    AngularSpectrumPropagator.set_distance s1 5%Q
    = AngularSpectrumPropagator.__init__ Ex.g1 5%Q 2%nat
        (AngularSpectrumPropagator.Constant 1%Q).
Proof.
  destruct (AngularSpectrumPropagator.backward
              (AngularSpectrumPropagator.__init__ (env := Ref.env)
                 Ex.g2 0%Q 2%nat (AngularSpectrumPropagator.Constant 1%Q))
              {| electric_field := Ex.u2; wavelength := 1%Q;
                 input_stokes_vector := None |}) as [[[res s1]|e] t] eqn:H.
  - exists res, s1, t. split; [reflexivity|].
    exact (proj1 (proj2 (@call_keeps_parameters_and_setters_reset Ref.env true _ s1 _
                           res t Ex.g1 5%Q 0%nat
                           (AngularSpectrumPropagator.Constant 1%Q) H))).
  - exfalso.
    assert (Hok : is_ok (result (AngularSpectrumPropagator.backward
                    (AngularSpectrumPropagator.__init__ (env := Ref.env)
                       Ex.g2 0%Q 2%nat (AngularSpectrumPropagator.Constant 1%Q))
                    {| electric_field := Ex.u2; wavelength := 1%Q;
                       input_stokes_vector := None |})) = true)
      by (vm_compute; reflexivity).
    rewrite H in Hok. discriminate Hok.
Defined.

(** X23. A propagation that makes its instance and succeeds returns a
    wavefront whose field is on the grid of the wavefront given.  Its
    calls into the FFT module are those that the transfer function chosen
    by [make_instance] makes when the filter evaluates it on its padded
    grid (none for the transfer function in frequency space; the
    transform of the impulse response otherwise), and then one forward and
    one inverse transform over the last axes of the array, as many as the
    grid of the wavefront has dimensions. *)
Theorem propagation_trace_and_grid :
  forall (env : Env) (adjoint : bool) (self s1 : AngularSpectrumPropagator.t)
         (wavefront res : Wavefront C) (t : list FFTCall),
    AngularSpectrumPropagator.lookup
      (grid (electric_field wavefront), wavelength wavefront)
      (AngularSpectrumPropagator.instances self) = None ->
    (if adjoint then AngularSpectrumPropagator.backward self wavefront
     else AngularSpectrumPropagator.forward self wavefront) = (Ok (res, s1), t) ->
    grid (electric_field res) = grid (electric_field wavefront) /\
    exists c sh1 sh2,
      AngularSpectrumPropagator.select_transfer_function
        self (grid (electric_field wavefront)) (grid (electric_field wavefront))
        (wavelength wavefront) = Ok c /\
      t = snd (AngularSpectrumPropagator.call c
                 (fst (FastFourierTransform (grid (electric_field wavefront)) 2))) ++
          [Call_fftn (last_axes (ndim (grid (electric_field wavefront)))) sh1;
           Call_ifftn (last_axes (ndim (grid (electric_field wavefront)))) sh2] /\
      (is_impulse_response c = false ->
       snd (AngularSpectrumPropagator.call c
              (fst (FastFourierTransform (grid (electric_field wavefront)) 2))) = []).
Proof.
  intros env adjoint self s1 wavefront res t Hlook H.
  set (method := if adjoint then AngularSpectrumPropagator.backward_method
                 else AngularSpectrumPropagator.forward_method).
  assert (Hm : AngularSpectrumPropagator.make_agnostic method self wavefront
               = (Ok (res, s1), t))
    by (unfold method; destruct adjoint; exact H).
  assert (Hmethod : forall i,
             method i wavefront
             = bind (FourierFilter._operation
                       (AngularSpectrumPropagator.fourier_filter i)
                       (electric_field wavefront) adjoint)
                    (fun p => let '(filtered, ff) := p in
                              ret ({| electric_field := filtered;
                                      wavelength := wavelength wavefront;
                                      input_stokes_vector :=
                                        input_stokes_vector wavefront |}, ff)))
    by (intro i; unfold method; destruct adjoint; reflexivity).
  clear H. unfold AngularSpectrumPropagator.make_agnostic in Hm.
  simpl fst in Hm. simpl snd in Hm.
  apply bind_inv in Hm.
  destruct Hm as ([inst self'] & t1 & t1' & Hget & H' & Et). subst t.
  unfold np.lift in Hget. inversion Hget as [[Hget' Ht1]]. clear Hget.
  apply bind_inv in H'.
  destruct H' as ([res' ff] & t2 & t2' & Hcall & Hret & Et). subst t1'.
  unfold ret in Hret. inversion Hret; subst res' s1 t2'. clear Hret.
  rewrite Hmethod in Hcall. apply bind_inv in Hcall.
  destruct Hcall as ([filtered ff'] & t3 & t3' & Hop & Hret & Et). subst t2.
  unfold ret in Hret. inversion Hret; subst res ff' t3'. clear Hret.
  (* the instance is the one that [make_instance] builds on the grid of the
     wavefront *)
  unfold AngularSpectrumPropagator.get_instance_data in Hget'.
  rewrite Hlook in Hget'.
  destruct (AngularSpectrumPropagator.make_instance _ _ _ _) as [d|e] eqn:Hmk;
    [|discriminate Hget'].
  inversion Hget'; subst inst self'. clear Hget'.
  unfold AngularSpectrumPropagator.make_instance,
         AngularSpectrumPropagator.get_output_grid in Hmk.
  destruct (AngularSpectrumPropagator.select_transfer_function _ _ _ _) as [c|e]
    eqn:Hsel; [|discriminate Hmk].
  inversion Hmk; subst d. clear Hmk.
  destruct (@filter_operation_inv env _ _ _ _ _ _ Hop) as ((sh1 & sh2 & Ht) & HF & _).
  simpl. split; [exact HF|].
  exists c, sh1, sh2. split; [reflexivity|]. split.
  - rewrite Ht, !app_nil_r. reflexivity.
  - intro Hc. destruct c; [discriminate Hc | reflexivity].
Qed.

Lemma propagation_trace_and_grid_witness :
  exists res s1,
    AngularSpectrumPropagator.backward
      (AngularSpectrumPropagator.__init__ (env := Ref.env)
         Ex.g2 100%Q 2%nat (AngularSpectrumPropagator.Constant 1%Q))
      {| electric_field := Ex.u2; wavelength := 1%Q;
         input_stokes_vector := None |}
    = (Ok (res, s1),
       [Call_fftn [(-2)%Z; (-1)%Z] [4; 4]%nat;
        Call_fftn [(-2)%Z; (-1)%Z] [4; 4]%nat;
        Call_ifftn [(-2)%Z; (-1)%Z] [4; 4]%nat]) /\
    grid (electric_field res) = Ex.g2.
Proof.
  destruct (AngularSpectrumPropagator.backward
              (AngularSpectrumPropagator.__init__ (env := Ref.env)
                 Ex.g2 100%Q 2%nat (AngularSpectrumPropagator.Constant 1%Q))
              {| electric_field := Ex.u2; wavelength := 1%Q;
                 input_stokes_vector := None |}) as [[[res s1]|e] t] eqn:H.
  - exists res, s1.
    assert (Ht : fft_calls (AngularSpectrumPropagator.backward
                    (AngularSpectrumPropagator.__init__ (env := Ref.env)
                       Ex.g2 100%Q 2%nat (AngularSpectrumPropagator.Constant 1%Q))
                    {| electric_field := Ex.u2; wavelength := 1%Q;
                       input_stokes_vector := None |})
                 = [Call_fftn [(-2)%Z; (-1)%Z] [4; 4]%nat;
                    Call_fftn [(-2)%Z; (-1)%Z] [4; 4]%nat;
                    Call_ifftn [(-2)%Z; (-1)%Z] [4; 4]%nat])
      by (vm_compute; reflexivity).
    rewrite H in Ht. unfold fft_calls in Ht. simpl in Ht. subst t.
    split; [reflexivity|].
    exact (proj1 (@propagation_trace_and_grid Ref.env true
                    (AngularSpectrumPropagator.__init__ (env := Ref.env)
                       Ex.g2 100%Q 2%nat (AngularSpectrumPropagator.Constant 1%Q))
                    s1
                    {| electric_field := Ex.u2; wavelength := 1%Q;
                       input_stokes_vector := None |}
                    res _ eq_refl H)).
  - exfalso.
    assert (Hok : is_ok (result (AngularSpectrumPropagator.backward
                    (AngularSpectrumPropagator.__init__ (env := Ref.env)
                       Ex.g2 100%Q 2%nat (AngularSpectrumPropagator.Constant 1%Q))
                    {| electric_field := Ex.u2; wavelength := 1%Q;
                       input_stokes_vector := None |})) = true)
      by (vm_compute; reflexivity).
    rewrite H in Hok. discriminate Hok.
Defined.

(** ** Values that the operators reject *)

(** X24. What a rotation returns is accepted by no rotation and by no
    shear: given the value that a call of a rotation returned, [forward]
    and [backward] of any FourierRotation and of any FourierShear raise
    AttributeError before any call into the FFT module. *)
Theorem rotation_result_is_rejected :
  forall (env : Env) (rot rot' : FourierRotation.t) (shear : FourierShear.t)
         (v r : PyVal C) (adjoint adjoint' : bool) (t : list FFTCall),
    FourierRotation._operation rot v adjoint = (Ok r, t) ->
    FourierRotation._operation rot' r adjoint' = (Raise AttributeError, []) /\
    FourierShear._operation shear r adjoint' = (Raise AttributeError, []).
Proof.
  intros env rot rot' shear v r adjoint adjoint' t H.
  unfold FourierRotation._operation in H.
  apply bind_inv in H. destruct H as (f1 & t1 & t1' & H1 & H' & Et). subst t.
  apply bind_inv in H'. destruct H' as (f2 & t2 & t2' & H2 & H' & Et). subst t1'.
  apply bind_inv in H'. destruct H' as (f3 & t3 & t3' & H3 & H' & Et). subst t2'.
  unfold ret in H'. inversion H'; subst r t3'. clear H'.
  split; reflexivity.
Qed.

Lemma rotation_result_is_rejected_witness :
  exists r t,
    FourierRotation._operation Ex.rotation0 (VField Ex.u2) false = (Ok r, t) /\
    FourierRotation._operation Ex.rotation0 r true = (Raise AttributeError, []).
Proof.
  destruct (FourierRotation._operation Ex.rotation0 (VField Ex.u2) false)
    as [[r|e] t] eqn:H.
  - exists r, t. split; [reflexivity|].
    exact (proj1 (@rotation_result_is_rejected Ref.env Ex.rotation0 Ex.rotation0
                    (FourierRotation._shear_x Ex.rotation0) (VField Ex.u2) r
                    false true t H)).
  - exfalso.
    assert (Hok : is_ok (result (FourierRotation._operation Ex.rotation0
                                   (VField Ex.u2) false)) = true)
      by (vm_compute; reflexivity).
    rewrite H in Hok. discriminate Hok.
Defined.

(** X25. A filter with padding rejects a field that does not fit its
    buffer before it transforms anything: when the index of the cutout
    has more slices than the buffer has axes the call raises IndexError,
    and when the shaped field, without the leading axes of length 1 that
    it has beyond those of the region of the cutout, does not broadcast to
    that region, [forward] and [backward] raise ValueError.  The only
    calls into the FFT module before that are those of the generator of
    the transfer function. *)
Theorem misfit_field_rejected_before_fft :
  forall (env : Env) (self : FourierFilter.t) (u : Field C) (adjoint : bool)
         (co : list slice) (buf : ndarray C),
    FourierFilter.cutout self = Some co ->
    FourierFilter.internal_array (FourierFilter._compute_functions self u) = Some buf ->
    ((length (shape buf) < length (repeat SliceAll (tensor_order u) ++ co))%nat ->
     FourierFilter._operation self u adjoint
     = (Raise IndexError, FourierFilter._compute_functions_calls self u)) /\
    ((length (repeat SliceAll (tensor_order u) ++ co) <= length (shape buf))%nat ->
     broadcastable
       (strip_leading_ones
          (length (shape (shaped u))
           - length (region_shape (shape buf) (repeat SliceAll (tensor_order u) ++ co)))
          (shape (shaped u)))
       (region_shape (shape buf) (repeat SliceAll (tensor_order u) ++ co))
     = false ->
     FourierFilter._operation self u adjoint
     = (Raise ValueError, FourierFilter._compute_functions_calls self u)).
Proof.
  intros env self u adjoint co buf Hco Hbuf.
  rewrite operation_unfold. unfold operation_body.
  change (FourierFilter.cutout (FourierFilter._compute_functions self u))
    with (FourierFilter.cutout self).
  rewrite Hco, Hbuf.
  split.
  - intro Hlen.
    assert (Hs : np.setitem (np.fill_zero buf)
                            (repeat SliceAll (tensor_order u) ++ co) (shaped u)
                 = Raise IndexError).
    { unfold np.setitem.
      change (shape (np.fill_zero buf)) with (shape buf).
      apply Nat.ltb_lt in Hlen. rewrite Hlen. reflexivity. }
    cbv beta iota zeta delta [bind FourierFilter.attr ret np.lift].
    rewrite Hs, app_nil_r. reflexivity.
  - intros Hlen Hb.
    assert (Hs : np.setitem (np.fill_zero buf)
                            (repeat SliceAll (tensor_order u) ++ co) (shaped u)
                 = Raise ValueError).
    { unfold np.setitem.
      change (shape (np.fill_zero buf)) with (shape buf).
      apply Nat.ltb_ge in Hlen. rewrite Hlen, Hb. reflexivity. }
    cbv beta iota zeta delta [bind FourierFilter.attr ret np.lift].
    rewrite Hs, app_nil_r. reflexivity.
Qed.

Lemma misfit_field_rejected_before_fft_witness :
  FourierFilter.forward Ex.generated_filter
    (Ex.field (Ex.regular_grid [3%nat]) [] [1; 2; 3]%Q)
  = (Raise ValueError, [Call_fftn [(-1)%Z] [4%nat]]).
Proof.
  refine (proj2 (@misfit_field_rejected_before_fft Ref.env Ex.generated_filter
            (Ex.field (Ex.regular_grid [3%nat]) [] [1; 2; 3]%Q) false
            [Slice 1 3]
            (fresh_buffer Ex.generated_filter
               (Ex.field (Ex.regular_grid [3%nat]) [] [1; 2; 3]%Q)) _ _) _ _).
  - reflexivity.
  - reflexivity.
  - simpl. lia.
  - reflexivity.
Defined.

